(** * CourtListener: manifest export, opinion ordering, maintenance mode

    A shallow embedding of three pieces of the CourtListener backend:

    - [cl/corpus_importer/management/commands/make_aws_manifest_files.py]
      (module [Manifest]): the checkpointed export loop that pages through
      a table in primary-key order and uploads one CSV manifest per page,
      and (module [Manifest.Sql]) the text of its statements;
    - [cl/corpus_importer/management/commands/update_opinions_order.py]
      (modules [OpinionsOrder], [Xml] and [OrderingKey]):
      [generate_ngrams] and [match_text], [get_xml], and the two actions
      [sort_harvard_opinions] and [sort_columbia_opinions] with the
      command that chooses between them;
    - [cl/lib/middleware.py] (module [Middleware]):
      [MaintenanceModeMiddleware].

    Python integers are [Z]; Python text is a Rocq [string] (a sequence of
    bytes, so [.encode("utf-8")] is the identity on it); the Redis hash is
    a [gmap]; the matching rows of a table are a [gset Z] of primary keys;
    exceptions are an explicit result type. *)

From Stdlib Require Import ZArith String Ascii List Lia.
From Stdlib Require Import DecimalString DecimalPos DecimalZ.
From Stdlib Require SpecFloat.
From stdpp Require Import base option list sorting gmap strings.

Open Scope Z_scope.

(** ** Python primitives *)

Module Py.

(** Exceptions that the embedded code can raise. *)
Inductive exn :=
| ValueError
| IndexError
| ZeroDivisionError
| OverflowError
| DatabaseError
| MiddlewareNotUsed.

(** The result of running a piece of code: a value, an exception, or
    [Timeout] when the model of a [while True] loop ran out of fuel. *)
Inductive outcome (A : Type) :=
| Ok (a : A)
| Raise (e : exn)
| Timeout.
Arguments Ok {A} a.
Arguments Raise {A} e.
Arguments Timeout {A}.

(** Sequencing of code that can raise. *)
Definition and_then {A B} (o : outcome A) (k : A -> outcome B) : outcome B :=
  match o with
  | Ok a => k a
  | Raise e => Raise e
  | Timeout => Timeout
  end.

Notation "'let?' x ':=' o 'in' k" := (and_then o (fun x => k))
  (at level 10, x name, o at level 100, k at level 200).

Fixpoint for_each {A B} (f : A -> outcome B) (l : list A) : outcome (list B) :=
  match l with
  | [] => Ok []
  | x :: l' => let? y := f x in let? ys := for_each f l' in Ok (y :: ys)
  end.

(** [row[0]] and [row[-1]] *)
Definition first_item {A} (l : list A) : outcome A :=
  match l with
  | x :: _ => Ok x
  | [] => Raise IndexError
  end.

Definition last_item {A} (l : list A) : outcome A :=
  match last l with
  | Some x => Ok x
  | None => Raise IndexError
  end.

(** The values the variable [last_pk] and the SQL parameters range over:
    [None], a [str] read from Redis, or an [int] read from a row. *)
Inductive value :=
| PyNone
| PyStr (s : string)
| PyInt (z : Z).

(** Truth value testing, as in [if last_pk] and [x or 0]. *)
Definition truthy (v : value) : bool :=
  match v with
  | PyNone => false
  | PyStr s => negb (String.eqb s "")
  | PyInt z => negb (z =? 0)
  end.

(** [str(z)] and [f"{z}"] for an integer. *)
Definition str (z : Z) : string := NilZero.string_of_int (Z.to_int z).

(** [int(s)] for a string: an optional minus sign and decimal digits, the
    form in which Redis holds an integer.  Python accepts in addition
    surrounding white space, a plus sign and underscores between digits;
    those strings are a [ValueError] here. *)
Definition int_of_str (s : string) : outcome Z :=
  match NilZero.int_of_string s with
  | Some d => Ok (Z.of_int d)
  | None => Raise ValueError
  end.

(** [int(x or 0)] for the result [x] of [hget]. *)
Definition int_or_0 (x : option string) : outcome Z :=
  match x with
  | None => Ok 0
  | Some s => if String.eqb s "" then Ok 0 else int_of_str s
  end.

(** [len(l)] *)
Definition len {A} (l : list A) : Z := Z.of_nat (length l).

(** [itertools.batched(l, n)]: [while batch := tuple(islice(it, n)): yield
    batch].  The recursion is on a counter that starts at [length l], which
    is enough because every batch takes at least one element. *)
Fixpoint chunks {A} (fuel n : nat) (l : list A) : list (list A) :=
  match fuel, l with
  | S fuel', _ :: _ => take n l :: chunks fuel' n (drop n l)
  | _, _ => []
  end.

Definition batched {A} (l : list A) (n : Z) : outcome (list (list A)) :=
  if n <? 1 then Raise ValueError
  else Ok (chunks (length l) (Z.to_nat n) l).

(** [sorted(l, key=key)]: a stable sort by ascending key.  Stable sorting
    has one result, so insertion sort computes what Timsort computes. *)
Fixpoint insert_by {A} (key : A -> Z) (x : A) (l : list A) : list A :=
  match l with
  | [] => [x]
  | y :: l' => if key x <=? key y then x :: l else y :: insert_by key x l'
  end.

Fixpoint sorted {A} (key : A -> Z) (l : list A) : list A :=
  match l with
  | [] => []
  | x :: l' => insert_by key x (sorted key l')
  end.

(** [s.find(sub)]: the lowest index at which [sub] occurs, or -1. *)
Fixpoint find_from (sub s : string) (i : Z) : Z :=
  if String.prefix sub s then i
  else match s with
       | EmptyString => -1
       | String _ s' => find_from sub s' (i + 1)
       end.

Definition find (s sub : string) : Z := find_from sub s 0.

(** [s.count(sub)]: the number of non-overlapping occurrences, scanning
    from the left; [skip] is the number of characters still covered by the
    occurrence counted last.  The empty string occurs [len(s) + 1] times. *)
Fixpoint count_from (sub : string) (skip : nat) (s : string) : Z :=
  match s with
  | EmptyString => 0
  | String _ s' =>
      match skip with
      | S k => count_from sub k s'
      | O => if String.prefix sub s
             then 1 + count_from sub (String.length sub - 1) s'
             else count_from sub 0 s'
      end
  end.

Definition count (s sub : string) : Z :=
  if String.eqb sub "" then Z.of_nat (String.length s) + 1
  else count_from sub 0 s.

(** [s.replace(old, new)] for a non-empty [old]: every non-overlapping
    occurrence, scanning from the left. *)
Fixpoint replace_from (old new : string) (skip : nat) (s : string) : string :=
  match s with
  | EmptyString => EmptyString
  | String c s' =>
      match skip with
      | S k => replace_from old new k s'
      | O => if String.prefix old s
             then new +:+ replace_from old new (String.length old - 1) s'
             else String c (replace_from old new 0 s')
      end
  end.

Definition replace (s old new : string) : string := replace_from old new 0 s.

(** [sep.join(l)] *)
Definition join (sep : string) (l : list string) : string := String.concat sep l.

End Py.

Import Py.

(** ** The services the export command talks to *)

(** *** Redis: a store of hashes *)

Module Redis.

(** Modelled from the spec: the interface that [get_redis_interface]
    returns is set up in [cl.lib.redis_utils]; the checkpoint store is
    "a hash-like record per record type with fields [last_pk],
    [total_records], [next_iteration_counter], [records_processed],
    addressable by a type-qualified key name; deleted on success".  The
    values of the fields are strings, an integer being stored as its
    decimal digits, and [hget] returns [None] for a field that is absent. *)
Definition hget (r : gmap string (gmap string string)) (name key : string)
  : option string :=
  r !! name ≫= (.!! key).

Definition hset (r : gmap string (gmap string string))
    (name key value : string) : gmap string (gmap string string) :=
  <[name := <[key := value]> (default ∅ (r !! name))]> r.

(** [r.hset(name, mapping={...})]: the fields are written in order. *)
Definition hset_mapping (r : gmap string (gmap string string))
    (name : string) (mapping : list (string * string))
  : gmap string (gmap string string) :=
  foldl (fun r kv => hset r name kv.1 kv.2) r mapping.

Definition delete (r : gmap string (gmap string string)) (name : string)
  : gmap string (gmap string string) :=
  base.delete name r.

End Redis.

(** *** The csv module: a writer with the default (excel) dialect *)

Module Csv.

Definition comma : ascii := ","%char.
Definition quotechar : ascii := ascii_of_nat 34.
Definition CR : ascii := ascii_of_nat 13.
Definition LF : ascii := ascii_of_nat 10.
Definition lineterminator : string := String CR (String LF EmptyString).

(** QUOTE_MINIMAL: a field is quoted when it holds the delimiter, the quote
    character or a character of the line terminator. *)
Definition special (c : ascii) : bool :=
  Ascii.eqb c comma || Ascii.eqb c quotechar || Ascii.eqb c CR || Ascii.eqb c LF.

Fixpoint needs_quotes (s : string) : bool :=
  match s with
  | EmptyString => false
  | String c s' => special c || needs_quotes s'
  end.

(** doublequote: a quote character inside a quoted field is written twice. *)
Fixpoint escape (s : string) : string :=
  match s with
  | EmptyString => EmptyString
  | String c s' =>
      if Ascii.eqb c quotechar then String c (String c (escape s'))
      else String c (escape s')
  end.

Definition field (s : string) : string :=
  if needs_quotes s
  then String quotechar (escape s) +:+ String quotechar EmptyString
  else s.

(** [writer.writerow(fields)], for a row of at least two fields. *)
Definition writerow (fields : list string) : string :=
  String.concat (String comma EmptyString) (field <$> fields) +:+ lineterminator.

End Csv.

(** *** The relational database *)

Module Db.

(** The record types the command accepts ([choices] of [--record-type]). *)
Inductive search_type := RECAP_DOCUMENT | OPINION | ORAL_ARGUMENT.

(** A database connection, as far as the command's queries see it: for
    each record type, the primary keys of the rows that satisfy the
    conditions of its [WHERE] clause other than the one on [id]
    ([is_available=True AND page_count>0 AND ocr_status!=1] for RECAP
    documents, [extracted_by_ocr != true] for opinions, [stt_status = 1]
    for oral arguments).  The count query and the id query of a type have
    the same conditions.  The rows are those of one moment: the tables do
    not change while the command runs. *)
Record connection := { matching : search_type -> gset Z }.

(** The two statements [get_custom_query] can build for a type,
    [SELECT id from <table> WHERE <conditions> ORDER BY id LIMIT %s]
    and the same with [id > %s AND] in front of the conditions. *)
Record select_ids := {
  from_type : search_type;
  id_greater : bool
}.

(** A parameter bound to [id > %s]: an integer, or a string that the
    server reads as an integer literal (a sign and digits; other text is
    an error); [NULL] compares to nothing. *)
Definition bound (v : value) : outcome (option Z) :=
  match v with
  | PyInt z => Ok (Some z)
  | PyStr s => match int_of_str s with
               | Ok z => Ok (Some z)
               | _ => Raise DatabaseError
               end
  | PyNone => Ok None
  end.

(** A parameter bound to [LIMIT %s]: a negative limit is an error. *)
Definition limit (v : value) : outcome nat :=
  match v with
  | PyInt z => if z <? 0 then Raise DatabaseError else Ok (Z.to_nat z)
  | _ => Raise DatabaseError
  end.

Definition ordered (ids : list Z) : list Z := merge_sort Z.le ids.

(** [cursor.execute(query, params); cursor.fetchall()] for an id query:
    the ids in ascending order, at most [LIMIT] of them. *)
Definition execute (c : connection) (q : select_ids) (params : list value)
  : outcome (list Z) :=
  let table := elements (matching c (from_type q)) in
  match id_greater q, params with
  | false, [l] =>
      let? n := limit l in
      Ok (take n (ordered table))
  | true, [pk; l] =>
      let? after := bound pk in
      let? n := limit l in
      Ok (match after with
          | Some p => take n (ordered (filter (fun i => p < i) table))
          | None => []
          end)
  | _, _ => Raise DatabaseError
  end.

(** [SELECT count( * )] with the conditions of the type. *)
Definition count_rows (c : connection) (t : search_type) : Z :=
  Z.of_nat (size (matching c t)).

End Db.

(** ** make_aws_manifest_files.py *)

Module Manifest.
Import Db.

(** What a run of the command does to the outside world, in order. *)
Inductive event :=
| CountQuery (use_replica : bool) (type : search_type) (result : Z)
| IdQuery (use_replica : bool) (query : select_ids) (params : list value)
    (rows : list Z)
| PutObject (Key Bucket Body : string)
| HSet (name : string) (mapping : list (string * string))
| Delete (name : string).

(** [django.db.connections] *)
Record connections := {
  conn_default : connection;
  conn_replica : connection
}.

(** The parsed command line. *)
Record options := {
  record_type : search_type;
  bucket_name : string;
  query_batch_size : Z;
  lambda_record_size : Z;
  use_replica : bool
}.

(** Code of the command: the Redis store is threaded through, the events
    are collected, an exception stops the run and keeps the store as it
    is at that point.  The services answer every call: the exceptions are
    those that the values handed to [int], [batched], the database and
    the progress line give rise to. *)
Definition M (A : Type) : Type :=
  gmap string (gmap string string) ->
  outcome A * gmap string (gmap string string) * list event.

Definition ret {A} (a : A) : M A := fun r => (Ok a, r, []).

Definition bind {A B} (m : M A) (k : A -> M B) : M B :=
  fun r =>
    match m r with
    | (Ok a, r', evs) =>
        match k a r' with
        | (o, r'', evs') => (o, r'', evs ++ evs')
        end
    | (Raise e, r', evs) => (Raise e, r', evs)
    | (Timeout, r', evs) => (Timeout, r', evs)
    end.

Notation "'let*' x ':=' m 'in' k" := (bind m (fun x => k))
  (at level 10, x name, m at level 100, k at level 200).

(** A computation that touches nothing outside. *)
Definition pure {A} (o : outcome A) : M A := fun r => (o, r, []).

Definition hget (name key : string) : M (option string) :=
  fun r => (Ok (Redis.hget r name key), r, []).

Definition hset (name : string) (mapping : list (string * string)) : M unit :=
  fun r => (Ok tt, Redis.hset_mapping r name mapping, [HSet name mapping]).

Definition delete (name : string) : M unit :=
  fun r => (Ok tt, Redis.delete r name, [Delete name]).

Definition put_object (Key Bucket Body : string) : M unit :=
  fun r => (Ok tt, r, [PutObject Key Bucket Body]).

(** The value of ["file_name"] in [query_dict]. *)
Definition file_name (row : list Z) : outcome string :=
  if 1 <? len row
  then let? a := first_item row in let? b := last_item row in
       Ok (str a +:+ "_" +:+ str b)
  else let? a := first_item row in Ok (str a).

(** The text written to [csvfile] for one page of rows. *)
Definition manifest (bucket : string) (rows : list Z) (size : Z)
  : outcome string :=
  let? groups := batched rows size in
  let? lines :=
    for_each (fun row =>
                let? name := file_name row in
                Ok (Csv.writerow [bucket; name]))
             groups in
  Ok (String.concat "" lines).

(** [x * 1.0] and [float / x] turn the integer [x] into a float, which
    fails from 2^1024 - 2^970 on. *)
Definition float_range : Z := 2 ^ 1024 - 2 ^ 970.

Definition fits_float (z : Z) : bool := Z.abs z <? float_range.

(** The exceptions of the progress line
    [(record_count + records_processed) * 1.0 / total_number_of_records]. *)
Definition progress (processed total : Z) : outcome unit :=
  if negb (fits_float processed) then Raise OverflowError
  else if negb (fits_float total) then Raise OverflowError
  else if total =? 0 then Raise ZeroDivisionError
  else Ok tt.

(** [get_custom_query]: the statement and its parameters. *)
Definition get_custom_query (type : search_type) (last_pk : value)
  : select_ids * list value :=
  ({| from_type := type; id_greater := negb (negb (truthy last_pk)) |},
   if truthy last_pk then [last_pk] else []).

(** What [hget] returns, as a Python value. *)
Definition of_hget (x : option string) : value :=
  match x with
  | Some s => PyStr s
  | None => PyNone
  end.

(** How the loop body ends. *)
Inductive step :=
| Break
| Continue (last_pk : value) (counter : Z).

Section Command.

(** The codes of the record types, [SEARCH_TYPES.RECAP_DOCUMENT] and so
    on, are defined in [cl.search.models]. *)
Variable SEARCH_TYPES : search_type -> string.

Variable conns : connections.

Definition connection_of (use_replica : bool) : connection :=
  if use_replica then conn_replica conns else conn_default conns.

Definition cursor_execute (use_replica : bool) (q : select_ids)
    (params : list value) : M (list Z) :=
  fun r =>
    match execute (connection_of use_replica) q params with
    | Ok rows => (Ok rows, r, [IdQuery use_replica q params rows])
    | Raise e => (Raise e, r, [])
    | Timeout => (Timeout, r, [])
    end.

Definition get_total_number_of_records (type : search_type)
    (use_replica : bool) : M Z :=
  fun r =>
    let n := count_rows (connection_of use_replica) type in
    (Ok n, r, [CountQuery use_replica type n]).

Definition import_status (type : search_type) : string :=
  SEARCH_TYPES type +:+ "_import_status".

Definition filelist (type : search_type) (counter : Z) : string :=
  SEARCH_TYPES type +:+ "_filelist_" +:+ str counter +:+ ".csv".

(** The body of [while True]. *)
Definition iteration (opts : options) (total_number_of_records : Z)
    (last_pk : value) (counter : Z) : M step :=
  let '(query, params) := get_custom_query (record_type opts) last_pk in
  let params := params ++ [PyInt (query_batch_size opts)] in
  let* rows := cursor_execute (use_replica opts) query params in
  let record_count := len rows in
  if record_count =? 0 then ret Break
  else
    let* csvfile :=
      pure (manifest (bucket_name opts) rows (lambda_record_size opts)) in
    let* _ := put_object (filelist (record_type opts) counter)
                (bucket_name opts) csvfile in
    let counter := counter + 1 in
    let* last_pk := pure (last_item rows) in
    let* stored := hget (import_status (record_type opts)) "records_processed" in
    let* records_processed := pure (int_or_0 stored) in
    let* _ := hset (import_status (record_type opts))
                [("last_pk", str last_pk);
                 ("next_iteration_counter", str counter);
                 ("records_processed", str (records_processed + record_count))] in
    let* _ := pure (progress (record_count + records_processed)
                      total_number_of_records) in
    ret (Continue (PyInt last_pk) counter).

Fixpoint loop (fuel : nat) (opts : options) (total_number_of_records : Z)
    (last_pk : value) (counter : Z) : M unit :=
  match fuel with
  | O => pure Timeout
  | S fuel' =>
      let* s := iteration opts total_number_of_records last_pk counter in
      match s with
      | Break => ret tt
      | Continue last_pk counter =>
          loop fuel' opts total_number_of_records last_pk counter
      end
  end.

(** [Command.handle]; [fuel] bounds the number of passes of the loop. *)
Definition handle (fuel : nat) (opts : options) : M unit :=
  let name := import_status (record_type opts) in
  let* stored_pk := hget name "last_pk" in
  let last_pk := of_hget stored_pk in
  let* stored_total := hget name "total_records" in
  let* cached := pure (int_or_0 stored_total) in
  let* total_number_of_records :=
    (if cached =? 0
     then let* n := get_total_number_of_records (record_type opts)
                      (use_replica opts) in
          let* _ := hset name [("total_records", str n)] in
          ret n
     else ret cached) in
  let* stored_counter := hget name "next_iteration_counter" in
  let* counter := pure (int_or_0 stored_counter) in
  let* _ := loop fuel opts total_number_of_records last_pk counter in
  delete name.

End Command.

(** *** What a trace shows *)

(** The pages of rows the id queries returned. *)
Definition pages (evs : list event) : list (list Z) :=
  omap (fun ev => match ev with
                  | IdQuery _ _ _ rows => Some rows
                  | _ => None
                  end) evs.

(** The objects put to S3: key, bucket, body. *)
Definition uploads (evs : list event) : list (string * string * string) :=
  omap (fun ev => match ev with
                  | PutObject k b body => Some (k, b, body)
                  | _ => None
                  end) evs.

(** The values written to one field of a hash. *)
Definition writes_to (name key : string) (evs : list event) : list string :=
  mjoin (omap (fun ev =>
      match ev with
      | HSet n mapping =>
          if String.eqb n name
          then Some (omap (fun kv => if String.eqb kv.1 key then Some kv.2 else None)
                       mapping)
          else None
      | _ => None
      end) evs).

Definition is_count_query (ev : event) : bool :=
  match ev with CountQuery _ _ _ => true | _ => false end.

Definition is_delete (ev : event) : bool :=
  match ev with Delete _ => true | _ => false end.

(** Two stores that differ at most in the field [total_records] of the
    hash [name]. *)
Definition same_but_total (name : string)
    (r1 r2 : gmap string (gmap string string)) : Prop :=
  (forall other, other ≠ name -> r1 !! other = r2 !! other) /\
  (forall key, key ≠ "total_records" ->
     Redis.hget r1 name key = Redis.hget r2 name key).

(** The store after the writes of a trace. *)
Definition apply_event (r : gmap string (gmap string string)) (ev : event)
  : gmap string (gmap string string) :=
  match ev with
  | HSet name mapping => Redis.hset_mapping r name mapping
  | Delete name => Redis.delete r name
  | _ => r
  end.

Definition replay (r : gmap string (gmap string string)) (evs : list event)
  : gmap string (gmap string string) :=
  foldl apply_event r evs.



(** *** One pass of the loop, case by case *)

Section Passes.

Variable SEARCH_TYPES : search_type -> string.
Variable conns : connections.
Variable opts : options.
Variable total_number_of_records : Z.

Definition query_of (last_pk : value) : select_ids :=
  (get_custom_query (record_type opts) last_pk).1.

Definition params_of (last_pk : value) : list value :=
  (get_custom_query (record_type opts) last_pk).2 ++ [PyInt (query_batch_size opts)].

Definition fetch (last_pk : value) : outcome (list Z) :=
  execute (connection_of conns (use_replica opts)) (query_of last_pk)
    (params_of last_pk).

Definition checkpoint (last_pk counter processed : Z) : list (string * string) :=
  [("last_pk", str last_pk);
   ("next_iteration_counter", str counter);
   ("records_processed", str processed)].

(** [pass last_pk counter r o r' evs]: the loop body started with
    [last_pk], [counter] and the store [r] ends as [o] with the store
    [r'] after the events [evs]. *)
Inductive pass (last_pk : value) (counter : Z)
    (r : gmap string (gmap string string))
  : outcome step -> gmap string (gmap string string) -> list event -> Prop :=
| pass_query_raises e :
    fetch last_pk = Raise e ->
    pass last_pk counter r (Raise e) r []
| pass_break :
    fetch last_pk = Ok [] ->
    pass last_pk counter r (Ok Break) r
      [IdQuery (use_replica opts) (query_of last_pk) (params_of last_pk) []]
| pass_manifest_raises rows e :
    fetch last_pk = Ok rows -> rows ≠ [] ->
    manifest (bucket_name opts) rows (lambda_record_size opts) = Raise e ->
    pass last_pk counter r (Raise e) r
      [IdQuery (use_replica opts) (query_of last_pk) (params_of last_pk) rows]
| pass_processed_raises rows csvfile e :
    fetch last_pk = Ok rows -> rows ≠ [] ->
    manifest (bucket_name opts) rows (lambda_record_size opts) = Ok csvfile ->
    int_or_0 (Redis.hget r (import_status SEARCH_TYPES (record_type opts))
                "records_processed") = Raise e ->
    pass last_pk counter r (Raise e) r
      [IdQuery (use_replica opts) (query_of last_pk) (params_of last_pk) rows;
       PutObject (filelist SEARCH_TYPES (record_type opts) counter)
         (bucket_name opts) csvfile]
| pass_commit rows csvfile pk processed o :
    fetch last_pk = Ok rows -> rows ≠ [] ->
    manifest (bucket_name opts) rows (lambda_record_size opts) = Ok csvfile ->
    last rows = Some pk ->
    int_or_0 (Redis.hget r (import_status SEARCH_TYPES (record_type opts))
                "records_processed") = Ok processed ->
    o = and_then (progress (len rows + processed) total_number_of_records)
          (fun _ => Ok (Continue (PyInt pk) (counter + 1))) ->
    pass last_pk counter r o
      (Redis.hset_mapping r (import_status SEARCH_TYPES (record_type opts))
         (checkpoint pk (counter + 1) (processed + len rows)))
      [IdQuery (use_replica opts) (query_of last_pk) (params_of last_pk) rows;
       PutObject (filelist SEARCH_TYPES (record_type opts) counter)
         (bucket_name opts) csvfile;
       HSet (import_status SEARCH_TYPES (record_type opts))
         (checkpoint pk (counter + 1) (processed + len rows))].

(** [passes fuel last_pk counter r o r' evs]: the loop started with
    [last_pk], [counter] and [r], and allowed [fuel] passes, ends as [o]
    with the store [r'] after [evs]. *)
Inductive passes
  : nat -> value -> Z -> gmap string (gmap string string) ->
    outcome unit -> gmap string (gmap string string) -> list event -> Prop :=
| passes_cut last_pk counter r :
    passes O last_pk counter r Timeout r []
| passes_break fuel last_pk counter r r' evs :
    pass last_pk counter r (Ok Break) r' evs ->
    passes (S fuel) last_pk counter r (Ok tt) r' evs
| passes_raise fuel last_pk counter r e r' evs :
    pass last_pk counter r (Raise e) r' evs ->
    passes (S fuel) last_pk counter r (Raise e) r' evs
| passes_continue fuel last_pk counter r last_pk' counter' r' evs o r'' evs' :
    pass last_pk counter r (Ok (Continue last_pk' counter')) r' evs ->
    passes fuel last_pk' counter' r' o r'' evs' ->
    passes (S fuel) last_pk counter r o r'' (evs ++ evs').

End Passes.

(** *** A run of the command, case by case *)

Section Runs.

Variable SEARCH_TYPES : search_type -> string.
Variable conns : connections.
Variable fuel : nat.
Variable opts : options.

(** [prelude r total r' evs]: the code before the loop, started with the
    store [r], fixes [total_number_of_records] as [total]. *)
Inductive prelude (r : gmap string (gmap string string))
  : Z -> gmap string (gmap string string) -> list event -> Prop :=
| prelude_counts :
    int_or_0 (Redis.hget r (import_status SEARCH_TYPES (record_type opts))
                "total_records") = Ok 0 ->
    prelude r
      (count_rows (connection_of conns (use_replica opts)) (record_type opts))
      (Redis.hset_mapping r (import_status SEARCH_TYPES (record_type opts))
         [("total_records",
           str (count_rows (connection_of conns (use_replica opts))
                  (record_type opts)))])
      [CountQuery (use_replica opts) (record_type opts)
         (count_rows (connection_of conns (use_replica opts)) (record_type opts));
       HSet (import_status SEARCH_TYPES (record_type opts))
         [("total_records",
           str (count_rows (connection_of conns (use_replica opts))
                  (record_type opts)))]]
| prelude_cached total :
    int_or_0 (Redis.hget r (import_status SEARCH_TYPES (record_type opts))
                "total_records") = Ok total ->
    total ≠ 0 ->
    prelude r total r [].

(** [run r o r' evs]: [handle], allowed [fuel] passes of the loop and
    started with the store [r], ends as [o] with the store [r'] after the
    events [evs]. *)
Inductive run (r : gmap string (gmap string string))
  : outcome unit -> gmap string (gmap string string) -> list event -> Prop :=
| run_total_raises e :
    int_or_0 (Redis.hget r (import_status SEARCH_TYPES (record_type opts))
                "total_records") = Raise e ->
    run r (Raise e) r []
| run_counter_raises total r1 evs0 e :
    prelude r total r1 evs0 ->
    int_or_0 (Redis.hget r1 (import_status SEARCH_TYPES (record_type opts))
                "next_iteration_counter") = Raise e ->
    run r (Raise e) r1 evs0
| run_finished total r1 evs0 counter r2 evs :
    prelude r total r1 evs0 ->
    int_or_0 (Redis.hget r1 (import_status SEARCH_TYPES (record_type opts))
                "next_iteration_counter") = Ok counter ->
    passes SEARCH_TYPES conns opts total fuel
      (of_hget (Redis.hget r (import_status SEARCH_TYPES (record_type opts))
                  "last_pk"))
      counter r1 (Ok tt) r2 evs ->
    run r (Ok tt)
      (Redis.delete r2 (import_status SEARCH_TYPES (record_type opts)))
      (evs0 ++ evs ++ [Delete (import_status SEARCH_TYPES (record_type opts))])
| run_stopped total r1 evs0 counter o r2 evs :
    prelude r total r1 evs0 ->
    int_or_0 (Redis.hget r1 (import_status SEARCH_TYPES (record_type opts))
                "next_iteration_counter") = Ok counter ->
    passes SEARCH_TYPES conns opts total fuel
      (of_hget (Redis.hget r (import_status SEARCH_TYPES (record_type opts))
                  "last_pk"))
      counter r1 o r2 evs ->
    o ≠ Ok tt ->
    run r o r2 (evs0 ++ evs).

End Runs.

(** *** The manifest rows as the specification words them *)

Fixpoint minimum (l : list Z) : option Z :=
  match l with
  | [] => None
  | x :: l' => Some (from_option (Z.min x) x (minimum l'))
  end.

Fixpoint maximum (l : list Z) : option Z :=
  match l with
  | [] => None
  | x :: l' => Some (from_option (Z.max x) x (maximum l'))
  end.

(** [min_of_group] for a group of one element, else
    [min_of_group_max_of_group]. *)
Definition file_name_spec (group : list Z) : option string :=
  match minimum group, maximum group with
  | Some lo, Some hi =>
      Some (if (length group =? 1)%nat then str lo
            else str lo +:+ "_" +:+ str hi)
  | _, _ => None
  end.

(** One manifest row for a group, without a header. *)
Definition manifest_row (bucket : string) (group : list Z) : option string :=
  name ← file_name_spec group;
  Some (Csv.field bucket +:+ "," +:+ name +:+ Csv.lineterminator).

(** The writes of a trace go to one hash. *)
Definition writes_only (n : string) (ev : event) : Prop :=
  match ev with
  | HSet n' _ | Delete n' => n' = n
  | _ => True
  end.

(** The rows that the id query built for [last_pk] ranges over, before
    its [LIMIT]: the whole table for a value that reads as false, the
    rows with a greater key for a key. *)
Definition rows_after (c : connection) (t : search_type) (last_pk : value)
  : list Z :=
  if truthy last_pk
  then match bound last_pk with
       | Ok (Some p) => ordered (filter (fun i => p < i) (elements (matching c t)))
       | _ => []
       end
  else ordered (elements (matching c t)).

(** *** The text of the statements *)

Module Sql.

Definition NL : string := String Csv.LF EmptyString.
Definition star : string := "*".

(** The indentation of the lines of the count queries in the source. *)
Definition indent : string := "            ".

(** The text of [query] in [get_total_number_of_records]. *)
Definition count_query (type : search_type) : string :=
  match type with
  | RECAP_DOCUMENT =>
      NL +:+ indent +:+ "SELECT count(" +:+ star +:+ ") AS exact_count" +:+
      NL +:+ indent +:+ "FROM search_recapdocument" +:+
      NL +:+ indent +:+
        "WHERE is_available=True AND page_count>0 AND ocr_status!=1" +:+
      NL +:+ indent
  | OPINION =>
      NL +:+ indent +:+ "SELECT count(" +:+ star +:+ ") AS exact_count" +:+
      NL +:+ indent +:+ "FROM search_opinion" +:+
      NL +:+ indent +:+ "WHERE extracted_by_ocr != true" +:+
      NL +:+ indent
  | ORAL_ARGUMENT =>
      NL +:+ indent +:+ "SELECT count(" +:+ star +:+ ") AS exact_count" +:+
      NL +:+ indent +:+ "FROM audio_audio" +:+
      NL +:+ indent +:+ "WHERE" +:+
      NL +:+ indent +:+ "    stt_status = 1" +:+
      NL +:+ indent
  end.

(** [get_custom_query], with the text of the statement. *)
Definition get_custom_query (type : search_type) (last_pk : value)
  : string * list value :=
  let params := [] in
  let '(base_query, filter_clause) :=
    match type with
    | RECAP_DOCUMENT =>
        ("SELECT id from search_recapdocument",
         if negb (truthy last_pk)
         then "WHERE is_available=True AND page_count>0 AND ocr_status!=1"
         else "WHERE id > %s AND is_available = True AND page_count > 0"
              +:+ " AND ocr_status != 1")
    | OPINION =>
        ("SELECT id from search_opinion",
         if negb (truthy last_pk)
         then "WHERE extracted_by_ocr != true"
         else "WHERE id > %s AND extracted_by_ocr != true")
    | ORAL_ARGUMENT =>
        let no_argument_where_clause := "WHERE stt_status = 1" in
        let where_clause_with_argument := "WHERE id > %s AND stt_status = 1" in
        ("SELECT id from audio_audio",
         if negb (truthy last_pk)
         then no_argument_where_clause
         else where_clause_with_argument)
    end in
  let params := if truthy last_pk then params ++ [last_pk] else params in
  let query :=
    base_query +:+ NL +:+ " " +:+ filter_clause +:+ NL +:+ " ORDER BY id"
    +:+ NL +:+ " LIMIT %s" in
  (query, params).

(** White space between the tokens of a statement does not matter to the
    server; [squeeze] drops it, to compare statements. *)
Definition is_blank (c : ascii) : bool :=
  Ascii.eqb c " " || Ascii.eqb c Csv.LF.

Fixpoint squeeze (s : string) : string :=
  match s with
  | EmptyString => EmptyString
  | String c s' => if is_blank c then squeeze s' else String c (squeeze s')
  end.

(** The table and the conditions that the statements of a type name. *)
Definition table_name (type : search_type) : string :=
  match type with
  | RECAP_DOCUMENT => "search_recapdocument"
  | OPINION => "search_opinion"
  | ORAL_ARGUMENT => "audio_audio"
  end.

Definition conditions (type : search_type) : string :=
  match type with
  | RECAP_DOCUMENT => "is_available=TrueANDpage_count>0ANDocr_status!=1"
  | OPINION => "extracted_by_ocr!=true"
  | ORAL_ARGUMENT => "stt_status=1"
  end.

End Sql.

(** *** A small installation to run the command on *)

Module Sample.

Definition codes (t : search_type) : string :=
  match t with
  | RECAP_DOCUMENT => "rd"
  | OPINION => "o"
  | ORAL_ARGUMENT => "oa"
  end.

Definition opinions : connection := {| matching := fun _ => {[ 5; 1; 3; 2; 9 ]} |}.

Definition empty : connection := {| matching := fun _ => ∅ |}.


Definition conns : connections :=
  {| conn_default := opinions; conn_replica := empty |}.

Definition opts : options :=
  {| record_type := OPINION;
     bucket_name := "b";
     query_batch_size := 3;
     lambda_record_size := 2;
     use_replica := false |}.

Definition opts_replica : options :=
  {| record_type := OPINION;
     bucket_name := "b";
     query_batch_size := 3;
     lambda_record_size := 2;
     use_replica := true |}.

(** A checkpoint left by a run that was stopped after its first page. *)
Definition resumed : gmap string (gmap string string) :=
  {[ "o_import_status" :=
       {[ "last_pk" := "3"; "total_records" := "5";
          "next_iteration_counter" := "1"; "records_processed" := "3" ]} ]}.

(** The same checkpoint with other values of [total_records]. *)
Definition with_total (total : string) : gmap string (gmap string string) :=
  {[ "o_import_status" :=
       {[ "last_pk" := "3"; "total_records" := total;
          "next_iteration_counter" := "1"; "records_processed" := "3" ]} ]}.

Definition without_total : gmap string (gmap string string) :=
  {[ "o_import_status" :=
       {[ "last_pk" := "3";
          "next_iteration_counter" := "1"; "records_processed" := "3" ]} ]}.


Definition opts_none : options :=
  {| record_type := OPINION;
     bucket_name := "b";
     query_batch_size := 0;
     lambda_record_size := 2;
     use_replica := false |}.


End Sample.

End Manifest.

(** ** update_opinions_order.py *)

Module OpinionsOrder.

(** [l[i:j]] for [0 <= i <= j] and [range(n)] *)
Definition slice {A} (l : list A) (i j : nat) : list A := take (j - i) (drop i l).

Definition range (n : Z) : list nat := seq 0 (Z.to_nat n).

Definition generate_ngrams (words : list string) : list (list string) :=
  if len words <=? 5 then (fun x => [x]) <$> words
  else if (5 <? len words) && (len words <? 25)
  then (fun i => slice words i (i + 2)) <$> range (len words - 1)
  else (fun i => slice words i (i + 5)) <$> range (len words - 4).

(** A row of [values_list("id", "type", "html_columbia", "local_path")]. *)
Record opinion := {
  id : Z;
  type : string;
  html_columbia : string;
  local_path : string
}.

(** The inner [for word_group in ngrams_to_check] loop: the index of the
    first phrase that the text holds once, else the index given. *)
Fixpoint check_ngrams (columbia_words : string) (ngrams_to_check : list (list string))
    (match_index : Z) : Z :=
  match ngrams_to_check with
  | [] => match_index
  | word_group :: rest =>
      let phrase := join " " word_group in
      if count columbia_words phrase =? 1
      then find columbia_words phrase
      else check_ngrams columbia_words rest match_index
  end.

Section MatchText.

(** [get_xml] reads a file and cleans it with BeautifulSoup and [re]; it
    is taken as given, and so is the word list
    [re.findall(r"\b\w+\b", BeautifulSoup(html, "html.parser").text)]. *)
Variable get_xml : string -> outcome string.
Variable words_of : string -> list string.

Definition match_index_of (columbia_words : string) (op : opinion) : Z :=
  let match_index := Z.of_nat (String.length columbia_words) in
  let words := words_of (html_columbia op) in
  let ngrams_to_check := generate_ngrams words in
  check_ngrams columbia_words ngrams_to_check match_index.

Definition match_text (opinions : list opinion) (xml_dir : string)
  : outcome (list (Z * string * Z)) :=
  let? first := first_item opinions in
  let filepath :=
    replace (local_path first) "/home/mlissner/columbia/opinions" xml_dir in
  let? columbia_words := get_xml filepath in
  let matches :=
    (fun op => (id op, type op, match_index_of columbia_words op)) <$> opinions in
  Ok (sorted (fun x => x.2) matches).

End MatchText.

(** *** The n-grams as the specification words them *)

(** The windows of [n] adjacent words, from left to right. *)
Fixpoint windows {A} (n : nat) (l : list A) : list (list A) :=
  match l with
  | [] => []
  | _ :: l' => if (n <=? length l)%nat then take n l :: windows n l' else []
  end.

(** A phrase of the opinion occurs exactly once in the text. *)
Definition uniquely_located (columbia_words : string) (words : list string) : Prop :=
  exists word_group, word_group ∈ generate_ngrams words /\
    count columbia_words (join " " word_group) = 1.

(** *** A small cluster to order *)

Module Cluster.

Definition get_xml (filepath : string) : outcome string := Ok "the court held".

Definition words_of (html : string) : list string :=
  if String.eqb html "" then [] else [html].

Definition opinions : list opinion :=
  [ {| id := 1; type := "040dissent"; html_columbia := "zzz";
       local_path := "/home/mlissner/columbia/opinions/a.xml" |};
    {| id := 2; type := "020lead"; html_columbia := "court";
       local_path := "/home/mlissner/columbia/opinions/a.xml" |} ].

Definition xml_dir : string := "/opt/courtlistener/columbia/usb".

End Cluster.

End OpinionsOrder.

(** ** update_opinions_order.py: the reference text *)

Module Xml.

(** The classes [a-zA-Z0-9] and [\s] on the bytes of UTF-8 text.  A
    character outside ASCII, white space or not, is made of bytes that
    are in neither class: the first substitution of [get_xml] turns it
    into a space, where Python, for a character that is white space,
    leaves that to the second one. *)
Definition alnum (c : ascii) : bool :=
  let n := nat_of_ascii c in
  ((48 <=? n) && (n <=? 57) || (65 <=? n) && (n <=? 90)
   || (97 <=? n) && (n <=? 122))%nat.

Definition isspace (c : ascii) : bool :=
  let n := nat_of_ascii c in
  ((9 <=? n) && (n <=? 13) || (28 <=? n) && (n <=? 32))%nat.

(** [re.sub(r"[...]+", repl, s)] for a character class: every maximal
    run of characters of the class is replaced; [inside] tells that the
    character before was of the class. *)
Fixpoint sub_runs (class : ascii -> bool) (repl : string) (inside : bool)
    (s : string) : string :=
  match s with
  | EmptyString => EmptyString
  | String c s' =>
      if class c
      then if inside then sub_runs class repl true s'
           else repl +:+ sub_runs class repl true s'
      else String c (sub_runs class repl false s')
  end.

Definition re_sub (class : ascii -> bool) (repl s : string) : string :=
  sub_runs class repl false s.

(** The two substitutions of [get_xml]. *)
Definition clean (text : string) : string :=
  let clean_columbia_text :=
    re_sub (fun c => negb (alnum c || isspace c)) " " text in
  let clean_columbia_text := re_sub isspace " " clean_columbia_text in
  clean_columbia_text.

Section GetXml.

(** Reading the file and [BeautifulSoup(content, "html.parser").text]
    are taken as given. *)
Variable read : string -> outcome string.
Variable soup_text : string -> string.

Definition get_xml (filepath : string) : outcome string :=
  let? content := read filepath in
  let columbia_xml_text := soup_text content in
  Ok (clean columbia_xml_text).

End GetXml.

(** Text of letters, digits and single spaces. *)
Fixpoint spaced (after_space : bool) (s : string) : bool :=
  match s with
  | EmptyString => true
  | String c s' =>
      if Ascii.eqb c " " then negb after_space && spaced true s'
      else alnum c && spaced false s'
  end.

(** Text all of whose characters are of a class. *)
Fixpoint only (class : ascii -> bool) (s : string) : bool :=
  match s with
  | EmptyString => true
  | String c s' => class c && only class s'
  end.

(** The characters of the text that [get_xml] returns. *)
Definition kept (c : ascii) : bool := alnum c || Ascii.eqb c " ".

End Xml.

(** ** update_opinions_order.py: the two actions *)

Module OrderingKey.
Import OpinionsOrder.

(** The rows of [search_opinioncluster] and [search_opinion], with the
    columns the command reads and writes. *)
Record OpinionCluster := {
  pk : Z;
  filepath_json_harvard : string;
  source : string
}.

Record Opinion := {
  id : Z;
  cluster_id : Z;
  type : string;
  html_columbia : string;
  local_path : string;
  ordering_key : option Z
}.

(** The two tables, rows in the order in which a query without
    [order_by] returns them.  Primary keys are unique. *)
Record database := {
  search_opinioncluster : list OpinionCluster;
  search_opinion : list Opinion
}.

(** The options [skip_until] and [limit] are [None] when not given;
    [delay] is a float. *)
Record options := {
  skip_until : option Z;
  limit : option Z;
  delay : SpecFloat.spec_float;
  xml_dir : string
}.

(** [if x:] for an optional integer *)
Definition given (x : option Z) : bool :=
  match x with
  | Some z => negb (z =? 0)
  | None => false
  end.

(** [source__contains=...]: [LIKE] with the text between wildcards *)
Definition contains (s sub : string) : Prop := find s sub ≠ -1.

(** [opinion_obj.ordering_key = key; opinion_obj.save()] for the
    opinion with the primary key [op_id].  The database answers every
    query and every [save]: the exceptions of the two actions are those
    of slicing the query set, of reading a file and of [time.sleep]. *)
Definition save (db : database) (op_id key : Z) : database :=
  {| search_opinioncluster := search_opinioncluster db;
     search_opinion :=
       (fun op =>
          if decide (id op = op_id)
          then {| id := id op; cluster_id := cluster_id op; type := type op;
                  html_columbia := html_columbia op;
                  local_path := local_path op;
                  ordering_key := Some key |}
          else op) <$> search_opinion db |}.

(** [sorted(l, key=...)] for a key that is text: a stable sort by
    ascending key, text being compared character by character. *)
Fixpoint insert_by_str {A} (key : A -> string) (x : A) (l : list A) : list A :=
  match l with
  | [] => [x]
  | y :: l' =>
      if String.leb (key x) (key y) then x :: l else y :: insert_by_str key x l'
  end.

Fixpoint sorted_str {A} (key : A -> string) (l : list A) : list A :=
  match l with
  | [] => []
  | x :: l' => insert_by_str key x (sorted_str key l')
  end.

Section Actions.

(** [Opinion.COMBINED], [Opinion.LEAD] and [SOURCES.COLUMBIA_ARCHIVE]
    are defined in [cl.search.models]. *)
Variable COMBINED LEAD COLUMBIA_ARCHIVE : string.

(** [time.sleep], which returns after the delay or raises an exception
    for a delay that it refuses, a negative one for example. *)
Variable sleep : SpecFloat.spec_float -> outcome unit.

(** [cluster.sub_opinions.all()] *)
Definition sub_opinions (db : database) (cluster : Z) : list Opinion :=
  filter (fun op => cluster_id op = cluster) (search_opinion db).

(** *** sort_harvard_opinions *)

(** The query set [harvard_clusters]; a negative [limit] is refused when
    the query set is sliced. *)
Definition harvard_clusters (options : options) (db : database)
  : outcome (list OpinionCluster) :=
  let qs := filter (fun c => filepath_json_harvard c ≠ "")
              (search_opinioncluster db) in
  let qs := filter (fun c => 1 < len (sub_opinions db (pk c))) qs in
  let qs := filter (fun c => ~ contains (source c) COLUMBIA_ARCHIVE) qs in
  let qs := sorted pk qs in
  let qs := match skip_until options with
            | Some skip_until =>
                if given (Some skip_until)
                then filter (fun c => skip_until <= pk c) qs
                else qs
            | None => qs
            end in
  match limit options with
  | Some limit =>
      if given (Some limit)
      then if limit <? 0 then Raise ValueError
           else Ok (take (Z.to_nat limit) qs)
      else Ok qs
  | None => Ok qs
  end.

(** The loop over the opinions of one cluster. *)
Fixpoint order_sub_opinions (sub_opinions : list Opinion) (opinion_order : Z)
    (any_update : bool) (db : database) : bool * database :=
  match sub_opinions with
  | [] => (any_update, db)
  | cluster_op :: rest =>
      if decide (type cluster_op = COMBINED)
      then order_sub_opinions rest opinion_order any_update db
      else order_sub_opinions rest (opinion_order + 1) true
             (save db (id cluster_op) opinion_order)
  end.

(** The loop over the clusters.  The opinions of a cluster are saved in
    one transaction, inside which the command sleeps: an exception of
    [time.sleep] leaves the database as it was before the cluster. *)
Fixpoint order_harvard_clusters (options : options)
    (clusters : list OpinionCluster) (completed : Z) (db : database)
  : outcome Z * database :=
  match clusters with
  | [] => (Ok completed, db)
  | cluster :: rest =>
      let '(any_update, atomic) :=
        order_sub_opinions (sorted id (sub_opinions db (pk cluster))) 1 false db in
      if negb any_update then order_harvard_clusters options rest completed atomic
      else
        match sleep (delay options) with
        | Ok _ => order_harvard_clusters options rest (completed + 1) atomic
        | Raise e => (Raise e, db)
        | Timeout => (Timeout, db)
        end
  end.

(** [sort_harvard_opinions]: the number of clusters [completed], which
    the last line of the log gives, or the exception, and the
    database. *)
Definition sort_harvard_opinions (options : options) (db : database)
  : outcome Z * database :=
  match harvard_clusters options db with
  | Ok clusters => order_harvard_clusters options clusters 0 db
  | Raise e => (Raise e, db)
  | Timeout => (Timeout, db)
  end.

(** *** sort_columbia_opinions *)

Variable read : string -> outcome string.
Variable soup_text : string -> string.
Variable words_of : string -> list string.

(** The query set [clusters]: primary keys. *)
Definition columbia_clusters (options : options) (db : database) : list Z :=
  let qs := filter (fun c => contains (source c) COLUMBIA_ARCHIVE)
              (search_opinioncluster db) in
  let qs := pk <$> sorted pk qs in
  match skip_until options with
  | Some skip_until => filter (fun i => skip_until < i) qs
  | None => qs
  end.

(** [values_list("id", "type", "html_columbia", "local_path")] of the
    opinions of a cluster that have a [local_path] *)
Definition opinions_of (db : database) (cluster : Z) : list opinion :=
  (fun op => {| OpinionsOrder.id := id op; OpinionsOrder.type := type op;
                OpinionsOrder.html_columbia := html_columbia op;
                OpinionsOrder.local_path := local_path op |})
  <$> filter (fun op => cluster_id op = cluster /\ local_path op ≠ "")
        (search_opinion db).

(** The primary keys of [ordered_opinions], or [None] for a cluster
    that is skipped. *)
Definition ordered_opinions (xml_dir : string) (opinions : list opinion)
  : outcome (option (list Z)) :=
  let op_types := OpinionsOrder.type <$> opinions in
  if len opinions <? 2 then Ok None
  else if (len op_types =? 2) && bool_decide (LEAD ∈ op_types)
          && (len (remove_dups op_types) =? 2)
  then
    let opinions := (fun op => (OpinionsOrder.id op, OpinionsOrder.type op))
                    <$> opinions in
    let ordered_opinions := sorted_str snd opinions in
    Ok (Some (fst <$> ordered_opinions))
  else
    let? ordered_opinions :=
      match_text (Xml.get_xml read soup_text) words_of opinions xml_dir in
    Ok (Some ((fun op => op.1.1) <$> ordered_opinions)).

(** The loop that saves the keys. *)
Fixpoint save_order (ordered_opinions : list Z) (order_key : Z) (db : database)
  : database :=
  match ordered_opinions with
  | [] => db
  | op :: rest => save_order rest (order_key + 1) (save db op order_key)
  end.

(** The loop over the clusters; an exception of [match_text] or of
    [time.sleep] ends it, with what was saved before. *)
Fixpoint order_columbia_clusters (options : options) (xml_dir : string)
    (clusters : list Z) (completed : Z) (db : database)
  : outcome Z * database :=
  match clusters with
  | [] => (Ok completed, db)
  | cluster_id :: rest =>
      match ordered_opinions xml_dir (opinions_of db cluster_id) with
      | Ok None => order_columbia_clusters options xml_dir rest completed db
      | Ok (Some ordered) =>
          let db := save_order ordered 1 db in
          match sleep (delay options) with
          | Ok _ =>
              order_columbia_clusters options xml_dir rest (completed + 1) db
          | Raise e => (Raise e, db)
          | Timeout => (Timeout, db)
          end
      | Raise e => (Raise e, db)
      | Timeout => (Timeout, db)
      end
  end.

Definition sort_columbia_opinions (options : options) (db : database)
  : outcome Z * database :=
  let xml_dir := xml_dir options in
  order_columbia_clusters options xml_dir (columbia_clusters options db) 0 db.

(** The order of each of the clusters [done] that has one. *)
Definition orders (xml_dir : string) (done : list Z) (db : database)
    (cluster : Z) : option (list Z) :=
  if decide (cluster ∈ done)
  then match ordered_opinions xml_dir (opinions_of db cluster) with
       | Ok (Some ordered) => Some ordered
       | _ => None
       end
  else None.

(** *** The command *)

Inductive action := sort_harvard | sort_columbia.

(** [VALID_ACTIONS] *)
Definition VALID_ACTIONS : list (string * action) :=
  [("sort-harvard", sort_harvard); ("sort-columbia", sort_columbia)].

(** What [valid_actions] does with an argument: it returns an action
    or raises one of two exceptions. *)
Inductive argument :=
| Parsed (a : action)
| ArgumentTypeError (message : string)
| KeyError (key : string).

(** [s.lower()], on the letters of ASCII.  The names of the actions hold
    no letter that a character outside ASCII is turned into. *)
Definition lower_char (c : ascii) : ascii :=
  let n := nat_of_ascii c in
  if ((65 <=? n) && (n <=? 90))%nat then ascii_of_nat (n + 32) else c.

Fixpoint lower (s : string) : string :=
  match s with
  | EmptyString => EmptyString
  | String c s' => String (lower_char c) (lower s')
  end.

Fixpoint lookup_action (s : string) (actions : list (string * action))
  : option action :=
  match actions with
  | [] => None
  | (name, a) :: rest => if String.eqb s name then Some a else lookup_action s rest
  end.

Definition valid_actions (s : string) : argument :=
  if negb (bool_decide (lower s ∈ VALID_ACTIONS.*1))
  then ArgumentTypeError
         ("Unable to parse action. Valid actions are: "
          +:+ join ", " (VALID_ACTIONS.*1))
  else match lookup_action s VALID_ACTIONS with
       | Some a => Parsed a
       | None => KeyError s
       end.

(** [Command.handle]: [options["action"](options)] *)
Definition handle (a : action) (options : options) (db : database)
  : outcome Z * database :=
  match a with
  | sort_harvard => sort_harvard_opinions options db
  | sort_columbia => sort_columbia_opinions options db
  end.

End Actions.

(** *** The keys as a description has them *)

(** The rank of an opinion by id among the opinions of its cluster
    that are not of the type [COMBINED]. *)
Definition rank (COMBINED : string) (db : database) (op : Opinion) : Z :=
  1 + len (filter (fun op' => cluster_id op' = cluster_id op /\
                              type op' ≠ COMBINED /\ id op' < id op)
             (search_opinion db)).

Definition with_key (op : Opinion) (key : option Z) : Opinion :=
  {| id := id op; cluster_id := cluster_id op; type := type op;
     html_columbia := html_columbia op; local_path := local_path op;
     ordering_key := key |}.

(** The opinions with their rank as key, for those that are not of the
    type [COMBINED] and belong to one of the clusters [done]. *)
Definition ranked (COMBINED : string) (done : list Z) (db : database)
  : list Opinion :=
  (fun op =>
     if decide (type op ≠ COMBINED /\ cluster_id op ∈ done)
     then with_key op (Some (rank COMBINED db op))
     else op) <$> search_opinion db.

(** The place of an id in a list, counted from 0. *)
Fixpoint position (i : Z) (ids : list Z) : option Z :=
  match ids with
  | [] => None
  | j :: rest => if decide (i = j) then Some 0 else Z.succ <$> position i rest
  end.

(** The opinion with its place in the order of its cluster as key,
    counted from 1, when its cluster has an order and names it. *)
Definition placed (order : Z -> option (list Z)) (op : Opinion) : Opinion :=
  match order (cluster_id op) with
  | Some ordered =>
      match position (id op) ordered with
      | Some place => with_key op (Some (1 + place))
      | None => op
      end
  | None => op
  end.

(** *** A small database to order *)

Module Sample.

Definition COMBINED : string := "010combined".
Definition LEAD : string := "020lead".
Definition COLUMBIA_ARCHIVE : string := "Z".

Definition opinion (id cluster_id : Z) (type local_path : string) : Opinion :=
  {| id := id; cluster_id := cluster_id; type := type;
     html_columbia := type; local_path := local_path; ordering_key := None |}.

(** Cluster 1 is from Harvard, cluster 2 is merged with Columbia, its
    lead opinion being stored after its combined one. *)
Definition db : database :=
  {| search_opinioncluster :=
       [ {| pk := 2; filepath_json_harvard := ""; source := "ZU" |};
         {| pk := 1; filepath_json_harvard := "a.json"; source := "U" |} ];
     search_opinion :=
       [ opinion 7 1 "040dissent" "";
         opinion 5 1 "010combined" "";
         opinion 3 1 "020lead" "";
         opinion 8 2 "020lead" "b.xml";
         opinion 9 2 "010combined" "b.xml" ] |}.

(** [time.sleep] on the sign of the delay. *)
Definition sleep (secs : SpecFloat.spec_float) : outcome unit :=
  if SpecFloat.SFltb secs (SpecFloat.S754_zero false) then Raise ValueError
  else Ok tt.

(** The options with a delay of [-1]. *)
Definition hurried : options :=
  {| skip_until := None; limit := None;
     delay := SpecFloat.S754_finite true 1 0;
     xml_dir := "/tmp" |}.

(** The options with the delay of a tenth of a second that the command
    has by default. *)
Definition options : options :=
  {| skip_until := None; limit := None;
     delay := SpecFloat.S754_finite false 7205759403792794 (-56);
     xml_dir := "/tmp" |}.

(** The options with a [skip_until]. *)
Definition from_cluster (skip_until : Z) : OrderingKey.options :=
  {| skip_until := Some skip_until; limit := None;
     delay := SpecFloat.S754_finite false 7205759403792794 (-56);
     xml_dir := "/tmp" |}.

(** The same with one more cluster merged with Columbia, of two
    dissents. *)
Definition later : database :=
  {| search_opinioncluster :=
       search_opinioncluster db ++
       [ {| pk := 3; filepath_json_harvard := ""; source := "Z" |} ];
     search_opinion :=
       search_opinion db ++
       [ opinion 10 3 "040dissent" "c.xml";
         opinion 11 3 "040dissent" "c.xml" ] |}.

Definition read (filepath : string) : outcome string := Raise ValueError.
Definition soup_text (content : string) : string := content.
Definition words_of (html : string) : list string := [html].

End Sample.

End OrderingKey.

(** ** middleware.py *)

Module Middleware.

Record settings := {
  MAINTENANCE_MODE_ENABLED : bool;
  MAINTENANCE_MODE_ALLOW_STAFF : bool
}.

Record User := { is_staff : bool }.

(** A request; [user] is [None] when the request has no such attribute. *)
Record HttpRequest := {
  path : string;
  user : option User
}.

Record HttpResponse := {
  status_code : Z;
  content : string;
  headers : gmap string string
}.

Definition SERVICE_UNAVAILABLE : Z := 503.

Section Django.

(** [django.template.loader.render_to_string] and the date of the
    [Expires] header are the framework's. *)
Variable render_to_string : string -> list (string * bool) -> HttpRequest -> string.
Variable http_date_now : string.

(** [django.shortcuts.render] *)
Definition render (request : HttpRequest) (template_name : string)
    (context : list (string * bool)) (status : Z) : HttpResponse :=
  {| status_code := status;
     content := render_to_string template_name context request;
     headers := {[ "Content-Type" := "text/html; charset=utf-8" ]} |}.

(** [django.utils.cache.add_never_cache_headers] *)
Definition add_never_cache_headers (response : HttpResponse) : HttpResponse :=
  {| status_code := status_code response;
     content := content response;
     headers :=
       <["Cache-Control" := "max-age=0, no-cache, no-store, must-revalidate, private"]>
         (match headers response !! "Expires" with
          | Some _ => headers response
          | None => <["Expires" := http_date_now]> (headers response)
          end) |}.

Variable conf : settings.

Record MaintenanceModeMiddleware := {
  get_response : HttpRequest -> HttpResponse
}.

(** [__init__] *)
Definition init (get_response : HttpRequest -> HttpResponse)
  : outcome MaintenanceModeMiddleware :=
  if negb (MAINTENANCE_MODE_ENABLED conf) then Raise MiddlewareNotUsed
  else Ok {| get_response := get_response |}.

(** [__call__] *)
Definition call (self : MaintenanceModeMiddleware) (request : HttpRequest)
  : HttpResponse :=
  let response := get_response self request in
  let maintenance :=
    add_never_cache_headers
      (render request "maintenance.html" [("private", true)] SERVICE_UNAVAILABLE) in
  match user request with
  | Some u =>
      if MAINTENANCE_MODE_ALLOW_STAFF conf && is_staff u then response
      else maintenance
  | None => maintenance
  end.

End Django.

End Middleware.

(** * Properties *)

Import Db Manifest OpinionsOrder.

(** ** The primitives at work *)

Example str_of_integers :
  str 42 = "42" /\ str 0 = "0" /\ str (-7) = "-7".
Proof. done. Qed.

Example int_of_strings :
  int_of_str "42" = Ok 42 /\ int_of_str "-7" = Ok (-7) /\
  int_of_str "" = Raise ValueError /\ int_of_str "4x" = Raise ValueError /\
  int_or_0 None = Ok 0 /\ int_or_0 (Some "") = Ok 0.
Proof. done. Qed.

Example truth_values :
  truthy PyNone = false /\ truthy (PyStr "") = false /\
  truthy (PyStr "0") = true /\ truthy (PyInt 0) = false /\
  truthy (PyInt 7) = true.
Proof. done. Qed.

Example batched_by_three :
  batched [1; 2; 3; 4; 5; 6; 7] 3 = Ok [[1; 2; 3]; [4; 5; 6]; [7]] /\
  batched [1; 2; 3] 0 = Raise ValueError /\
  batched (@nil Z) 3 = Ok [].
Proof. done. Qed.

Example sorted_is_stable :
  Py.sorted fst [(3, "a"); (1, "b"); (3, "c"); (1, "d"); (2, "e")]
  = [(1, "b"); (1, "d"); (2, "e"); (3, "a"); (3, "c")].
Proof. done. Qed.

Example find_and_count :
  find "a b c b c" "b c" = 2 /\ find "abc" "x" = -1 /\
  count "a b c b c" "b c" = 2 /\ count "a a a" "a a" = 1 /\
  count "abc" "" = 4.
Proof. done. Qed.

Example replace_each :
  replace "/x/y/z/x/y" "/x" "Q" = "Q/y/zQ/y".
Proof. done. Qed.

Example csv_fields :
  Csv.field "bucket" = "bucket" /\
  Csv.field "a,b" = String Csv.quotechar ("a,b" +:+ String Csv.quotechar "") /\
  Csv.writerow ["b"; "1_2"] = "b,1_2" +:+ Csv.lineterminator.
Proof. done. Qed.

Example queries :
  get_custom_query OPINION PyNone
  = ({| from_type := OPINION; id_greater := false |}, []) /\
  get_custom_query OPINION (PyStr "3")
  = ({| from_type := OPINION; id_greater := true |}, [PyStr "3"]) /\
  execute Sample.opinions {| from_type := OPINION; id_greater := true |}
    [PyStr "3"; PyInt 3] = Ok [5; 9] /\
  execute Sample.opinions {| from_type := OPINION; id_greater := false |}
    [PyInt 3] = Ok [1; 2; 3].
Proof. split_and!; vm_compute; reflexivity. Qed.

(** ** Batches *)

Section Chunks.
Context {A : Type}.
Implicit Types l : list A.

Lemma chunks_nil fuel n : chunks fuel n (@nil A) = [].
Proof. by destruct fuel. Qed.

Lemma chunks_cons fuel n l :
  l ≠ [] -> chunks (S fuel) n l = take n l :: chunks fuel n (drop n l).
Proof. by destruct l. Qed.

Lemma chunks_concat fuel n l :
  (1 <= n)%nat -> (length l <= fuel)%nat -> concat (chunks fuel n l) = l.
Proof.
  revert l. induction fuel as [|fuel IH]; intros l Hn Hl.
  - destruct l; [done | simpl in Hl; lia].
  - destruct l as [|x l]; [done|].
    rewrite chunks_cons by done. simpl concat.
    rewrite IH; [apply take_drop | done |].
    rewrite length_drop. simpl in *. lia.
Qed.

Lemma chunks_length fuel n l :
  (1 <= n)%nat -> (length l <= fuel)%nat ->
  length (chunks fuel n l) = ((length l + n - 1) / n)%nat.
Proof.
  revert l. induction fuel as [|fuel IH]; intros l Hn Hl.
  - destruct l; [|simpl in Hl; lia]. simpl.
    symmetry. apply Nat.div_small. lia.
  - destruct l as [|x l].
    + simpl. symmetry. apply Nat.div_small. lia.
    + rewrite chunks_cons by done. simpl length at 1.
      rewrite IH; [| done | rewrite length_drop; simpl in *; lia].
      rewrite length_drop.
      destruct (decide (length (x :: l) <= n)%nat) as [Hle|Hgt].
      * replace (length (x :: l) - n)%nat with 0%nat by lia.
        rewrite (Nat.div_small (0 + n - 1)) by lia.
        apply (Nat.div_unique _ _ 1%nat (length (x :: l) - 1)%nat);
          simpl in *; lia.
      * replace (length (x :: l) + n - 1)%nat
          with ((length (x :: l) - n + n - 1) + 1 * n)%nat by lia.
        rewrite Nat.div_add by lia. lia.
Qed.

Lemma chunks_sizes fuel n l :
  (1 <= n)%nat -> Forall (fun g => (1 <= length g <= n)%nat) (chunks fuel n l).
Proof.
  intros Hn. revert l. induction fuel as [|fuel IH]; intros l; [done|].
  destruct l as [|x l]; [done|].
  rewrite chunks_cons by done. constructor; [|apply IH].
  rewrite length_take. simpl length. lia.
Qed.

Lemma chunks_full fuel n l i g :
  chunks fuel n l !! i = Some g ->
  (S i < length (chunks fuel n l))%nat -> length g = n.
Proof.
  revert l i. induction fuel as [|fuel IH]; intros l i; [done|].
  destruct l as [|x l]; [done|].
  rewrite chunks_cons by done.
  destruct i as [|i]; simpl lookup; simpl length.
  - intros [= <-] Hlen.
    destruct (decide (n <= length (x :: l))%nat) as [Hle|Hgt].
    + by apply length_take_le.
    + rewrite drop_ge, chunks_nil in Hlen by lia. simpl in Hlen. lia.
  - intros Hg Hlen. apply (IH (drop n (x :: l)) i); [done | lia].
Qed.

End Chunks.

Lemma batched_ok {A} (l : list A) (n : Z) :
  1 <= n -> batched l n = Ok (chunks (length l) (Z.to_nat n) l).
Proof. intros Hn. unfold batched. case_match; [lia | done]. Qed.

(** C3: for a batch of N >= 1 identifiers and a sub-batch size M with
    1 <= M <= N, [batched] returns ceil(N/M) groups, every group but the
    last has M elements, the last has between 1 and M, and the groups
    concatenate to the batch in order. *)
Theorem batched_partition (batch : list Z) (N M : Z) :
  len batch = N -> 1 <= N -> 1 <= M <= N ->
  exists groups,
    batched batch M = Ok groups /\
    len groups = (N + M - 1) / M /\
    (forall i g, groups !! i = Some g -> (S i < length groups)%nat -> len g = M) /\
    (forall g, last groups = Some g -> 1 <= len g <= M) /\
    concat groups = batch.
Proof.
  intros HN H1 HM. eexists. split; [by apply batched_ok; lia|].
  assert (Hn : (1 <= Z.to_nat M)%nat) by lia.
  split; [|split; [|split]].
  - unfold len. rewrite chunks_length by done.
    rewrite <- HN. unfold len.
    rewrite Nat2Z.inj_div, Nat2Z.inj_sub, Nat2Z.inj_add by lia.
    rewrite Z2Nat.id by lia. done.
  - intros i g Hg Hi. unfold len. erewrite chunks_full by done. lia.
  - intros g Hlast.
    pose proof (chunks_sizes (length batch) _ batch Hn) as Hall.
    rewrite Forall_forall in Hall.
    apply last_Some_elem_of, Hall in Hlast. unfold len. lia.
  - by apply chunks_concat.
Qed.

Lemma batched_partition_witness :
  exists groups,
    batched [1; 2; 3; 4; 5; 6; 7] 3 = Ok groups /\
    len groups = (7 + 3 - 1) / 3 /\
    (forall i g, groups !! i = Some g -> (S i < length groups)%nat -> len g = 3) /\
    (forall g, last groups = Some g -> 1 <= len g <= 3) /\
    concat groups = [1; 2; 3; 4; 5; 6; 7].
Proof. apply (batched_partition [1; 2; 3; 4; 5; 6; 7] 7 3); [reflexivity | lia | lia]. Defined.

(** ** Decimal strings *)

Lemma to_int_proper (z : Z) :
  Z.to_int z ≠ Decimal.Pos Decimal.Nil /\ Z.to_int z ≠ Decimal.Neg Decimal.Nil.
Proof.
  destruct z as [|p|p]; simpl; split; try discriminate;
    intros [= H]; by apply Unsigned.to_uint_nonnil in H.
Qed.

Lemma int_of_str_str (z : Z) : int_of_str (str z) = Ok z.
Proof.
  unfold int_of_str, str. destruct (to_int_proper z) as [Hp Hn].
  rewrite NilZero.isi by done. by rewrite DecimalZ.of_to.
Qed.

Lemma str_inj (a b : Z) : str a = str b -> a = b.
Proof.
  intros H. pose proof (int_of_str_str a) as Ha.
  rewrite H, int_of_str_str in Ha. congruence.
Qed.

Lemma int_of_str_nonempty (s : string) (z : Z) :
  int_of_str s = Ok z -> String.eqb s "" = false.
Proof. by destruct s. Qed.

Lemma int_or_0_str (z : Z) : int_or_0 (Some (str z)) = Ok z.
Proof.
  unfold int_or_0.
  rewrite (int_of_str_nonempty _ z) by apply int_of_str_str.
  apply int_of_str_str.
Qed.

Lemma digits_plain (d : Decimal.uint) :
  Csv.needs_quotes (NilEmpty.string_of_uint d) = false.
Proof. induction d; simpl; try done. Qed.

Lemma str_plain (z : Z) : Csv.needs_quotes (str z) = false.
Proof.
  unfold str. destruct (Z.to_int z) as [d|d]; simpl.
  - destruct d; try apply digits_plain. done.
  - destruct d; try apply (digits_plain (_ d)); done.
Qed.

Lemma needs_quotes_app (s t : string) :
  Csv.needs_quotes (s +:+ t) = Csv.needs_quotes s || Csv.needs_quotes t.
Proof. induction s as [|c s IH]; simpl; [done|]. by rewrite IH, orb_assoc. Qed.

Lemma field_plain (s : string) : Csv.needs_quotes s = false -> Csv.field s = s.
Proof. intros H. unfold Csv.field. by rewrite H. Qed.

(** ** Ascending lists *)

Lemma strictly_ascending (l : list Z) :
  StronglySorted Z.le l -> NoDup l -> StronglySorted Z.lt l.
Proof.
  induction 1 as [|x l Hl IH Hx]; intros Hnd; [constructor|].
  apply NoDup_cons in Hnd as [Hnotin Hnd].
  constructor; [by apply IH|].
  rewrite Forall_forall in Hx |- *. intros y Hy.
  specialize (Hx y Hy). assert (x ≠ y) by (intros ->; done). lia.
Qed.

Lemma ascending_take (n : nat) (l : list Z) :
  StronglySorted Z.lt l -> StronglySorted Z.lt (take n l).
Proof.
  intros H. rewrite <- (take_drop n l) in H. by apply StronglySorted_app_1_l in H.
Qed.

Lemma ascending_drop (n : nat) (l : list Z) :
  StronglySorted Z.lt l -> StronglySorted Z.lt (drop n l).
Proof.
  intros H. rewrite <- (take_drop n l) in H. by apply StronglySorted_app_1_r in H.
Qed.

Lemma ascending_minimum (x : Z) (l : list Z) :
  StronglySorted Z.lt (x :: l) -> minimum (x :: l) = Some x.
Proof.
  revert x. induction l as [|y l IH]; intros x H; [done|].
  apply StronglySorted_inv in H as [Hl Hx].
  change (minimum (x :: y :: l))
    with (Some (from_option (Z.min x) x (minimum (y :: l)))).
  rewrite (IH y Hl). simpl. f_equal.
  apply Forall_cons in Hx as [Hxy _]. lia.
Qed.

Lemma ascending_maximum (x : Z) (l : list Z) :
  StronglySorted Z.lt (x :: l) -> maximum (x :: l) = last (x :: l).
Proof.
  revert x. induction l as [|y l IH]; intros x H; [done|].
  apply StronglySorted_inv in H as [Hl Hx].
  change (maximum (x :: y :: l))
    with (Some (from_option (Z.max x) x (maximum (y :: l)))).
  rewrite (IH y Hl), last_cons_cons.
  destruct (last (y :: l)) as [m|] eqn:Hm; [|by apply last_None in Hm].
  simpl. f_equal.
  apply last_Some_elem_of in Hm. rewrite Forall_forall in Hx.
  specialize (Hx m Hm). lia.
Qed.

Lemma ascending_chunks (fuel n : nat) (l g : list Z) :
  StronglySorted Z.lt l -> g ∈ chunks fuel n l -> StronglySorted Z.lt g.
Proof.
  revert l. induction fuel as [|fuel IH]; intros l Hl Hg.
  - by apply elem_of_nil in Hg.
  - destruct l as [|x l]; [by apply elem_of_nil in Hg|].
    rewrite chunks_cons in Hg by done.
    apply elem_of_cons in Hg as [->|Hg]; [by apply ascending_take|].
    apply (IH (drop n (x :: l))); [by apply ascending_drop | done].
Qed.

(** ** The id query *)

Lemma ordered_ascending (ids : list Z) :
  NoDup ids -> StronglySorted Z.lt (Db.ordered ids).
Proof.
  intros Hnd. apply strictly_ascending.
  - apply (StronglySorted_merge_sort Z.le); apply _.
  - unfold Db.ordered. by rewrite merge_sort_Permutation.
Qed.

Lemma execute_ascending c q params rows :
  Db.execute c q params = Ok rows -> StronglySorted Z.lt rows.
Proof.
  unfold Db.execute, and_then. intros H.
  repeat case_match; simplify_eq; try constructor;
    apply ascending_take, ordered_ascending;
    try apply NoDup_filter; apply NoDup_elements.
Qed.

Lemma execute_among c q params rows :
  Db.execute c q params = Ok rows ->
  Forall (fun i => i ∈ Db.matching c (Db.from_type q)) rows.
Proof.
  unfold Db.execute, and_then. intros H.
  assert (Hall : forall n ids,
    Forall (fun i => i ∈ Db.matching c (Db.from_type q)) ids ->
    Forall (fun i => i ∈ Db.matching c (Db.from_type q)) (take n (Db.ordered ids))).
  { intros n ids Hids. apply Forall_take. unfold Db.ordered.
    by rewrite merge_sort_Permutation. }
  assert (Hel : Forall (fun i => i ∈ Db.matching c (Db.from_type q))
                  (elements (Db.matching c (Db.from_type q)))).
  { apply Forall_forall. intros i Hi. by apply elem_of_elements in Hi. }
  repeat case_match; simplify_eq; try (by constructor); apply Hall; [|done].
  apply Forall_forall. intros i Hi.
  apply list_elem_of_filter in Hi as [_ Hi]. by apply elem_of_elements in Hi.
Qed.


(** ** Manifest rows *)

Lemma chunks_not_nil {A} (fuel n : nat) (l g : list A) :
  (1 <= n)%nat -> g ∈ chunks fuel n l -> g ≠ [].
Proof.
  intros Hn Hg Hnil.
  pose proof (chunks_sizes fuel n l Hn) as Hall.
  rewrite Forall_forall in Hall. apply Hall in Hg. subst g. simpl in Hg. lia.
Qed.

Lemma file_name_ascending (group : list Z) :
  group ≠ [] -> StronglySorted Z.lt group ->
  exists lo hi,
    minimum group = Some lo /\ maximum group = Some hi /\
    file_name group =
      Ok (if len group =? 1 then str lo else str lo +:+ "_" +:+ str hi).
Proof.
  destruct group as [|x l]; [done|]. intros _ Hs.
  destruct (last (x :: l)) as [m|] eqn:Hm; [|by apply last_None in Hm].
  exists x, m. split; [by apply ascending_minimum|].
  split; [by rewrite ascending_maximum|].
  unfold file_name, last_item. rewrite Hm. simpl first_item.
  unfold len. destruct l; simpl length; [done|].
  simpl and_then.
  destruct (Z.ltb_spec 1 (Z.of_nat (S (S (length l))))); [|lia].
  destruct (Z.eqb_spec (Z.of_nat (S (S (length l)))) 1); [lia|]. done.
Qed.

Lemma file_name_matches_spec (group : list Z) :
  group ≠ [] -> StronglySorted Z.lt group ->
  exists name, file_name group = Ok name /\ file_name_spec group = Some name.
Proof.
  intros Hne Hs.
  destruct (file_name_ascending group Hne Hs) as (lo & hi & Hlo & Hhi & Hname).
  unfold file_name_spec. rewrite Hlo, Hhi, Hname. eexists. split; [done|].
  unfold len. destruct group as [|a [|b l]]; [done..|].
  destruct (Z.eqb_spec (Z.of_nat (length (a :: b :: l))) 1); [|done].
  simpl length in *. lia.
Qed.

(** C2: every group of a page of rows gets as [file_name] its least
    identifier when it has one element, and its least identifier, an
    underscore and its greatest identifier when it has more; the group
    [42] gets [42] and the group [42,43,44,45,46], the one batch of its
    page for the sub-batch size 5, gets [42_46]. *)
Theorem file_name_of_group c q params rows size groups group :
  execute c q params = Ok rows ->
  batched rows size = Ok groups ->
  group ∈ groups ->
  (exists lo hi,
     minimum group = Some lo /\ maximum group = Some hi /\
     (len group = 1 -> file_name group = Ok (str lo)) /\
     (1 < len group -> file_name group = Ok (str lo +:+ "_" +:+ str hi))) /\
  file_name [42] = Ok "42" /\
  batched [42; 43; 44; 45; 46] 5 = Ok [[42; 43; 44; 45; 46]] /\
  file_name [42; 43; 44; 45; 46] = Ok "42_46".
Proof.
  intros Hrows Hgroups Hgroup. split; [|done].
  unfold batched in Hgroups. case_match; [done|]. simplify_eq.
  assert (Hne : group ≠ []) by (eapply chunks_not_nil; [|done]; lia).
  assert (Hs : StronglySorted Z.lt group).
  { eapply ascending_chunks; [|done]. by eapply execute_ascending. }
  destruct (file_name_ascending group Hne Hs) as (lo & hi & Hlo & Hhi & Hname).
  exists lo, hi. repeat split; try done; intros Hlen; rewrite Hname.
  - by rewrite Hlen.
  - destruct (Z.eqb_spec (len group) 1); [lia | done].
Qed.

Lemma file_name_of_group_witness :
  (exists lo hi,
     minimum [3; 5] = Some lo /\ maximum [3; 5] = Some hi /\
     (len [3; 5] = 1 -> file_name [3; 5] = Ok (str lo)) /\
     (1 < len [3; 5] -> file_name [3; 5] = Ok (str lo +:+ "_" +:+ str hi))) /\
  file_name [42] = Ok "42" /\
  batched [42; 43; 44; 45; 46] 5 = Ok [[42; 43; 44; 45; 46]] /\
  file_name [42; 43; 44; 45; 46] = Ok "42_46".
Proof.
  apply (file_name_of_group
           {| matching := fun _ => {[ 5; 1; 3; 2; 9 ]} |}
           {| from_type := OPINION; id_greater := true |}
           [PyStr "2"; PyInt 3] [3; 5; 9] 2 [[3; 5]; [9]] [3; 5]).
  - vm_compute. reflexivity.
  - vm_compute. reflexivity.
  - apply list_elem_of_here.
Defined.

(** ** The identifiers a manifest spells out *)

Lemma ascending_last (l : list Z) (m : Z) :
  StronglySorted Z.lt l -> last l = Some m -> Forall (fun x => x <= m) l.
Proof.
  intros Hs Hm. pose proof (last_Some_elem_of _ _ Hm) as Hin.
  induction Hs as [|x l Hl IH Hx]; [constructor|].
  constructor.
  - apply elem_of_cons in Hin as [->|Hin]; [lia|].
    rewrite Forall_forall in Hx. specialize (Hx m Hin). lia.
  - destruct l as [|y l]; [constructor|].
    rewrite last_cons_cons in Hm. apply IH; [done|].
    by apply last_Some_elem_of.
Qed.







(** ** The Redis hash *)

Lemma hget_hset (r : gmap string (gmap string string)) (name key value : string) :
  Redis.hget (Redis.hset r name key value) name key = Some value.
Proof.
  unfold Redis.hget, Redis.hset. rewrite lookup_insert_eq. simpl.
  apply lookup_insert_eq.
Qed.

Lemma hget_hset_ne (r : gmap string (gmap string string))
    (name key key' value : string) :
  key ≠ key' ->
  Redis.hget (Redis.hset r name key value) name key' = Redis.hget r name key'.
Proof.
  intros Hne. unfold Redis.hget, Redis.hset. rewrite lookup_insert_eq. simpl.
  rewrite lookup_insert_ne by done. by destruct (r !! name).
Qed.

Lemma hget_hset_other (r : gmap string (gmap string string))
    (name name' key key' value : string) :
  name ≠ name' ->
  Redis.hget (Redis.hset r name key value) name' key' = Redis.hget r name' key'.
Proof.
  intros Hne. unfold Redis.hget, Redis.hset. by rewrite lookup_insert_ne.
Qed.

(** ** The text of a manifest *)

Lemma string_app_assoc (s t u : string) : (s +:+ t) +:+ u = s +:+ (t +:+ u).
Proof.
  induction s as [|c s IH]; [done|].
  change (String c ((s +:+ t) +:+ u) = String c (s +:+ (t +:+ u))).
  by rewrite IH.
Qed.

Lemma file_name_plain (group : list Z) (name : string) :
  file_name_spec group = Some name -> Csv.needs_quotes name = false.
Proof.
  unfold file_name_spec. intros H. repeat case_match; simplify_eq;
    rewrite ?needs_quotes_app, ?str_plain; done.
Qed.

Lemma writerow_manifest_row (bucket : string) (group : list Z) (name : string) :
  file_name_spec group = Some name ->
  manifest_row bucket group = Some (Csv.writerow [bucket; name]).
Proof.
  intros Hname. unfold manifest_row. rewrite Hname. simpl. f_equal.
  unfold Csv.writerow. simpl.
  rewrite (field_plain name) by (by eapply file_name_plain).
  by rewrite !string_app_assoc.
Qed.

Lemma for_each_rows (bucket : string) (groups : list (list Z)) :
  Forall (fun g => g ≠ [] /\ StronglySorted Z.lt g) groups ->
  exists lines,
    for_each (fun row => let? name := file_name row in
                         Ok (Csv.writerow [bucket; name])) groups = Ok lines /\
    Forall2 (fun group line => manifest_row bucket group = Some line) groups lines.
Proof.
  induction 1 as [|g groups [Hne Hs] _ (lines & Hlines & Hall)].
  - by exists [].
  - destruct (file_name_matches_spec g Hne Hs) as (name & Hname & Hspec).
    exists (Csv.writerow [bucket; name] :: lines). simpl.
    rewrite Hname. simpl. rewrite Hlines. simpl. split; [done|].
    constructor; [by apply writerow_manifest_row | done].
Qed.

(** The text of a manifest is one row per group and nothing else. *)
Lemma manifest_rows (bucket : string) (rows : list Z) (size : Z) (csvfile : string) :
  StronglySorted Z.lt rows ->
  manifest bucket rows size = Ok csvfile ->
  exists groups lines,
    batched rows size = Ok groups /\
    Forall2 (fun group line => manifest_row bucket group = Some line) groups lines /\
    csvfile = String.concat "" lines.
Proof.
  intros Hs. unfold manifest.
  destruct (batched rows size) as [groups| |] eqn:Hgroups; [|done..].
  simpl. intros Hcsv. exists groups.
  assert (Hall : Forall (fun g => g ≠ [] /\ StronglySorted Z.lt g) groups).
  { unfold batched in Hgroups. case_match; [done|]. simplify_eq.
    apply Forall_forall. intros g Hg. split.
    - eapply chunks_not_nil; [|done]. lia.
    - by eapply ascending_chunks. }
  destruct (for_each_rows bucket groups Hall) as (lines & Hlines & Hrows).
  rewrite Hlines in Hcsv. simpl in Hcsv. simplify_eq. by exists lines.
Qed.

(** ** The loop of the export command *)

Section Driver.

Variable SEARCH_TYPES : search_type -> string.
Variable conns : connections.
Variable opts : options.

Abbreviation name := (import_status SEARCH_TYPES (record_type opts)).
Abbreviation table :=
  (matching (connection_of conns (use_replica opts)) (record_type opts)).

Lemma rows_not_nil (rows : list Z) : (len rows =? 0) = false -> rows ≠ [].
Proof. by intros H ->. Qed.

Lemma rows_nil (rows : list Z) : (len rows =? 0) = true -> rows = [].
Proof. intros H%Z.eqb_eq. destruct rows; [done|]. unfold len in H. simpl in H. lia. Qed.

(** The loop body behaves as one of the cases of [pass]. *)
Lemma iteration_pass total last_pk counter r o r' evs :
  iteration SEARCH_TYPES conns opts total last_pk counter r = (o, r', evs) ->
  pass SEARCH_TYPES conns opts total last_pk counter r o r' evs.
Proof.
  unfold iteration, get_custom_query.
  unfold bind at 1. unfold cursor_execute.
  change (execute _ _ _) with (fetch conns opts last_pk).
  change ({| from_type := _; id_greater := _ |}) with (query_of opts last_pk).
  change ((if truthy last_pk then _ else _) ++ _) with (params_of opts last_pk).
  destruct (fetch conns opts last_pk) as [rows|e|] eqn:Hfetch.
  - destruct (len rows =? 0) eqn:Hlen.
    + apply rows_nil in Hlen as ->. intros [= <- <- <-]. by apply pass_break.
    + apply rows_not_nil in Hlen.
      unfold bind, pure, put_object, hget, hset, ret.
      destruct (manifest _ rows _) as [csvfile|e|] eqn:Hcsv.
      * unfold last_item.
        destruct (last rows) as [pk|] eqn:Hlast; [|by apply last_None in Hlast].
        destruct (int_or_0 _) as [processed|e|] eqn:Hproc.
        -- destruct (progress _ total) as [[]|e|] eqn:Hprog;
             intros [= <- <- <-];
             eapply pass_commit; eauto; by rewrite Hprog.
        -- intros [= <- <- <-]. by eapply pass_processed_raises.
        -- unfold int_or_0, int_of_str in Hproc. repeat case_match; done.
      * intros [= <- <- <-]. by eapply pass_manifest_raises.
      * unfold manifest, batched in Hcsv.
        case_match; [done|]. simpl in Hcsv.
        exfalso. clear Hfetch Hlen. revert Hcsv.
        generalize (chunks (length rows) (Z.to_nat (lambda_record_size opts)) rows).
        intros groups Hcsv.
        assert (Hno : forall (g : list Z), file_name g ≠ Timeout).
        { intros g. unfold file_name, first_item, last_item.
          repeat case_match; simpl; done. }
        assert (Hfe : for_each (fun row =>
                   let? name := file_name row in
                   Ok (Csv.writerow [bucket_name opts; name])) groups ≠ Timeout).
        { clear Hcsv. induction groups as [|g groups IH]; [done|]. simpl.
          specialize (Hno g). destruct (file_name g); simpl; try done.
          destruct (for_each _ groups); simpl; done. }
        destruct (for_each _ groups); simpl in Hcsv; done.
  - intros [= <- <- <-]. by apply pass_query_raises.
  - unfold fetch, execute, and_then in Hfetch.
    unfold limit, bound, int_of_str in Hfetch.
    repeat case_match; done.
Qed.

Lemma loop_passes fuel total last_pk counter r o r' evs :
  loop SEARCH_TYPES conns fuel opts total last_pk counter r = (o, r', evs) ->
  passes SEARCH_TYPES conns opts total fuel last_pk counter r o r' evs.
Proof.
  revert last_pk counter r o r' evs.
  induction fuel as [|fuel IH]; intros last_pk counter r o r' evs.
  - intros [= <- <- <-]. apply passes_cut.
  - simpl. unfold bind at 1.
    destruct (iteration _ _ _ _ _ _ r) as [[o1 r1] evs1] eqn:Hit.
    apply iteration_pass in Hit.
    destruct o1 as [[|last_pk' counter']|e|].
    + intros [= <- <- <-]. rewrite app_nil_r. by apply passes_break.
    + destruct (loop _ _ fuel _ _ _ _ r1) as [[o2 r2] evs2] eqn:Hloop.
      intros [= <- <- <-]. eapply passes_continue; [done|]. by apply IH.
    + intros [= <- <- <-]. by apply passes_raise.
    + inversion Hit; subst.
      match goal with H : Timeout = and_then _ _ |- _ =>
        unfold progress in H; repeat case_match; done end.
Qed.

Lemma rows_len (rows : list Z) : rows ≠ [] -> (len rows =? 0) = false.
Proof.
  intros Hne. destruct (Z.eqb_spec (len rows) 0) as [H|]; [|done].
  destruct rows; [done|]. unfold len in H. simpl in H. lia.
Qed.

(** Conversely, each case of [pass] is what the loop body computes. *)
Lemma pass_iteration total last_pk counter r o r' evs :
  pass SEARCH_TYPES conns opts total last_pk counter r o r' evs ->
  iteration SEARCH_TYPES conns opts total last_pk counter r = (o, r', evs).
Proof.
  intros H. unfold iteration, get_custom_query.
  unfold bind at 1. unfold cursor_execute.
  change (execute _ _ _) with (fetch conns opts last_pk).
  change ({| from_type := _; id_greater := _ |}) with (query_of opts last_pk).
  change ((if truthy last_pk then _ else _) ++ _) with (params_of opts last_pk).
  destruct H as [e Hfetch | Hfetch | rows e Hfetch Hne Hcsv
                 | rows csvfile e Hfetch Hne Hcsv Hproc
                 | rows csvfile pk processed o Hfetch Hne Hcsv Hpk Hproc Ho];
    rewrite Hfetch; try done;
    rewrite (rows_len rows Hne);
    unfold bind, pure, put_object, hget, hset, ret; rewrite Hcsv; try done;
    unfold last_item.
  - destruct (last rows) eqn:Hlast; [|by apply last_None in Hlast].
    by rewrite Hproc.
  - rewrite Hpk, Hproc, Ho. unfold and_then.
    by destruct (progress _ _) as [[]| |].
Qed.

Lemma passes_loop fuel total last_pk counter r o r' evs :
  passes SEARCH_TYPES conns opts total fuel last_pk counter r o r' evs ->
  loop SEARCH_TYPES conns fuel opts total last_pk counter r = (o, r', evs).
Proof.
  induction 1 as [| ? ? ? ? ? ? Hpass | ? ? ? ? ? ? ? Hpass
                  | ? ? ? ? ? ? ? ? ? ? ? Hpass Hrest IH]; [done|..];
    simpl; unfold bind at 1; rewrite (pass_iteration _ _ _ _ _ _ _ Hpass).
  - unfold ret. by rewrite app_nil_r.
  - done.
  - by rewrite IH.
Qed.

(** [handle] behaves as one of the cases of [run]. *)
Lemma handle_run fuel r o r' evs :
  handle SEARCH_TYPES conns fuel opts r = (o, r', evs) ->
  run SEARCH_TYPES conns fuel opts r o r' evs.
Proof.
  unfold handle. unfold bind at 1. unfold hget at 1.
  unfold bind at 1. unfold hget at 1.
  unfold bind at 1. unfold pure at 1.
  destruct (int_or_0 (Redis.hget r name "total_records")) as [cached|e|] eqn:Hc.
  - assert (Hpre : exists total r1 evs0,
        prelude SEARCH_TYPES conns opts r total r1 evs0 /\
        (if cached =? 0
         then let* n := get_total_number_of_records conns (record_type opts)
                          (use_replica opts) in
              let* _ := hset name [("total_records", str n)] in
              ret n
         else ret cached) r = (Ok total, r1, evs0)).
    { destruct (Z.eqb_spec cached 0) as [->|Hne].
      - do 3 eexists. split; [by apply prelude_counts|]. done.
      - do 3 eexists. split; [by apply prelude_cached|]. done. }
    destruct Hpre as (total & r1 & evs0 & Hpre & Heq).
    unfold bind at 1. rewrite Heq.
    unfold bind at 1. unfold hget at 1.
    unfold bind at 1. unfold pure at 1.
    destruct (int_or_0 (Redis.hget r1 name "next_iteration_counter"))
      as [counter|e|] eqn:Hn.
    + unfold bind at 1.
      destruct (loop _ _ fuel _ _ _ _ r1) as [[o2 r2] evs2] eqn:Hloop.
      apply loop_passes in Hloop.
      destruct o2 as [[]|e|].
      * unfold delete. intros [= <- <- <-]. simpl.
        by eapply run_finished.
      * intros [= <- <- <-]. simpl. rewrite ?app_nil_r.
        by eapply run_stopped.
      * intros [= <- <- <-]. simpl. rewrite ?app_nil_r.
        by eapply run_stopped.
    + intros [= <- <- <-]. simpl. rewrite ?app_nil_r.
      by eapply run_counter_raises.
    + unfold int_or_0, int_of_str in Hn. repeat case_match; done.
  - intros [= <- <- <-]. by apply run_total_raises.
  - unfold int_or_0, int_of_str in Hc. repeat case_match; done.
Qed.

(** *** How a pass can end *)

Lemma pass_break_inv total last_pk counter r r' evs :
  pass SEARCH_TYPES conns opts total last_pk counter r (Ok Break) r' evs ->
  fetch conns opts last_pk = Ok [] /\ r' = r /\
  evs = [IdQuery (use_replica opts) (query_of opts last_pk)
           (params_of opts last_pk) []].
Proof.
  inversion 1; subst; [done|].
  match goal with H : Ok Break = and_then _ _ |- _ =>
    unfold and_then in H; case_match; done end.
Qed.

Lemma pass_continue_inv total last_pk counter r last_pk' counter' r' evs :
  pass SEARCH_TYPES conns opts total last_pk counter r
    (Ok (Continue last_pk' counter')) r' evs ->
  exists rows csvfile pk processed,
    fetch conns opts last_pk = Ok rows /\ rows ≠ [] /\
    manifest (bucket_name opts) rows (lambda_record_size opts) = Ok csvfile /\
    last rows = Some pk /\
    int_or_0 (Redis.hget r name "records_processed") = Ok processed /\
    progress (len rows + processed) total = Ok tt /\
    last_pk' = PyInt pk /\ counter' = counter + 1 /\
    r' = Redis.hset_mapping r name
           (checkpoint pk (counter + 1) (processed + len rows)) /\
    evs = [IdQuery (use_replica opts) (query_of opts last_pk)
             (params_of opts last_pk) rows;
           PutObject (filelist SEARCH_TYPES (record_type opts) counter)
             (bucket_name opts) csvfile;
           HSet name (checkpoint pk (counter + 1) (processed + len rows))].
Proof.
  inversion 1; subst.
  match goal with H : Ok (Continue _ _) = and_then _ _ |- _ =>
    unfold and_then in H; destruct (progress _ _) as [[]| |] eqn:Hprog;
    simplify_eq end.
  by eexists _, _, _, _.
Qed.

(** *** Deleting the checkpoint *)

Lemma pass_no_delete total last_pk counter r o r' evs :
  pass SEARCH_TYPES conns opts total last_pk counter r o r' evs ->
  Forall (fun ev => is_delete ev = false) evs.
Proof. destruct 1; repeat constructor. Qed.

Lemma passes_no_delete total fuel last_pk counter r o r' evs :
  passes SEARCH_TYPES conns opts total fuel last_pk counter r o r' evs ->
  Forall (fun ev => is_delete ev = false) evs.
Proof.
  induction 1; try (by eapply pass_no_delete); [constructor|].
  apply Forall_app. split; [by eapply pass_no_delete | done].
Qed.

Lemma prelude_no_delete r total r1 evs0 :
  prelude SEARCH_TYPES conns opts r total r1 evs0 ->
  Forall (fun ev => is_delete ev = false) evs0.
Proof. destruct 1; repeat constructor. Qed.

Lemma passes_finished total fuel last_pk counter r r' evs :
  passes SEARCH_TYPES conns opts total fuel last_pk counter r (Ok tt) r' evs ->
  exists pre ur q params, evs = pre ++ [IdQuery ur q params []].
Proof.
  intros H. remember (Ok tt) as o eqn:Ho.
  induction H as [| ? ? ? ? ? ? Hpass | |
                  ? ? ? ? ? ? ? ? ? ? ? Hpass Hrest IH]; simplify_eq.
  - apply pass_break_inv in Hpass as (_ & _ & ->). by eexists [], _, _, _.
  - destruct IH as (pre & ur & q & params & ->); [done|].
    exists (evs ++ pre), ur, q, params. by rewrite app_assoc.
Qed.

Lemma only_delete_last (evs pre post : list event) (x y : event) :
  Forall (fun ev => is_delete ev = false) evs ->
  is_delete y = true ->
  evs ++ [x] = pre ++ y :: post ->
  pre = evs /\ post = [] /\ x = y.
Proof.
  revert pre. induction evs as [|ev evs IH]; intros pre Hall Hy Heq.
  - destruct pre as [|? pre]; simplify_eq/=; [done|].
    by destruct pre.
  - apply Forall_cons in Hall as [Hev Hall].
    destruct pre as [|? pre]; simplify_eq/=; [congruence|].
    destruct (IH pre Hall Hy) as (-> & -> & ->); done.
Qed.

Lemma no_delete_inside (evs pre post : list event) (y : event) :
  Forall (fun ev => is_delete ev = false) evs ->
  is_delete y = true ->
  evs ≠ pre ++ y :: post.
Proof.
  intros Hall Hy ->. apply Forall_app in Hall as [_ Hall].
  apply Forall_cons in Hall as [Hy' _]. congruence.
Qed.

(** *** The first page *)

Lemma pages_app (evs evs' : list event) : pages (evs ++ evs') = pages evs ++ pages evs'.
Proof. apply omap_app. Qed.

Lemma uploads_app (evs evs' : list event) :
  uploads (evs ++ evs') = uploads evs ++ uploads evs'.
Proof. apply omap_app. Qed.

Lemma prelude_pages r total r1 evs0 :
  prelude SEARCH_TYPES conns opts r total r1 evs0 ->
  pages evs0 = [] /\ uploads evs0 = [].
Proof. by destruct 1. Qed.

Lemma pass_first_page total last_pk counter r o r' evs :
  pass SEARCH_TYPES conns opts total last_pk counter r o r' evs ->
  head (pages evs) = Some [] ->
  o = Ok Break.
Proof. destruct 1; intros Hhead; by simplify_eq/=. Qed.

Lemma passes_first_page total fuel last_pk counter r o r' evs :
  passes SEARCH_TYPES conns opts total fuel last_pk counter r o r' evs ->
  head (pages evs) = Some [] ->
  o = Ok tt /\ r' = r /\ uploads evs = [].
Proof.
  destruct 1 as [| ? ? ? ? ? ? Hpass | ? ? ? ? ? ? ? Hpass
                 | ? ? ? ? ? ? ? ? ? ? ? Hpass Hrest]; intros Hhead.
  - done.
  - by apply pass_break_inv in Hpass as (_ & -> & ->).
  - by apply (pass_first_page _ _ _ _ _ _ _ Hpass) in Hhead.
  - apply pass_continue_inv in Hpass
      as (rows & ? & ? & ? & _ & Hne & _ & _ & _ & _ & _ & _ & _ & ->).
    simpl in Hhead. congruence.
Qed.

(** *** The uploads *)

Lemma pass_upload total last_pk counter r o r' evs i Key Bucket Body :
  pass SEARCH_TYPES conns opts total last_pk counter r o r' evs ->
  uploads evs !! i = Some (Key, Bucket, Body) ->
  i = 0%nat /\
  Key = filelist SEARCH_TYPES (record_type opts) counter /\
  Bucket = bucket_name opts /\
  exists rows,
    pages evs !! 0%nat = Some rows /\ StronglySorted Z.lt rows /\
    manifest (bucket_name opts) rows (lambda_record_size opts) = Ok Body.
Proof.
  destruct 1 as [| | | rows ? ? Hfetch | rows ? ? ? ? Hfetch];
    try done; destruct i; try done; simpl; intros [= <- <- <-];
    (do 3 (split; [done|])); exists rows;
    (split; [done|]); (split; [by eapply execute_ascending | done]).
Qed.

Lemma passes_upload total fuel last_pk counter r o r' evs i Key Bucket Body :
  passes SEARCH_TYPES conns opts total fuel last_pk counter r o r' evs ->
  uploads evs !! i = Some (Key, Bucket, Body) ->
  Key = filelist SEARCH_TYPES (record_type opts) (counter + Z.of_nat i) /\
  Bucket = bucket_name opts /\
  exists rows,
    pages evs !! i = Some rows /\ StronglySorted Z.lt rows /\
    manifest (bucket_name opts) rows (lambda_record_size opts) = Ok Body.
Proof.
  intros H. revert i.
  induction H as [| ? ? ? ? ? ? Hpass | ? ? ? ? ? ? ? Hpass
                  | ? ? counter ? ? ? ? ? ? ? ? Hpass Hrest IH]; intros i Hi.
  - done.
  - by apply pass_break_inv in Hpass as (_ & _ & ->).
  - destruct (pass_upload _ _ _ _ _ _ _ _ _ _ _ Hpass Hi) as (-> & -> & -> & ?).
    by rewrite Z.add_0_r.
  - pose proof Hpass as Hinv. apply pass_continue_inv in Hinv
      as (rows & csvfile & pk & processed & Hfetch & Hne & Hcsv & _ & _ & _
          & _ & -> & _ & ->).
    destruct i as [|i].
    + simpl in Hi. simplify_eq. rewrite Z.add_0_r. do 2 (split; [done|]).
      exists rows. split; [done|]. split; [by eapply execute_ascending | done].
    + simpl in Hi. destruct (IH i Hi) as (-> & -> & Hrows).
      split; [f_equal; lia|]. split; [done|]. done.
Qed.

Lemma prelude_hget r total r1 evs0 key :
  prelude SEARCH_TYPES conns opts r total r1 evs0 ->
  key ≠ "total_records" ->
  Redis.hget r1 name key = Redis.hget r name key.
Proof.
  destruct 1; intros Hne; [|done].
  unfold Redis.hset_mapping. simpl. by rewrite hget_hset_ne.
Qed.

(** *** Resuming after the stored key *)


Lemma fetch_among last_pk rows :
  fetch conns opts last_pk = Ok rows -> Forall (fun i => i ∈ table) rows.
Proof. unfold fetch. intros H. by apply execute_among in H. Qed.





(** *** The store after a committed page *)

Lemma replay_app r (evs evs' : list event) :
  replay r (evs ++ evs') = replay (replay r evs) evs'.
Proof. apply foldl_app. Qed.

Lemma pass_replay total last_pk counter r o r' evs :
  pass SEARCH_TYPES conns opts total last_pk counter r o r' evs ->
  r' = replay r evs.
Proof. by destruct 1. Qed.

Lemma passes_replay total fuel last_pk counter r o r' evs :
  passes SEARCH_TYPES conns opts total fuel last_pk counter r o r' evs ->
  r' = replay r evs.
Proof.
  induction 1 as [| ? ? ? ? ? ? Hpass | ? ? ? ? ? ? ? Hpass
                  | ? ? ? ? ? ? ? ? ? ? ? Hpass Hrest IH];
    try (by eapply pass_replay); [done|].
  rewrite replay_app. apply pass_replay in Hpass. by subst.
Qed.

Lemma prelude_replay r total r1 evs0 :
  prelude SEARCH_TYPES conns opts r total r1 evs0 -> r1 = replay r evs0.
Proof. by destruct 1. Qed.

Lemma hget_checkpoint r pk counter processed :
  Redis.hget (Redis.hset_mapping r name (checkpoint pk counter processed))
    name "last_pk" = Some (str pk).
Proof.
  unfold Redis.hset_mapping, checkpoint. simpl.
  rewrite !hget_hset_ne by done. apply hget_hset.
Qed.





Lemma run_replay fuel r o r' evs :
  run SEARCH_TYPES conns fuel opts r o r' evs -> r' = replay r evs.
Proof.
  destruct 1 as [e He | total r1 evs0 e Hpre Hn
                | total r1 evs0 counter r2 evs Hpre Hn Hloop
                | total r1 evs0 counter o r2 evs Hpre Hn Hloop Ho].
  - done.
  - by apply prelude_replay in Hpre.
  - apply prelude_replay in Hpre. apply passes_replay in Hloop.
    rewrite !replay_app. by subst.
  - apply prelude_replay in Hpre. apply passes_replay in Hloop.
    rewrite !replay_app. by subst.
Qed.


(** Conversely, each case of [run] is what [handle] computes. *)
Lemma run_handle fuel r o r' evs :
  run SEARCH_TYPES conns fuel opts r o r' evs ->
  handle SEARCH_TYPES conns fuel opts r = (o, r', evs).
Proof.
  assert (Hprelude : forall total r1 evs0,
    prelude SEARCH_TYPES conns opts r total r1 evs0 ->
    exists cached,
      int_or_0 (Redis.hget r name "total_records") = Ok cached /\
      (if cached =? 0
       then bind (get_total_number_of_records conns (record_type opts)
                    (use_replica opts))
              (fun n => bind (hset name [("total_records", str n)])
                          (fun _ => ret n))
       else ret cached) r = (Ok total, r1, evs0)).
  { intros total r1 evs0 [Hc|total' Hc Hne].
    - by exists 0.
    - exists total'. split; [done|].
      by destruct (Z.eqb_spec total' 0). }
  intros H. unfold handle. unfold bind at 1. unfold hget at 1.
  unfold bind at 1. unfold hget at 1.
  unfold bind at 1. unfold pure at 1.
  destruct H as [e He | total r1 evs0 e Hpre Hn
                | total r1 evs0 counter r2 evs Hpre Hn Hloop
                | total r1 evs0 counter o r2 evs Hpre Hn Hloop Ho].
  - by rewrite He.
  - destruct (Hprelude _ _ _ Hpre) as (cached & -> & Heq).
    unfold bind at 1. rewrite Heq.
    unfold bind at 1. unfold hget at 1.
    unfold bind at 1. unfold pure at 1. rewrite Hn. simpl.
    by rewrite ?app_nil_r.
  - destruct (Hprelude _ _ _ Hpre) as (cached & -> & Heq).
    unfold bind at 1. rewrite Heq.
    unfold bind at 1. unfold hget at 1.
    unfold bind at 1. unfold pure at 1. rewrite Hn.
    unfold bind at 1. rewrite (passes_loop _ _ _ _ _ _ _ _ Hloop).
    unfold delete. done.
  - destruct (Hprelude _ _ _ Hpre) as (cached & -> & Heq).
    unfold bind at 1. rewrite Heq.
    unfold bind at 1. unfold hget at 1.
    unfold bind at 1. unfold pure at 1. rewrite Hn.
    unfold bind at 1. rewrite (passes_loop _ _ _ _ _ _ _ _ Hloop).
    destruct o as [[]| |]; [done|..]; simpl; by rewrite ?app_nil_r.
Qed.

(** *** The total number of records *)

Lemma same_but_total_refl r : same_but_total name r r.
Proof. by split. Qed.

Lemma same_but_total_sym r1 r2 :
  same_but_total name r1 r2 -> same_but_total name r2 r1.
Proof. intros [H1 H2]. split; intros; symmetry; auto. Qed.

Lemma same_but_total_trans r1 r2 r3 :
  same_but_total name r1 r2 -> same_but_total name r2 r3 ->
  same_but_total name r1 r3.
Proof.
  intros [H1 H2] [H3 H4]. split; intros.
  - by rewrite H1, H3.
  - by rewrite H2, H4.
Qed.

Lemma same_but_total_hset r1 r2 key value :
  same_but_total name r1 r2 ->
  same_but_total name (Redis.hset r1 name key value) (Redis.hset r2 name key value).
Proof.
  intros [H1 H2]. split.
  - intros other Hne. unfold Redis.hset. rewrite !lookup_insert_ne by done. auto.
  - intros key' Hne. destruct (decide (key = key')) as [->|Hkey].
    + by rewrite !hget_hset.
    + rewrite !hget_hset_ne by done. auto.
Qed.

Lemma same_but_total_checkpoint r1 r2 pk counter processed :
  same_but_total name r1 r2 ->
  same_but_total name
    (Redis.hset_mapping r1 name (checkpoint pk counter processed))
    (Redis.hset_mapping r2 name (checkpoint pk counter processed)).
Proof.
  intros H. unfold Redis.hset_mapping, checkpoint. simpl.
  by do 3 apply same_but_total_hset.
Qed.

Lemma same_but_total_set r value :
  same_but_total name (Redis.hset r name "total_records" value) r.
Proof.
  split.
  - intros other Hne. unfold Redis.hset. by rewrite lookup_insert_ne.
  - intros key Hne. by rewrite hget_hset_ne.
Qed.

Lemma same_but_total_delete r1 r2 :
  same_but_total name r1 r2 ->
  same_but_total name (Redis.delete r1 name) (Redis.delete r2 name).
Proof.
  intros [H1 H2]. split.
  - intros other Hne. unfold Redis.delete. rewrite !lookup_delete_ne by done. auto.
  - intros key _. unfold Redis.hget, Redis.delete. by rewrite !lookup_delete_eq.
Qed.

Lemma fetch_empty_table last_pk rows :
  table = ∅ -> fetch conns opts last_pk = Ok rows -> rows = [].
Proof.
  intros Hempty Hfetch. apply fetch_among in Hfetch.
  destruct rows as [|i rows]; [done|].
  apply Forall_cons in Hfetch as [Hi _]. rewrite Hempty in Hi.
  by apply not_elem_of_empty in Hi.
Qed.

Lemma progress_same processed total1 total2 :
  fits_float total1 = true -> fits_float total2 = true ->
  total1 ≠ 0 -> total2 ≠ 0 ->
  progress processed total1 = progress processed total2.
Proof.
  intros Hf1 Hf2 Hn1 Hn2. unfold progress. rewrite Hf1, Hf2.
  destruct (Z.eqb_spec total1 0); [done|].
  by destruct (Z.eqb_spec total2 0).
Qed.

(** The loop does not depend on the total, as long as the total can be
    turned into a float and is not 0 over a table that has rows. *)
Lemma pass_total total1 total2 last_pk counter r1 r2 o r1' evs :
  pass SEARCH_TYPES conns opts total1 last_pk counter r1 o r1' evs ->
  same_but_total name r1 r2 ->
  fits_float total1 = true -> (total1 = 0 -> table = ∅) ->
  fits_float total2 = true -> (total2 = 0 -> table = ∅) ->
  exists r2',
    pass SEARCH_TYPES conns opts total2 last_pk counter r2 o r2' evs /\
    same_but_total name r1' r2'.
Proof.
  intros H Hsame Hf1 Hz1 Hf2 Hz2. pose proof Hsame as [_ Hkeys].
  destruct H as [e Hfetch | Hfetch | rows e Hfetch Hne Hcsv
                 | rows csvfile e Hfetch Hne Hcsv Hproc
                 | rows csvfile pk processed o Hfetch Hne Hcsv Hpk Hproc Ho].
  - exists r2. split; [by apply pass_query_raises | done].
  - exists r2. split; [by apply pass_break | done].
  - exists r2. split; [by apply pass_manifest_raises | done].
  - exists r2. split; [|done].
    apply pass_processed_raises; [done..|]. by rewrite <- Hkeys.
  - eexists. split.
    + eapply pass_commit; [done..| |].
      * by rewrite <- Hkeys.
      * rewrite Ho. f_equal. apply progress_same; [done..| |].
        -- intros H1. by apply Hne, (fetch_empty_table last_pk), Hfetch; auto.
        -- intros H2. by apply Hne, (fetch_empty_table last_pk), Hfetch; auto.
    + by apply same_but_total_checkpoint.
Qed.

Lemma passes_total total1 total2 fuel last_pk counter r1 r2 o r1' evs :
  passes SEARCH_TYPES conns opts total1 fuel last_pk counter r1 o r1' evs ->
  same_but_total name r1 r2 ->
  fits_float total1 = true -> (total1 = 0 -> table = ∅) ->
  fits_float total2 = true -> (total2 = 0 -> table = ∅) ->
  exists r2',
    passes SEARCH_TYPES conns opts total2 fuel last_pk counter r2 o r2' evs /\
    same_but_total name r1' r2'.
Proof.
  intros H. revert r2.
  induction H as [| ? ? ? ? ? ? Hpass | ? ? ? ? ? ? ? Hpass
                  | ? ? ? ? ? ? ? ? ? ? ? Hpass Hrest IH];
    intros r2 Hsame Hf1 Hz1 Hf2 Hz2.
  - exists r2. split; [constructor | done].
  - destruct (pass_total _ total2 _ _ _ _ _ _ _ Hpass Hsame) as (r2' & ? & ?);
      [done..|].
    exists r2'. split; [by apply passes_break | done].
  - destruct (pass_total _ total2 _ _ _ _ _ _ _ Hpass Hsame) as (r2' & ? & ?);
      [done..|].
    exists r2'. split; [by apply passes_raise | done].
  - destruct (pass_total _ total2 _ _ _ _ _ _ _ Hpass Hsame) as (r2' & ? & Hsame');
      [done..|].
    destruct (IH r2' Hsame') as (r2'' & ? & ?); [done..|].
    exists r2''. split; [by eapply passes_continue | done].
Qed.

Lemma prelude_total r total r1 evs0 cached :
  prelude SEARCH_TYPES conns opts r total r1 evs0 ->
  int_or_0 (Redis.hget r name "total_records") = Ok cached ->
  fits_float cached = true ->
  fits_float (count_rows (connection_of conns (use_replica opts))
                (record_type opts)) = true ->
  fits_float total = true /\ (total = 0 -> table = ∅) /\
  same_but_total name r1 r /\ uploads evs0 = [] /\ pages evs0 = [].
Proof.
  destruct 1 as [Hc|total Hc Hne]; intros Hcached Hf Hfc.
  - split; [done|]. split; [|split; [apply same_but_total_set | done]].
    unfold count_rows. intros Hsize.
    apply leibniz_equiv, size_empty_inv. lia.
  - rewrite Hc in Hcached. injection Hcached as ->.
    split; [done|]. split; [done|].
    split; [apply same_but_total_refl | done].
Qed.

Lemma prelude_exists r cached :
  int_or_0 (Redis.hget r name "total_records") = Ok cached ->
  exists total r1 evs0, prelude SEARCH_TYPES conns opts r total r1 evs0.
Proof.
  intros Hc. destruct (decide (cached = 0)) as [->|Hne].
  - do 3 eexists. by apply prelude_counts.
  - do 3 eexists. by eapply prelude_cached.
Qed.

Lemma run_total fuel r1 r2 o r1' evs1 cached1 cached2 :
  run SEARCH_TYPES conns fuel opts r1 o r1' evs1 ->
  same_but_total name r1 r2 ->
  int_or_0 (Redis.hget r1 name "total_records") = Ok cached1 ->
  fits_float cached1 = true ->
  int_or_0 (Redis.hget r2 name "total_records") = Ok cached2 ->
  fits_float cached2 = true ->
  fits_float (count_rows (connection_of conns (use_replica opts))
                (record_type opts)) = true ->
  exists r2' evs2,
    run SEARCH_TYPES conns fuel opts r2 o r2' evs2 /\
    same_but_total name r1' r2' /\
    uploads evs1 = uploads evs2 /\ pages evs1 = pages evs2.
Proof.
  intros H Hsame Hc1 Hf1 Hc2 Hf2 Hfc. pose proof Hsame as [_ Hkeys].
  destruct (prelude_exists r2 cached2 Hc2) as (total2 & r2a & evs0' & Hpre2).
  destruct (prelude_total _ _ _ _ _ Hpre2 Hc2 Hf2 Hfc)
    as (Hft2 & Hz2 & Hsame2 & Hup2 & Hpg2).
  destruct H as [e He | total r1a evs0 e Hpre Hn
                | total r1a evs0 counter r1b evs Hpre Hn Hloop
                | total r1a evs0 counter o r1b evs Hpre Hn Hloop Ho].
  - congruence.
  - destruct (prelude_total _ _ _ _ _ Hpre Hc1 Hf1 Hfc)
      as (Hft1 & Hz1 & Hsame1 & Hup1 & Hpg1).
    assert (Hsame' : same_but_total name r1a r2a).
    { eapply same_but_total_trans; [apply Hsame1|].
      eapply same_but_total_trans; [apply Hsame|].
      by apply same_but_total_sym. }
    exists r2a, evs0'. split; [|by rewrite Hup1, Hup2, Hpg1, Hpg2].
    eapply run_counter_raises; [done|].
    destruct Hsame' as [_ Hkeys']. by rewrite <- Hkeys'.
  - destruct (prelude_total _ _ _ _ _ Hpre Hc1 Hf1 Hfc)
      as (Hft1 & Hz1 & Hsame1 & Hup1 & Hpg1).
    assert (Hsame' : same_but_total name r1a r2a).
    { eapply same_but_total_trans; [apply Hsame1|].
      eapply same_but_total_trans; [apply Hsame|].
      by apply same_but_total_sym. }
    destruct (passes_total _ total2 _ _ _ _ _ _ _ _ Hloop Hsame')
      as (r2b & Hloop2 & Hsame''); [done..|].
    exists (Redis.delete r2b name), (evs0' ++ evs ++ [Delete name]).
    split; [|split; [by apply same_but_total_delete|]].
    + eapply run_finished; [done| |].
      * destruct Hsame' as [_ Hkeys']. by rewrite <- Hkeys'.
      * by rewrite <- Hkeys.
    + by rewrite !uploads_app, !pages_app, Hup1, Hup2, Hpg1, Hpg2.
  - destruct (prelude_total _ _ _ _ _ Hpre Hc1 Hf1 Hfc)
      as (Hft1 & Hz1 & Hsame1 & Hup1 & Hpg1).
    assert (Hsame' : same_but_total name r1a r2a).
    { eapply same_but_total_trans; [apply Hsame1|].
      eapply same_but_total_trans; [apply Hsame|].
      by apply same_but_total_sym. }
    destruct (passes_total _ total2 _ _ _ _ _ _ _ _ Hloop Hsame')
      as (r2b & Hloop2 & Hsame''); [done..|].
    exists r2b, (evs0' ++ evs).
    split; [|split; [done|]].
    + eapply run_stopped; [done| | |done].
      * destruct Hsame' as [_ Hkeys']. by rewrite <- Hkeys'.
      * by rewrite <- Hkeys.
    + by rewrite !uploads_app, !pages_app, Hup1, Hup2, Hpg1, Hpg2.
Qed.

Lemma count_queries_app (evs evs' : list event) :
  existsb is_count_query (evs ++ evs')
  = existsb is_count_query evs || existsb is_count_query evs'.
Proof. apply existsb_app. Qed.

Lemma writes_to_app n key (evs evs' : list event) :
  writes_to n key (evs ++ evs') = writes_to n key evs ++ writes_to n key evs'.
Proof. unfold writes_to. by rewrite omap_app, join_app. Qed.

Lemma pass_quiet total last_pk counter r o r' evs :
  pass SEARCH_TYPES conns opts total last_pk counter r o r' evs ->
  existsb is_count_query evs = false /\ writes_to name "total_records" evs = [].
Proof.
  destruct 1; (split; [done|]); try done.
  unfold writes_to. simpl. by rewrite String.eqb_refl.
Qed.

Lemma passes_quiet total fuel last_pk counter r o r' evs :
  passes SEARCH_TYPES conns opts total fuel last_pk counter r o r' evs ->
  existsb is_count_query evs = false /\ writes_to name "total_records" evs = [].
Proof.
  induction 1 as [| ? ? ? ? ? ? Hpass | ? ? ? ? ? ? ? Hpass
                  | ? ? ? ? ? ? ? ? ? ? ? Hpass Hrest [IH1 IH2]];
    try (by eapply pass_quiet); [done|].
  apply pass_quiet in Hpass as [H1 H2].
  by rewrite count_queries_app, writes_to_app, H1, H2, IH1, IH2.
Qed.

Lemma prelude_quiet r total r1 evs0 :
  prelude SEARCH_TYPES conns opts r total r1 evs0 ->
  (int_or_0 (Redis.hget r name "total_records") = Ok 0 /\
   existsb is_count_query evs0 = true /\
   writes_to name "total_records" evs0
   = [str (count_rows (connection_of conns (use_replica opts)) (record_type opts))])
  \/
  (exists cached,
     int_or_0 (Redis.hget r name "total_records") = Ok cached /\ cached ≠ 0 /\
     evs0 = []).
Proof.
  destruct 1 as [Hc|total Hc Hne]; [left | right; by exists total].
  split; [done|]. split; [done|].
  unfold writes_to. simpl. by rewrite String.eqb_refl.
Qed.

(** The count query and the writes of [total_records] of a run. *)
Lemma run_quiet fuel r o r' evs :
  run SEARCH_TYPES conns fuel opts r o r' evs ->
  (int_or_0 (Redis.hget r name "total_records") = Ok 0 /\
   existsb is_count_query evs = true /\
   writes_to name "total_records" evs
   = [str (count_rows (connection_of conns (use_replica opts)) (record_type opts))])
  \/
  (int_or_0 (Redis.hget r name "total_records") ≠ Ok 0 /\
   existsb is_count_query evs = false /\
   writes_to name "total_records" evs = []).
Proof.
  assert (Hgoal : forall total r1 evs0 evs,
    prelude SEARCH_TYPES conns opts r total r1 evs0 ->
    existsb is_count_query evs = false ->
    writes_to name "total_records" evs = [] ->
    (int_or_0 (Redis.hget r name "total_records") = Ok 0 /\
     existsb is_count_query (evs0 ++ evs) = true /\
     writes_to name "total_records" (evs0 ++ evs)
     = [str (count_rows (connection_of conns (use_replica opts)) (record_type opts))])
    \/
    (int_or_0 (Redis.hget r name "total_records") ≠ Ok 0 /\
     existsb is_count_query (evs0 ++ evs) = false /\
     writes_to name "total_records" (evs0 ++ evs) = [])).
  { intros total r1 evs0 evs2 Hpre Hq Hw.
    rewrite count_queries_app, writes_to_app, Hq, Hw.
    destruct (prelude_quiet _ _ _ _ Hpre)
      as [(Hc & Hq0 & Hw0)|(cached & Hc & Hne & ->)].
    - left. by rewrite Hq0, Hw0.
    - right. rewrite Hc. split; [congruence | done]. }
  destruct 1 as [e He | total r1 evs0 e Hpre Hn
                | total r1 evs0 counter r2 evs' Hpre Hn Hloop
                | total r1 evs0 counter o r2 evs' Hpre Hn Hloop Ho].
  - right. rewrite He. done.
  - rewrite <- (app_nil_r evs0). by eapply Hgoal.
  - apply passes_quiet in Hloop as [Hq Hw]. eapply Hgoal; [done|..].
    + by rewrite count_queries_app, Hq.
    + by rewrite writes_to_app, Hw.
  - apply passes_quiet in Hloop as [Hq Hw]. by eapply Hgoal.
Qed.

End Driver.

(** C6: in every run the checkpoint is deleted at most once, as the last
    thing the run does, right after an id query that returned no row, and
    the run then ends without an error; a run that ends in an error (or
    is cut short) deletes nothing. *)
Theorem delete_only_after_empty_page SEARCH_TYPES conns fuel opts r o r' evs :
  handle SEARCH_TYPES conns fuel opts r = (o, r', evs) ->
  (forall pre name post,
     evs = pre ++ Delete name :: post ->
     post = [] /\ o = Ok tt /\
     exists pre' ur q params, pre = pre' ++ [IdQuery ur q params []]) /\
  (o ≠ Ok tt -> Forall (fun ev => is_delete ev = false) evs).
Proof.
  intros Hrun. apply handle_run in Hrun.
  destruct Hrun as [e He | total r1 evs0 e Hpre Hn
                   | total r1 evs0 counter r2 evs Hpre Hn Hloop
                   | total r1 evs0 counter o r2 evs Hpre Hn Hloop Ho].
  - split; [|by constructor]. intros pre name post Heq. by destruct pre.
  - apply prelude_no_delete in Hpre. split; [|done].
    intros pre name post Heq. by eapply no_delete_inside in Heq.
  - split; [|done]. intros pre name post Heq.
    rewrite app_assoc in Heq.
    apply only_delete_last in Heq as (-> & -> & _); [| |done].
    + split; [done|]. split; [done|].
      apply passes_finished in Hloop as (pre & ur & q & params & ->).
      exists (evs0 ++ pre), ur, q, params. by rewrite app_assoc.
    + apply Forall_app. split; [by eapply prelude_no_delete|].
      by eapply passes_no_delete.
  - assert (Hall : Forall (fun ev => is_delete ev = false) (evs0 ++ evs)).
    { apply Forall_app. split; [by eapply prelude_no_delete|].
      by eapply passes_no_delete. }
    split; [|done]. intros pre name post Heq.
    by eapply no_delete_inside in Heq.
Qed.

Lemma delete_only_after_empty_page_witness :
  exists o r' evs,
    handle Sample.codes Sample.conns 5 Sample.opts Sample.resumed = (o, r', evs) /\
    (forall pre name post,
       evs = pre ++ Delete name :: post ->
       post = [] /\ o = Ok tt /\
       exists pre' ur q params, pre = pre' ++ [IdQuery ur q params []]) /\
    (o ≠ Ok tt -> Forall (fun ev => is_delete ev = false) evs).
Proof.
  eexists _, _, _. split; [vm_compute; reflexivity|].
  eapply (delete_only_after_empty_page Sample.codes Sample.conns 5 Sample.opts
            Sample.resumed).
  vm_compute. reflexivity.
Defined.

(** C5: when the first id query of a run returns no row, the run ends
    without an error, nothing was put to S3, and the last thing the run
    did was to delete the checkpoint, which is then absent. *)
Theorem no_records_no_uploads SEARCH_TYPES conns fuel opts r o r' evs :
  handle SEARCH_TYPES conns fuel opts r = (o, r', evs) ->
  head (pages evs) = Some [] ->
  o = Ok tt /\
  uploads evs = [] /\
  last evs = Some (Delete (import_status SEARCH_TYPES (record_type opts))) /\
  r' !! import_status SEARCH_TYPES (record_type opts) = None.
Proof.
  intros Hrun Hhead. apply handle_run in Hrun.
  destruct Hrun as [e He | total r1 evs0 e Hpre Hn
                   | total r1 evs0 counter r2 evs Hpre Hn Hloop
                   | total r1 evs0 counter o r2 evs Hpre Hn Hloop Ho].
  - done.
  - apply prelude_pages in Hpre as [Hpages _]. by rewrite Hpages in Hhead.
  - apply prelude_pages in Hpre as [Hpages Hups].
    rewrite !pages_app, Hpages, app_nil_l in Hhead.
    assert (Hhead' : head (pages evs) = Some []).
    { destruct (pages evs); [done|]. done. }
    apply (passes_first_page _ _ _ _ _ _ _ _ _ _ _ Hloop) in Hhead'
      as (_ & -> & Hnone).
    split; [done|]. split; [by rewrite !uploads_app, Hups, Hnone|].
    split; [by rewrite app_assoc, last_snoc|].
    unfold Redis.delete. apply lookup_delete_eq.
  - apply prelude_pages in Hpre as [Hpages Hups].
    rewrite !pages_app, Hpages, app_nil_l in Hhead.
    by apply (passes_first_page _ _ _ _ _ _ _ _ _ _ _ Hloop) in Hhead as (? & _).
Qed.

Lemma no_records_no_uploads_witness :
  exists o r' evs,
    handle Sample.codes Sample.conns 5 Sample.opts_replica ∅ = (o, r', evs) /\
    head (pages evs) = Some [] /\
    o = Ok tt /\
    uploads evs = [] /\
    last evs = Some (Delete "o_import_status") /\
    r' !! "o_import_status" = None.
Proof.
  eexists _, _, _. split; [vm_compute; reflexivity|].
  split; [vm_compute; reflexivity|].
  apply (no_records_no_uploads Sample.codes Sample.conns 5 Sample.opts_replica ∅);
    vm_compute; reflexivity.
Defined.

(** C4, as the code has it: the i-th object that a run puts to S3 (counting
    from 0) has the key [{record_type}_filelist_{k}.csv], where k is the
    stored [next_iteration_counter] (0 when there is none) plus i, it goes
    to the bucket of the command line, and its text is one line
    [bucket,file_name] per group of the i-th page of the run, ended by
    CR LF, with no header line. *)
Theorem upload_is_manifest SEARCH_TYPES conns fuel opts r o r' evs i Key Bucket Body :
  handle SEARCH_TYPES conns fuel opts r = (o, r', evs) ->
  uploads evs !! i = Some (Key, Bucket, Body) ->
  exists counter rows groups lines,
    int_or_0 (Redis.hget r (import_status SEARCH_TYPES (record_type opts))
                "next_iteration_counter") = Ok counter /\
    Key = SEARCH_TYPES (record_type opts) +:+ "_filelist_"
            +:+ str (counter + Z.of_nat i) +:+ ".csv" /\
    Bucket = bucket_name opts /\
    pages evs !! i = Some rows /\
    batched rows (lambda_record_size opts) = Ok groups /\
    Forall2 (fun group line => manifest_row (bucket_name opts) group = Some line)
      groups lines /\
    Body = String.concat "" lines.
Proof.
  intros Hrun Hi. apply handle_run in Hrun.
  assert (Hgoal : forall total r1 evs0 counter o2 r2 evs2,
    prelude SEARCH_TYPES conns opts r total r1 evs0 ->
    int_or_0 (Redis.hget r1 (import_status SEARCH_TYPES (record_type opts))
                "next_iteration_counter") = Ok counter ->
    passes SEARCH_TYPES conns opts total fuel
      (of_hget (Redis.hget r (import_status SEARCH_TYPES (record_type opts))
                  "last_pk")) counter r1 o2 r2 evs2 ->
    uploads evs2 !! i = Some (Key, Bucket, Body) ->
    exists counter rows groups lines,
      int_or_0 (Redis.hget r (import_status SEARCH_TYPES (record_type opts))
                  "next_iteration_counter") = Ok counter /\
      Key = SEARCH_TYPES (record_type opts) +:+ "_filelist_"
              +:+ str (counter + Z.of_nat i) +:+ ".csv" /\
      Bucket = bucket_name opts /\
      pages evs2 !! i = Some rows /\
      batched rows (lambda_record_size opts) = Ok groups /\
      Forall2 (fun group line => manifest_row (bucket_name opts) group = Some line)
        groups lines /\
      Body = String.concat "" lines).
  { intros total r1 evs0 counter o2 r2 evs2 Hpre Hn Hloop Hup.
    rewrite (prelude_hget _ _ _ _ _ _ _ _ Hpre) in Hn by done.
    destruct (passes_upload _ _ _ _ _ _ _ _ _ _ _ _ _ _ _ Hloop Hup)
      as (-> & -> & rows & Hrows & Hs & Hcsv).
    destruct (manifest_rows _ _ _ _ Hs Hcsv) as (groups & lines & ? & ? & ?).
    by exists counter, rows, groups, lines. }
  destruct Hrun as [e He | total r1 evs0 e Hpre Hn
                   | total r1 evs0 counter r2 evs Hpre Hn Hloop
                   | total r1 evs0 counter o r2 evs Hpre Hn Hloop Ho].
  - done.
  - apply prelude_pages in Hpre as [_ Hups]. by rewrite Hups in Hi.
  - pose proof (prelude_pages _ _ _ _ _ _ _ Hpre) as [Hpages Hups].
    rewrite !uploads_app, Hups in Hi. simpl in Hi. rewrite app_nil_r in Hi.
    rewrite !pages_app, Hpages. simpl. rewrite app_nil_r.
    by eapply Hgoal.
  - pose proof (prelude_pages _ _ _ _ _ _ _ Hpre) as [Hpages Hups].
    rewrite !uploads_app, Hups in Hi. simpl in Hi.
    rewrite !pages_app, Hpages. simpl.
    by eapply Hgoal.
Qed.

Lemma upload_is_manifest_witness :
  exists o r' evs Key Bucket Body,
    handle Sample.codes Sample.conns 5 Sample.opts Sample.resumed = (o, r', evs) /\
    uploads evs !! 0%nat = Some (Key, Bucket, Body) /\
    exists counter rows groups lines,
      int_or_0 (Redis.hget Sample.resumed "o_import_status"
                  "next_iteration_counter") = Ok counter /\
      Key = "o" +:+ "_filelist_" +:+ str (counter + Z.of_nat 0) +:+ ".csv" /\
      Bucket = "b" /\
      pages evs !! 0%nat = Some rows /\
      batched rows 2 = Ok groups /\
      Forall2 (fun group line => manifest_row "b" group = Some line) groups lines /\
      Body = String.concat "" lines.
Proof.
  eexists _, _, _, _, _, _. split; [vm_compute; reflexivity|].
  split; [vm_compute; reflexivity|].
  eapply (upload_is_manifest Sample.codes Sample.conns 5 Sample.opts
            Sample.resumed _ _ _ 0); vm_compute; reflexivity.
Defined.

(** C4, as the specification has it, fails: the first manifest of a run
    over five opinions starts with the row of its first group, not with a
    header line [bucket,file_name]. *)
Lemma upload_has_no_header :
  exists o r' evs Body,
    handle Sample.codes Sample.conns 5 Sample.opts ∅ = (o, r', evs) /\
    uploads evs !! 0%nat = Some ("o_filelist_0.csv", "b", Body) /\
    Body = String "b" (String "," (String "1" (String "_" (String "2"
             (Csv.lineterminator +:+
              String "b" (String "," (String "3" Csv.lineterminator))))))) /\
    String.prefix "bucket,file_name" Body = false.
Proof. eexists _, _, _, _. split_and!; vm_compute; reflexivity. Qed.

(** C7, as the code has it.  A run executes the count query only when the
    stored [total_records] is absent, empty or 0; it writes the field at
    most once, with the count, and not at all when a value other than 0
    is stored; and two runs from stores that differ only in that field,
    whose values are absent or integers that can be turned into floats
    (as must the count), end alike, put the same objects to S3 and leave
    stores that again differ only in that field. *)
Theorem total_records_for_progress_only SEARCH_TYPES conns fuel opts r o r' evs :
  handle SEARCH_TYPES conns fuel opts r = (o, r', evs) ->
  (existsb is_count_query evs = true ->
   int_or_0 (Redis.hget r (import_status SEARCH_TYPES (record_type opts))
               "total_records") = Ok 0) /\
  (forall total,
     int_or_0 (Redis.hget r (import_status SEARCH_TYPES (record_type opts))
                 "total_records") = Ok total ->
     total ≠ 0 ->
     existsb is_count_query evs = false /\
     writes_to (import_status SEARCH_TYPES (record_type opts)) "total_records" evs
     = []) /\
  (writes_to (import_status SEARCH_TYPES (record_type opts)) "total_records" evs
   = [] \/
   writes_to (import_status SEARCH_TYPES (record_type opts)) "total_records" evs
   = [str (count_rows (connection_of conns (use_replica opts)) (record_type opts))]) /\
  (forall r2 o2 r2' evs2 total total2,
     same_but_total (import_status SEARCH_TYPES (record_type opts)) r r2 ->
     int_or_0 (Redis.hget r (import_status SEARCH_TYPES (record_type opts))
                 "total_records") = Ok total ->
     fits_float total = true ->
     int_or_0 (Redis.hget r2 (import_status SEARCH_TYPES (record_type opts))
                 "total_records") = Ok total2 ->
     fits_float total2 = true ->
     fits_float (count_rows (connection_of conns (use_replica opts))
                   (record_type opts)) = true ->
     handle SEARCH_TYPES conns fuel opts r2 = (o2, r2', evs2) ->
     o2 = o /\ uploads evs2 = uploads evs /\
     same_but_total (import_status SEARCH_TYPES (record_type opts)) r' r2').
Proof.
  intros Hrun. apply handle_run in Hrun.
  pose proof (run_quiet _ _ _ _ _ _ _ _ Hrun) as Hquiet.
  split; [|split; [|split]].
  - intros Hq. destruct Hquiet as [(? & _)|(_ & Hq' & _)]; [done | congruence].
  - intros total Hc Hne.
    destruct Hquiet as [(Hc' & _)|(_ & ? & ?)]; [congruence | done].
  - destruct Hquiet as [(_ & _ & ?)|(_ & _ & ?)]; [by right | by left].
  - intros r2 o2 r2' evs2 total total2 Hsame Hc Hf Hc2 Hf2 Hfc Hrun2.
    destruct (run_total _ _ _ _ _ _ _ _ _ _ _ Hrun Hsame Hc Hf Hc2 Hf2 Hfc)
      as (r2'' & evs2' & Hrun2' & Hsame' & Hup & _).
    apply run_handle in Hrun2'. rewrite Hrun2' in Hrun2. by simplify_eq.
Qed.

Lemma total_records_for_progress_only_witness :
  exists o r' evs,
    handle Sample.codes Sample.conns 5 Sample.opts (Sample.with_total "7")
    = (o, r', evs) /\
    (existsb is_count_query evs = true ->
     int_or_0 (Redis.hget (Sample.with_total "7") "o_import_status"
                 "total_records") = Ok 0) /\
    (forall total,
       int_or_0 (Redis.hget (Sample.with_total "7") "o_import_status"
                   "total_records") = Ok total ->
       total ≠ 0 ->
       existsb is_count_query evs = false /\
       writes_to "o_import_status" "total_records" evs = []) /\
    (writes_to "o_import_status" "total_records" evs = [] \/
     writes_to "o_import_status" "total_records" evs = [str 5]) /\
    (forall r2 o2 r2' evs2 total total2,
       same_but_total "o_import_status" (Sample.with_total "7") r2 ->
       int_or_0 (Redis.hget (Sample.with_total "7") "o_import_status"
                   "total_records") = Ok total ->
       fits_float total = true ->
       int_or_0 (Redis.hget r2 "o_import_status" "total_records") = Ok total2 ->
       fits_float total2 = true ->
       fits_float 5 = true ->
       handle Sample.codes Sample.conns 5 Sample.opts r2 = (o2, r2', evs2) ->
       o2 = o /\ uploads evs2 = uploads evs /\
       same_but_total "o_import_status" r' r2').
Proof.
  eexists _, _, _. split; [vm_compute; reflexivity|].
  apply (total_records_for_progress_only Sample.codes Sample.conns 5 Sample.opts
           (Sample.with_total "7")).
  vm_compute. reflexivity.
Defined.

(** C7, as the specification has it, fails on a stored total of 0: the
    count query is executed although a value is stored, and the stored
    value is replaced by the count.  It also fails on a stored total that
    is too large for a float, 2^1024: the pass that goes on with the total
    5 ends in an [OverflowError] with that total. *)
Lemma stored_total_is_counted_again :
  (exists o r' evs,
     handle Sample.codes Sample.conns 5 Sample.opts (Sample.with_total "0")
     = (o, r', evs) /\
     Redis.hget (Sample.with_total "0") "o_import_status" "total_records"
     = Some "0" /\
     existsb is_count_query evs = true /\
     writes_to "o_import_status" "total_records" evs = ["5"]) /\
  (int_or_0 (Some (str (2 ^ 1024))) = Ok (2 ^ 1024) /\
   (iteration Sample.codes Sample.conns Sample.opts 5 (PyStr "3") 1
      Sample.resumed).1.1
   = Ok (Continue (PyInt 9) 2) /\
   (iteration Sample.codes Sample.conns Sample.opts (2 ^ 1024) (PyStr "3") 1
      Sample.resumed).1.1
   = Raise OverflowError).
Proof.
  split.
  - eexists _, _, _. split_and!; vm_compute; reflexivity.
  - split; [apply int_or_0_str|]. split; vm_compute; reflexivity.
Qed.

(** ** N-grams *)

Lemma windows_lengths {A} (n : nat) (l : list A) :
  Forall (fun g => length g = n) (windows n l).
Proof.
  induction l as [|x l IH]; [constructor|].
  change (windows n (x :: l))
    with (if (n <=? length (x :: l))%nat then take n (x :: l) :: windows n l else []).
  destruct (Nat.leb_spec n (length (x :: l))); [|constructor].
  constructor; [|done]. by apply length_take_le.
Qed.

Lemma windows_length {A} (n : nat) (l : list A) :
  (1 <= n)%nat -> length (windows n l) = (length l + 1 - n)%nat.
Proof.
  intros Hn. induction l as [|x l IH]; [simpl; lia|].
  change (windows n (x :: l))
    with (if (n <=? length (x :: l))%nat then take n (x :: l) :: windows n l else []).
  destruct (Nat.leb_spec n (length (x :: l))) as [Hle|Hgt]; simpl in *; [|lia].
  rewrite IH. lia.
Qed.

(** The slices [l[i:i+n]] for the [i] of [range(len(l) + 1 - n)] are the
    windows of [n] adjacent elements. *)
Lemma slices_windows {A} (n : nat) (l : list A) :
  (1 <= n)%nat ->
  (fun i => slice l i (i + n)) <$> seq 0 (length l + 1 - n) = windows n l.
Proof.
  intros Hn. induction l as [|x l IH].
  - simpl. by replace (1 - n)%nat with 0%nat by lia.
  - change (windows n (x :: l))
      with (if (n <=? length (x :: l))%nat then take n (x :: l) :: windows n l else []).
    destruct (Nat.leb_spec n (length (x :: l))) as [Hle|Hgt]; simpl length in *.
    + replace (S (length l) + 1 - n)%nat with (S (length l + 1 - n)) by lia.
      rewrite <- cons_seq, fmap_cons. f_equal.
      * unfold slice. by replace (0 + n - 0)%nat with n by lia.
      * rewrite <- fmap_S_seq, <- list_fmap_compose, <- IH.
        apply list_fmap_ext. intros _ i _. simpl. unfold slice.
        by replace (S (i + n) - S i)%nat with (i + n - i)%nat by lia.
    + by replace (S (length l) + 1 - n)%nat with 0%nat by lia.
Qed.

(** C8: [generate_ngrams] returns the single words of a list of at most 5
    words, the [len - 1] pairs of adjacent words of a list of 6 to 24
    words, and the [len - 4] runs of 5 adjacent words of a list of 25
    words or more. *)
Theorem generate_ngrams_by_length (words : list string) :
  (len words <= 5 ->
   generate_ngrams words = (fun x => [x]) <$> words) /\
  (6 <= len words <= 24 ->
   generate_ngrams words = windows 2 words /\
   len (generate_ngrams words) = len words - 1 /\
   Forall (fun word_group => len word_group = 2) (generate_ngrams words)) /\
  (25 <= len words ->
   generate_ngrams words = windows 5 words /\
   len (generate_ngrams words) = len words - 4 /\
   Forall (fun word_group => len word_group = 5) (generate_ngrams words)).
Proof.
  unfold generate_ngrams, range, len. split; [|split].
  - intros H. by destruct (Z.leb_spec (Z.of_nat (length words)) 5); [|lia].
  - intros H.
    destruct (Z.leb_spec (Z.of_nat (length words)) 5); [lia|].
    destruct (Z.ltb_spec 5 (Z.of_nat (length words))); [|lia].
    destruct (Z.ltb_spec (Z.of_nat (length words)) 25); [|lia]. simpl andb.
    replace (Z.to_nat (Z.of_nat (length words) - 1))
      with (length words + 1 - 2)%nat by lia.
    rewrite slices_windows by lia. split; [done|]. split.
    + rewrite windows_length by lia. lia.
    + eapply Forall_impl; [apply windows_lengths|]. simpl. lia.
  - intros H.
    destruct (Z.leb_spec (Z.of_nat (length words)) 5); [lia|].
    destruct (Z.ltb_spec (Z.of_nat (length words)) 25); [lia|].
    rewrite andb_false_r.
    replace (Z.to_nat (Z.of_nat (length words) - 4))
      with (length words + 1 - 5)%nat by lia.
    rewrite slices_windows by lia. split; [done|]. split.
    + rewrite windows_length by lia. lia.
    + eapply Forall_impl; [apply windows_lengths|]. simpl. lia.
Qed.

Lemma generate_ngrams_by_length_witness :
  (generate_ngrams ["a"; "b"] = [["a"]; ["b"]]) /\
  (generate_ngrams ["a"; "b"; "c"; "d"; "e"; "f"]
   = [["a"; "b"]; ["b"; "c"]; ["c"; "d"]; ["d"; "e"]; ["e"; "f"]]).
Proof.
  split.
  - apply (proj1 (generate_ngrams_by_length ["a"; "b"])). unfold len. simpl. lia.
  - apply (proj1 (proj2 (generate_ngrams_by_length
                           ["a"; "b"; "c"; "d"; "e"; "f"]))).
    unfold len. simpl. lia.
Defined.

(** ** Sorting by key *)

Lemma insert_by_Permutation {A} (key : A -> Z) (x : A) (l : list A) :
  insert_by key x l ≡ₚ x :: l.
Proof.
  induction l as [|y l IH]; [done|]. simpl.
  destruct (key x <=? key y); [done|]. by rewrite IH, Permutation_swap.
Qed.

Lemma sorted_Permutation {A} (key : A -> Z) (l : list A) : Py.sorted key l ≡ₚ l.
Proof.
  induction l as [|x l IH]; [done|]. simpl.
  by rewrite insert_by_Permutation, IH.
Qed.

Lemma insert_by_ascending {A} (key : A -> Z) (x : A) (l : list A) :
  StronglySorted (fun a b => key a <= key b) l ->
  StronglySorted (fun a b => key a <= key b) (insert_by key x l).
Proof.
  induction 1 as [|y l Hl IH Hy]; simpl; [repeat constructor|].
  destruct (Z.leb_spec (key x) (key y)) as [Hle|Hgt].
  - constructor; [by constructor|]. constructor; [done|].
    eapply Forall_impl; [apply Hy|]. simpl. lia.
  - constructor; [done|]. rewrite insert_by_Permutation.
    constructor; [lia | done].
Qed.

Lemma sorted_ascending {A} (key : A -> Z) (l : list A) :
  StronglySorted (fun a b => key a <= key b) (Py.sorted key l).
Proof.
  induction l as [|x l IH]; [constructor|]. simpl. by apply insert_by_ascending.
Qed.

Lemma ascending_lookup {A} (key : A -> Z) (l : list A) (i j : nat) (a b : A) :
  StronglySorted (fun a b => key a <= key b) l ->
  l !! i = Some a -> l !! j = Some b -> (i < j)%nat -> key a <= key b.
Proof.
  intros Hs. revert i j. induction Hs as [|x l Hl IH Hx]; intros i j Hi Hj Hlt.
  - done.
  - destruct j as [|j]; [lia|]. destruct i as [|i]; simpl in *.
    + simplify_eq. rewrite Forall_forall in Hx. apply Hx.
      by eapply list_elem_of_lookup_2.
    + apply (IH i j); [done..|lia].
Qed.

(** ** Finding a phrase *)

Lemma find_from_range (sub s : string) (i : Z) :
  sub ≠ EmptyString ->
  find_from sub s i = -1 \/
  i <= find_from sub s i < i + Z.of_nat (String.length s).
Proof.
  intros Hsub. revert i. induction s as [|c s IH]; intros i.
  - left. by destruct sub.
  - change (find_from sub (String c s) i)
      with (if String.prefix sub (String c s) then i
            else find_from sub s (i + 1)).
    destruct (String.prefix sub (String c s)).
    + right. simpl String.length. lia.
    + destruct (IH (i + 1)) as [->|H]; [by left|].
      right. simpl String.length. lia.
Qed.

Lemma count_from_found (sub s : string) (skip : nat) (i : Z) :
  0 <= i -> count_from sub skip s ≠ 0 -> find_from sub s i ≠ -1.
Proof.
  revert skip i. induction s as [|c s IH]; intros skip i Hi Hcount; [done|].
  change (find_from sub (String c s) i)
    with (if String.prefix sub (String c s) then i
          else find_from sub s (i + 1)).
  destruct (String.prefix sub (String c s)) eqn:Hp; [lia|].
  destruct skip as [|skip].
  - change (count_from sub 0 (String c s))
      with (if String.prefix sub (String c s)
            then 1 + count_from sub (String.length sub - 1) s
            else count_from sub 0 s) in Hcount.
    rewrite Hp in Hcount. by apply (IH 0%nat); [lia|].
  - change (count_from sub (S skip) (String c s))
      with (count_from sub skip s) in Hcount.
    by apply (IH skip); [lia|].
Qed.

(** A phrase that the text holds once is found inside the text. *)
Lemma count_one_find (text phrase : string) :
  phrase ≠ EmptyString -> count text phrase = 1 ->
  0 <= find text phrase < Z.of_nat (String.length text).
Proof.
  intros Hne Hcount. unfold count in Hcount.
  destruct (String.eqb_spec phrase ""); [done|].
  unfold find.
  destruct (find_from_range phrase text 0 Hne) as [H|H]; [|lia].
  exfalso. apply (count_from_found phrase text 0 0); [lia | lia | done].
Qed.

(** ** Ordering the opinions *)

Lemma windows_elem {A} (n : nat) (l g : list A) :
  (1 <= n)%nat -> g ∈ windows n l -> g ≠ [] /\ g ⊆ l.
Proof.
  intros Hn Hg. split.
  - pose proof (windows_lengths n l) as Hall. rewrite Forall_forall in Hall.
    specialize (Hall g Hg). intros ->. simpl in Hall. lia.
  - induction l as [|x l IH]; [by apply elem_of_nil in Hg|].
    change (windows n (x :: l))
      with (if (n <=? length (x :: l))%nat
            then take n (x :: l) :: windows n l else []) in Hg.
    destruct (n <=? length (x :: l))%nat; [|by apply elem_of_nil in Hg].
    apply elem_of_cons in Hg as [->|Hg].
    + intros y Hy. apply elem_of_take in Hy as (i & Hi & _).
      by eapply list_elem_of_lookup_2.
    + intros y Hy. right. by apply IH.
Qed.

Lemma generate_ngrams_cases (words : list string) :
  generate_ngrams words = (fun x => [x]) <$> words \/
  generate_ngrams words = windows 2 words \/
  generate_ngrams words = windows 5 words.
Proof.
  unfold generate_ngrams, range, len.
  destruct (Z.leb_spec (Z.of_nat (length words)) 5); [by left|]. right.
  destruct (Z.ltb_spec 5 (Z.of_nat (length words))); [|lia].
  destruct (Z.ltb_spec (Z.of_nat (length words)) 25); simpl andb.
  - left. replace (Z.to_nat (Z.of_nat (length words) - 1))
      with (length words + 1 - 2)%nat by lia.
    apply slices_windows. lia.
  - right. replace (Z.to_nat (Z.of_nat (length words) - 4))
      with (length words + 1 - 5)%nat by lia.
    apply slices_windows. lia.
Qed.

Lemma generate_ngrams_elem (words word_group : list string) :
  word_group ∈ generate_ngrams words ->
  word_group ≠ [] /\ word_group ⊆ words.
Proof.
  destruct (generate_ngrams_cases words) as [-> | [-> | ->]]; intros Hg.
  - apply list_elem_of_fmap in Hg as (x & -> & Hx). split; [done|].
    intros y Hy. by apply list_elem_of_singleton in Hy as ->.
  - by apply (windows_elem 2); [lia|].
  - by apply (windows_elem 5); [lia|].
Qed.

Lemma join_nonempty (sep : string) (l : list string) :
  l ≠ [] -> Forall (fun w => w ≠ EmptyString) l -> join sep l ≠ EmptyString.
Proof.
  destruct l as [|w l]; [done|]. intros _ Hall.
  apply Forall_cons in Hall as [Hw _]. unfold join. simpl.
  destruct l; [done|]. by destruct w.
Qed.

Lemma check_ngrams_default (text : string) (ngrams : list (list string)) (d : Z) :
  (forall g, g ∈ ngrams -> count text (join " " g) ≠ 1) ->
  check_ngrams text ngrams d = d.
Proof.
  induction ngrams as [|g ngrams IH]; intros Hall; [done|]. simpl.
  destruct (Z.eqb_spec (count text (join " " g)) 1) as [Heq|_].
  - exfalso. apply (Hall g); [left | done].
  - apply IH. intros g' Hg'. apply Hall. by right.
Qed.

Lemma check_ngrams_found (text : string) (ngrams : list (list string)) (d : Z) :
  (exists g, g ∈ ngrams /\ count text (join " " g) = 1) ->
  (forall g, g ∈ ngrams -> join " " g ≠ EmptyString) ->
  0 <= check_ngrams text ngrams d < Z.of_nat (String.length text).
Proof.
  induction ngrams as [|g ngrams IH]; intros (g0 & Hg0 & Hcount) Hne.
  - by apply elem_of_nil in Hg0.
  - simpl. destruct (Z.eqb_spec (count text (join " " g)) 1) as [Heq|Hneq].
    + apply count_one_find; [|done]. apply Hne. left.
    + apply IH.
      * exists g0. split; [|done].
        apply elem_of_cons in Hg0 as [->|]; [done | done].
      * intros g' Hg'. apply Hne. by right.
Qed.

Section Ordering.

Variable get_xml : string -> outcome string.
Variable words_of : string -> list string.
Hypothesis words_not_empty :
  forall html word, word ∈ words_of html -> word ≠ EmptyString.

Lemma phrases_not_empty (html : string) (word_group : list string) :
  word_group ∈ generate_ngrams (words_of html) ->
  join " " word_group ≠ EmptyString.
Proof.
  intros Hg. apply generate_ngrams_elem in Hg as [Hne Hsub].
  apply join_nonempty; [done|]. apply Forall_forall. intros w Hw.
  by eapply words_not_empty, Hsub.
Qed.

Lemma match_index_unmatched (columbia_words : string) (op : opinion) :
  ~ uniquely_located columbia_words (words_of (html_columbia op)) ->
  match_index_of words_of columbia_words op
  = Z.of_nat (String.length columbia_words).
Proof.
  intros Hno. unfold match_index_of. apply check_ngrams_default.
  intros g Hg Hcount. apply Hno. by exists g.
Qed.

Lemma match_index_located (columbia_words : string) (op : opinion) :
  uniquely_located columbia_words (words_of (html_columbia op)) ->
  0 <= match_index_of words_of columbia_words op
    < Z.of_nat (String.length columbia_words).
Proof.
  intros Hyes. unfold match_index_of. apply check_ngrams_found; [done|].
  intros g Hg. by eapply phrases_not_empty.
Qed.

End Ordering.

(** C9: [match_text] gives every opinion none of whose n-grams occurs
    exactly once in the reference text (counted as [str.count] counts)
    the length of that text as its index, and every other opinion an
    index below that length; it returns the entries of all opinions
    sorted by ascending index, so that every entry of the first kind
    comes after every entry of the second kind.  The words of an opinion
    are not empty, as the matches of [\w+] are. *)
Theorem unmatched_opinions_sort_last get_xml words_of opinions xml_dir ordered :
  (forall html word, word ∈ words_of html -> word ≠ EmptyString) ->
  match_text get_xml words_of opinions xml_dir = Ok ordered ->
  exists first columbia_words,
    head opinions = Some first /\
    get_xml (replace (local_path first) "/home/mlissner/columbia/opinions" xml_dir)
    = Ok columbia_words /\
    ordered ≡ₚ (fun op => (id op, type op, match_index_of words_of columbia_words op))
                 <$> opinions /\
    (forall op,
       ~ uniquely_located columbia_words (words_of (html_columbia op)) ->
       match_index_of words_of columbia_words op
       = Z.of_nat (String.length columbia_words)) /\
    (forall op,
       uniquely_located columbia_words (words_of (html_columbia op)) ->
       0 <= match_index_of words_of columbia_words op
         < Z.of_nat (String.length columbia_words)) /\
    StronglySorted (fun a b => a.2 <= b.2) ordered /\
    (forall i j a b,
       ordered !! i = Some a -> ordered !! j = Some b ->
       a.2 = Z.of_nat (String.length columbia_words) ->
       b.2 < Z.of_nat (String.length columbia_words) ->
       (j < i)%nat).
Proof.
  intros Hwords. unfold match_text.
  destruct (first_item opinions) as [first| |] eqn:Hfirst; [|done..].
  cbn [and_then].
  destruct (get_xml _) as [columbia_words| |] eqn:Hxml; [|done..].
  cbn [and_then]. intros [= <-].
  exists first, columbia_words.
  split; [by destruct opinions; simplify_eq/=|]. split; [done|].
  split; [apply sorted_Permutation|].
  split; [intros op; by apply match_index_unmatched|].
  split; [intros op; by apply match_index_located|].
  split; [apply (sorted_ascending (fun x : Z * string * Z => x.2))|].
  intros i j a b Hi Hj Ha Hb.
  destruct (decide (j < i)%nat) as [|Hge]; [done|]. exfalso.
  destruct (decide (i = j)) as [->|Hne]; [simplify_eq; lia|].
  pose proof (ascending_lookup (fun x : Z * string * Z => x.2) _ i j a b
                (sorted_ascending _ _) Hi Hj) as Hle.
  lia.
Qed.

Lemma unmatched_opinions_sort_last_witness :
  match_text Cluster.get_xml Cluster.words_of Cluster.opinions Cluster.xml_dir
  = Ok [(2, "020lead", 4); (1, "040dissent", 14)] /\
  exists first columbia_words,
    head Cluster.opinions = Some first /\
    Cluster.get_xml
      (replace (local_path first) "/home/mlissner/columbia/opinions"
         Cluster.xml_dir)
    = Ok columbia_words /\
    [(2, "020lead", 4); (1, "040dissent", 14)]
    ≡ₚ (fun op =>
          (id op, type op, match_index_of Cluster.words_of columbia_words op))
       <$> Cluster.opinions /\
    (forall op,
       ~ uniquely_located columbia_words (Cluster.words_of (html_columbia op)) ->
       match_index_of Cluster.words_of columbia_words op
       = Z.of_nat (String.length columbia_words)) /\
    (forall op,
       uniquely_located columbia_words (Cluster.words_of (html_columbia op)) ->
       0 <= match_index_of Cluster.words_of columbia_words op
         < Z.of_nat (String.length columbia_words)) /\
    StronglySorted (fun a b => a.2 <= b.2)
      [(2, "020lead", 4); (1, "040dissent", 14)] /\
    (forall i j a b,
       [(2, "020lead", 4); (1, "040dissent", 14)] !! i = Some a ->
       [(2, "020lead", 4); (1, "040dissent", 14)] !! j = Some b ->
       a.2 = Z.of_nat (String.length columbia_words) ->
       b.2 < Z.of_nat (String.length columbia_words) ->
       (j < i)%nat).
Proof.
  split; [vm_compute; reflexivity|].
  apply (unmatched_opinions_sort_last Cluster.get_xml Cluster.words_of
           Cluster.opinions Cluster.xml_dir
           [(2, "020lead", 4); (1, "040dissent", 14)]).
  - intros html word. unfold Cluster.words_of.
    destruct (String.eqb_spec html "") as [|Hne]; intros Hin.
    + by apply elem_of_nil in Hin.
    + by apply list_elem_of_singleton in Hin as ->.
  - vm_compute. reflexivity.
Defined.

(** ** Maintenance mode *)

Import Middleware.

(** C10: with maintenance mode off the middleware raises
    [MiddlewareNotUsed] when it is built; with maintenance mode on, a
    request of a staff user, when staff is let through, gets the response
    of the rest of the stack unchanged, and every other request gets the
    maintenance page with status 503 and the headers that forbid
    caching. *)
Theorem maintenance_mode render_to_string http_date_now conf get_response request :
  (MAINTENANCE_MODE_ENABLED conf = false ->
   init conf get_response = Raise MiddlewareNotUsed) /\
  (MAINTENANCE_MODE_ENABLED conf = true ->
   exists self,
     init conf get_response = Ok self /\
     ((exists u, user request = Some u /\ is_staff u = true /\
                 MAINTENANCE_MODE_ALLOW_STAFF conf = true) ->
      call render_to_string http_date_now conf self request
      = get_response request) /\
     (~ (exists u, user request = Some u /\ is_staff u = true /\
                   MAINTENANCE_MODE_ALLOW_STAFF conf = true) ->
      status_code (call render_to_string http_date_now conf self request)
      = 503 /\
      content (call render_to_string http_date_now conf self request)
      = render_to_string "maintenance.html" [("private", true)] request /\
      headers (call render_to_string http_date_now conf self request)
        !! "Cache-Control"
      = Some "max-age=0, no-cache, no-store, must-revalidate, private" /\
      headers (call render_to_string http_date_now conf self request)
        !! "Expires"
      = Some http_date_now)).
Proof.
  split.
  - intros Hoff. unfold init. by rewrite Hoff.
  - intros Hon. eexists. split; [unfold init; by rewrite Hon|]. split.
    + intros (u & Hu & Hstaff & Hallow). unfold call.
      by rewrite Hu, Hallow, Hstaff.
    + intros Hnot.
      assert (Hcall : call render_to_string http_date_now conf
                        {| Middleware.get_response := get_response |} request
                      = add_never_cache_headers http_date_now
                          (render render_to_string request "maintenance.html"
                             [("private", true)] SERVICE_UNAVAILABLE)).
      { unfold call. destruct (user request) as [u|] eqn:Hu; [|done].
        destruct (MAINTENANCE_MODE_ALLOW_STAFF conf) eqn:Hallow; [|done].
        destruct (is_staff u) eqn:Hstaff; [|done].
        exfalso. apply Hnot. by exists u. }
      rewrite Hcall. split; [done|]. split; [done|]. split; [done|].
      simpl. rewrite lookup_insert_ne by done.
      rewrite lookup_singleton_ne by done. by rewrite lookup_insert_eq.
Qed.

Lemma maintenance_mode_witness :
  init {| MAINTENANCE_MODE_ENABLED := false; MAINTENANCE_MODE_ALLOW_STAFF := true |}
    (fun _ => {| status_code := 200; content := "ok"; headers := ∅ |})
  = Raise MiddlewareNotUsed /\
  exists self,
    init {| MAINTENANCE_MODE_ENABLED := true; MAINTENANCE_MODE_ALLOW_STAFF := true |}
      (fun _ => {| status_code := 200; content := "ok"; headers := ∅ |})
    = Ok self.
Proof.
  split.
  - apply (proj1 (maintenance_mode (fun _ _ _ => "down") "now"
                    {| MAINTENANCE_MODE_ENABLED := false;
                       MAINTENANCE_MODE_ALLOW_STAFF := true |}
                    (fun _ => {| status_code := 200; content := "ok"; headers := ∅ |})
                    {| path := "/"; user := None |})).
    reflexivity.
  - destruct (proj2 (maintenance_mode (fun _ _ _ => "down") "now"
                       {| MAINTENANCE_MODE_ENABLED := true;
                          MAINTENANCE_MODE_ALLOW_STAFF := true |}
                       (fun _ => {| status_code := 200; content := "ok"; headers := ∅ |})
                       {| path := "/"; user := None |}) eq_refl)
      as (self & Hinit & _).
    by exists self.
Defined.

(** * Further properties *)

(** ** The export command *)

Lemma sample_opinions_no_zero : 0 ∉ matching Manifest.Sample.opinions OPINION.
Proof. apply (bool_decide_unpack _). by vm_compute. Qed.

Lemma string_length_app (s t : string) :
  String.length (s +:+ t) = (String.length s + String.length t)%nat.
Proof.
  induction s as [|c s IH]; [done|].
  change (S (String.length (s +:+ t)) = S (String.length s + String.length t)).
  by rewrite IH.
Qed.

Lemma string_app_inv_tail (t s1 s2 : string) : s1 +:+ t = s2 +:+ t -> s1 = s2.
Proof.
  revert s2. induction s1 as [|c s1 IH]; intros [|c2 s2] H; [done| | |].
  - apply (f_equal String.length) in H. rewrite !string_length_app in H.
    simpl in H. lia.
  - apply (f_equal String.length) in H. rewrite !string_length_app in H.
    simpl in H. lia.
  - change (String c (s1 +:+ t) = String c2 (s2 +:+ t)) in H.
    injection H as -> H. f_equal. by apply IH.
Qed.

Lemma triple_eta {A B C} (x : A * B * C) : x = (x.1.1, x.1.2, x.2).
Proof. by destruct x as [[? ?] ?]. Qed.

Lemma outcome_eta {A B C} (x : A * B * C) (a : A) :
  x.1.1 = a -> x = (a, x.1.2, x.2).
Proof. destruct x as [[? ?] ?]. by intros <-. Qed.

Lemma hset_other (r : gmap string (gmap string string))
    (name key value other : string) :
  other ≠ name -> Redis.hset r name key value !! other = r !! other.
Proof. intros Hne. unfold Redis.hset. by rewrite lookup_insert_ne. Qed.

Lemma hset_mapping_other (r : gmap string (gmap string string))
    (name other : string) (mapping : list (string * string)) :
  other ≠ name -> Redis.hset_mapping r name mapping !! other = r !! other.
Proof.
  intros Hne. unfold Redis.hset_mapping. revert r.
  induction mapping as [|kv mapping IH]; intros r; [done|].
  simpl. by rewrite IH, hset_other.
Qed.

Section Frame.

Variable SEARCH_TYPES : search_type -> string.
Variable conns : connections.
Variable opts : options.

Abbreviation name := (import_status SEARCH_TYPES (record_type opts)).

Lemma replay_other r (evs : list event) (other : string) :
  Forall (writes_only name) evs -> other ≠ name ->
  replay r evs !! other = r !! other.
Proof.
  intros Hall Hne. revert r. induction Hall as [|ev evs Hev _ IH]; intros r; [done|].
  change (replay r (ev :: evs)) with (replay (apply_event r ev) evs).
  rewrite IH. destruct ev; simpl in *; subst; try done.
  - by apply hset_mapping_other.
  - unfold Redis.delete. by rewrite lookup_delete_ne.
Qed.

Lemma pass_writes_only total last_pk counter r o r' evs :
  pass SEARCH_TYPES conns opts total last_pk counter r o r' evs ->
  Forall (writes_only name) evs.
Proof. destruct 1; repeat constructor. Qed.

Lemma passes_writes_only total fuel last_pk counter r o r' evs :
  passes SEARCH_TYPES conns opts total fuel last_pk counter r o r' evs ->
  Forall (writes_only name) evs.
Proof.
  induction 1; try (by eapply pass_writes_only); [constructor|].
  apply Forall_app. split; [by eapply pass_writes_only | done].
Qed.

Lemma prelude_writes_only r total r1 evs0 :
  prelude SEARCH_TYPES conns opts r total r1 evs0 ->
  Forall (writes_only name) evs0.
Proof. destruct 1; repeat constructor. Qed.

Lemma run_writes_only fuel r o r' evs :
  run SEARCH_TYPES conns fuel opts r o r' evs ->
  Forall (writes_only name) evs.
Proof.
  destruct 1; [constructor|by eapply prelude_writes_only|..].
  - rewrite !Forall_app. split; [by eapply prelude_writes_only|].
    split; [by eapply passes_writes_only|]. by repeat constructor.
  - rewrite !Forall_app. split; [by eapply prelude_writes_only|].
    by eapply passes_writes_only.
Qed.

End Frame.

(** X1: a run writes to and deletes no hash of the Redis store other than
    the hash [{record_type}_import_status] of its record type: every
    other key of the store holds after the run what it held before. *)
Theorem other_hashes_untouched SEARCH_TYPES conns fuel opts r o r' evs other :
  other ≠ import_status SEARCH_TYPES (record_type opts) ->
  handle SEARCH_TYPES conns fuel opts r = (o, r', evs) ->
  Forall (writes_only (import_status SEARCH_TYPES (record_type opts))) evs /\
  r' !! other = r !! other.
Proof.
  intros Hne Hrun. apply handle_run in Hrun.
  pose proof (run_writes_only _ _ _ _ _ _ _ _ Hrun) as Hall.
  split; [done|].
  rewrite (run_replay _ _ _ _ _ _ _ _ Hrun).
  by apply (replay_other SEARCH_TYPES opts).
Qed.

Lemma other_hashes_untouched_witness :
  (handle Sample.codes Sample.conns 5 Sample.opts
     (<["rd_import_status" := {[ "last_pk" := "7" ]}]> Sample.resumed)).1.2
    !! "rd_import_status"
  = (<["rd_import_status" := {[ "last_pk" := "7" ]}]> Sample.resumed)
      !! "rd_import_status".
Proof.
  eapply (other_hashes_untouched Sample.codes Sample.conns 5 Sample.opts).
  - vm_compute. discriminate.
  - apply triple_eta.
Defined.

Lemma filelist_inj SEARCH_TYPES (type : search_type) (c1 c2 : Z) :
  filelist SEARCH_TYPES type c1 = filelist SEARCH_TYPES type c2 -> c1 = c2.
Proof.
  unfold filelist. intros H.
  apply String.app_inj in H. apply String.app_inj in H.
  apply string_app_inv_tail in H. by apply str_inj.
Qed.

(** X2: no two objects that one run puts to S3 have the same key, so
    that no manifest of a run is overwritten by a later one of that
    run. *)
Theorem upload_keys_distinct SEARCH_TYPES conns fuel opts r :
  NoDup ((fun u => u.1.1) <$> uploads (handle SEARCH_TYPES conns fuel opts r).2).
Proof.
  destruct (handle SEARCH_TYPES conns fuel opts r) as [[o r'] evs] eqn:Hrun.
  simpl. apply handle_run in Hrun.
  assert (Hloop : forall total last_pk counter r1 o2 r2 evs2,
    passes SEARCH_TYPES conns opts total fuel last_pk counter r1 o2 r2 evs2 ->
    NoDup ((fun u => u.1.1) <$> uploads evs2)).
  { intros total last_pk counter r1 o2 r2 evs2 Hloop.
    apply NoDup_alt. intros i j Key Hi Hj.
    apply list_lookup_fmap_Some in Hi as ([[Key1 Bucket1] Body1] & -> & Hi).
    apply list_lookup_fmap_Some in Hj as ([[Key2 Bucket2] Body2] & Heq & Hj).
    simpl in Heq.
    destruct (passes_upload _ _ _ _ _ _ _ _ _ _ _ _ _ _ _ Hloop Hi) as (HK1 & _).
    destruct (passes_upload _ _ _ _ _ _ _ _ _ _ _ _ _ _ _ Hloop Hj) as (HK2 & _).
    simpl in Heq. rewrite HK1, HK2 in Heq. apply filelist_inj in Heq. lia. }
  destruct Hrun as [e He | total r1 evs0 e Hpre Hn
                   | total r1 evs0 counter r2 evs Hpre Hn Hloop'
                   | total r1 evs0 counter o r2 evs Hpre Hn Hloop' Ho].
  - constructor.
  - apply prelude_pages in Hpre as [_ ->]. constructor.
  - apply prelude_pages in Hpre as [_ Hups].
    rewrite !uploads_app, Hups. simpl. rewrite app_nil_r. by eapply Hloop.
  - apply prelude_pages in Hpre as [_ Hups].
    rewrite !uploads_app, Hups. simpl. by eapply Hloop.
Qed.

Section Edges.

Variable SEARCH_TYPES : search_type -> string.
Variable conns : connections.
Variable opts : options.

Abbreviation name := (import_status SEARCH_TYPES (record_type opts)).
Abbreviation table :=
  (matching (connection_of conns (use_replica opts)) (record_type opts)).




Lemma fetch_limit_zero last_pk rows :
  query_batch_size opts = 0 -> fetch conns opts last_pk = Ok rows -> rows = [].
Proof.
  unfold fetch, params_of, query_of, get_custom_query, execute, and_then.
  intros ->. simpl. intros H.
  destruct (truthy last_pk); simpl in H; repeat case_match; by simplify_eq.
Qed.

Lemma pass_limit_zero total last_pk counter r o r' evs :
  query_batch_size opts = 0 ->
  pass SEARCH_TYPES conns opts total last_pk counter r o r' evs ->
  (forall last_pk' counter', o ≠ Ok (Continue last_pk' counter')) /\
  uploads evs = [] /\ Forall (fun rows => rows = []) (pages evs).
Proof.
  intros Hsize.
  destruct 1 as [e He | He | rows e He Hne Hm | rows csvfile e He Hne Hm
                | rows csvfile pk processed o He Hne Hm];
    try (by apply fetch_limit_zero in He).
  - split_and!; [done..|constructor].
  - split_and!; [done..|by repeat constructor].
Qed.

Lemma passes_limit_zero total fuel last_pk counter r o r' evs :
  query_batch_size opts = 0 ->
  passes SEARCH_TYPES conns opts total fuel last_pk counter r o r' evs ->
  uploads evs = [] /\ Forall (fun rows => rows = []) (pages evs).
Proof.
  intros Hsize.
  destruct 1 as [| ? ? ? ? ? ? Hpass | ? ? ? ? ? ? ? Hpass
                | ? ? ? ? ? ? ? ? ? ? ? Hpass _].
  - split; [done|constructor].
  - by destruct (pass_limit_zero _ _ _ _ _ _ _ Hsize Hpass) as (_ & ? & ?).
  - by destruct (pass_limit_zero _ _ _ _ _ _ _ Hsize Hpass) as (_ & ? & ?).
  - destruct (pass_limit_zero _ _ _ _ _ _ _ Hsize Hpass) as (Hno & _).
    by destruct (Hno last_pk' counter').
Qed.


Lemma hget_absent (r : gmap string (gmap string string)) (n key : string) :
  r !! n = None -> Redis.hget r n key = None.
Proof. intros H. unfold Redis.hget. by rewrite H. Qed.

End Edges.



(** X4: with a [--query-batch-size] of 0 every page is empty and nothing
    is put to S3; a run that starts without a checkpoint then ends
    without an error and leaves no checkpoint, whatever the table
    holds. *)
Theorem query_batch_size_zero SEARCH_TYPES conns fuel opts r o r' evs :
  query_batch_size opts = 0 ->
  handle SEARCH_TYPES conns fuel opts r = (o, r', evs) ->
  uploads evs = [] /\ Forall (fun rows => rows = []) (pages evs) /\
  (r !! import_status SEARCH_TYPES (record_type opts) = None ->
   (0 < fuel)%nat ->
   o = Ok tt /\ pages evs = [[]] /\
   r' !! import_status SEARCH_TYPES (record_type opts) = None).
Proof.
  intros Hsize Hrun.
  assert (Hany : uploads evs = [] /\ Forall (fun rows => rows = []) (pages evs)).
  { apply handle_run in Hrun.
    destruct Hrun as [e He | total r1 evs0 e Hpre Hn
                     | total r1 evs0 counter r2 evs Hpre Hn Hloop
                     | total r1 evs0 counter o r2 evs Hpre Hn Hloop Ho].
    - split; [done|constructor].
    - apply prelude_pages in Hpre as [-> ->]. split; [done|constructor].
    - apply prelude_pages in Hpre as [Hp Hu].
      destruct (passes_limit_zero _ _ _ _ _ _ _ _ _ _ _ Hsize Hloop) as (Hu' & Hp').
      rewrite !uploads_app, !pages_app, Hp, Hu, Hu'. simpl. by rewrite app_nil_r.
    - apply prelude_pages in Hpre as [Hp Hu].
      destruct (passes_limit_zero _ _ _ _ _ _ _ _ _ _ _ Hsize Hloop) as (Hu' & Hp').
      by rewrite !uploads_app, !pages_app, Hp, Hu, Hu'. }
  destruct Hany as [Hu Hp]. do 2 (split; [done|]).
  intros Hnone Hfuel. destruct fuel as [|fuel']; [lia|].
  assert (Hfetch : fetch conns opts PyNone = Ok []).
  { unfold fetch, params_of, query_of, get_custom_query, execute, and_then.
    rewrite Hsize. done. }
  assert (Hrun' : run SEARCH_TYPES conns (S fuel') opts r (Ok tt)
            (Redis.delete
               (Redis.hset_mapping r (import_status SEARCH_TYPES (record_type opts))
                  [("total_records",
                    str (count_rows (connection_of conns (use_replica opts))
                           (record_type opts)))])
               (import_status SEARCH_TYPES (record_type opts)))
            ([CountQuery (use_replica opts) (record_type opts)
                (count_rows (connection_of conns (use_replica opts)) (record_type opts));
              HSet (import_status SEARCH_TYPES (record_type opts))
                [("total_records",
                  str (count_rows (connection_of conns (use_replica opts))
                         (record_type opts)))]] ++
             [IdQuery (use_replica opts) (query_of opts PyNone) (params_of opts PyNone) []]
             ++ [Delete (import_status SEARCH_TYPES (record_type opts))])).
  { eapply run_finished with (counter := 0).
    - apply prelude_counts. by rewrite hget_absent.
    - unfold Redis.hset_mapping. simpl.
      rewrite hget_hset_ne by done. by rewrite hget_absent.
    - rewrite (hget_absent r _ "last_pk") by done. simpl.
      apply passes_break. by apply pass_break. }
  apply run_handle in Hrun'. rewrite Hrun' in Hrun. simplify_eq.
  split; [done|]. split; [done|]. unfold Redis.delete. apply lookup_delete_eq.
Qed.

Lemma query_batch_size_zero_witness :
  (handle Sample.codes Sample.conns 5 Sample.opts_none ∅).1.1 = Ok tt /\
  pages (handle Sample.codes Sample.conns 5 Sample.opts_none ∅).2 = [[]] /\
  uploads (handle Sample.codes Sample.conns 5 Sample.opts_none ∅).2 = [] /\
  (handle Sample.codes Sample.conns 5 Sample.opts_none ∅).1.2
    !! "o_import_status" = None.
Proof.
  destruct (query_batch_size_zero Sample.codes Sample.conns 5 Sample.opts_none ∅
              _ _ _ eq_refl (triple_eta _))
    as (Hu & _ & Hfresh).
  destruct (Hfresh ltac:(done) ltac:(lia)) as (Ho & Hp & Hr).
  by split_and!.
Defined.

(** ** What a finished run has exported *)

Lemma ascending_NoDup (l : list Z) : StronglySorted Z.lt l -> NoDup l.
Proof.
  induction 1 as [|x l Hl IH Hx]; constructor; [|done].
  intros Hin. rewrite Forall_forall in Hx. specialize (Hx x Hin). lia.
Qed.

Lemma ascending_same (l1 l2 : list Z) :
  StronglySorted Z.lt l1 -> StronglySorted Z.lt l2 ->
  (forall x, x ∈ l1 <-> x ∈ l2) -> l1 = l2.
Proof.
  intros H1 H2 Hsame.
  apply (StronglySorted_unique_strong Z.lt); [intros; lia|done..|].
  apply NoDup_Permutation; [by apply ascending_NoDup..|done].
Qed.

Lemma elem_of_ordered (x : Z) (ids : list Z) : x ∈ ordered ids <-> x ∈ ids.
Proof. unfold ordered. by rewrite merge_sort_Permutation. Qed.

Section Coverage.

Variable SEARCH_TYPES : search_type -> string.
Variable conns : connections.
Variable opts : options.

Abbreviation name := (import_status SEARCH_TYPES (record_type opts)).
Abbreviation table :=
  (matching (connection_of conns (use_replica opts)) (record_type opts)).
Abbreviation rest :=
  (rows_after (connection_of conns (use_replica opts)) (record_type opts)).

Lemma rest_ascending last_pk : StronglySorted Z.lt (rest last_pk).
Proof.
  unfold rows_after. repeat case_match; try constructor;
    apply ordered_ascending; try apply NoDup_filter; apply NoDup_elements.
Qed.

Lemma rest_among last_pk x : x ∈ rest last_pk -> x ∈ table.
Proof.
  unfold rows_after. repeat case_match; rewrite ?elem_of_ordered;
    try (by intros ?%elem_of_nil).
  - intros [_ Hx]%list_elem_of_filter. by apply elem_of_elements in Hx.
  - by intros Hx%elem_of_elements.
Qed.

Lemma rest_upward last_pk x y :
  x ∈ rest last_pk -> y ∈ table -> x < y -> y ∈ rest last_pk.
Proof.
  unfold rows_after. repeat case_match; rewrite ?elem_of_ordered;
    try (by intros ?%elem_of_nil).
  - intros [Hx _]%list_elem_of_filter Hy Hlt.
    apply list_elem_of_filter. split; [lia|]. by apply elem_of_elements.
  - intros _ Hy _. by apply elem_of_elements.
Qed.

Lemma fetch_rest last_pk rows :
  fetch conns opts last_pk = Ok rows ->
  0 <= query_batch_size opts /\
  rows = take (Z.to_nat (query_batch_size opts)) (rest last_pk).
Proof.
  unfold fetch, params_of, query_of, get_custom_query, execute, and_then,
    rows_after, limit.
  simpl. destruct (truthy last_pk); simpl; intros H;
    repeat case_match; simplify_eq; split; try done; try lia.
  by rewrite take_nil.
Qed.

Lemma rest_next last_pk rows pk :
  0 ∉ table ->
  fetch conns opts last_pk = Ok rows -> last rows = Some pk ->
  rest (PyInt pk) = drop (Z.to_nat (query_batch_size opts)) (rest last_pk).
Proof.
  intros Hzero Hfetch Hpk. apply fetch_rest in Hfetch as [_ ->].
  set (n := Z.to_nat (query_batch_size opts)) in *.
  pose proof (rest_ascending last_pk) as Hs.
  rewrite <- (take_drop n (rest last_pk)) in Hs.
  assert (Hin : pk ∈ rest last_pk).
  { apply last_Some_elem_of in Hpk. by apply elem_of_take in Hpk as (? & ?%list_elem_of_lookup_2 & _). }
  assert (Hne : pk ≠ 0) by (intros ->; by apply Hzero, (rest_among last_pk)).
  apply ascending_same.
  - apply rest_ascending.
  - by apply StronglySorted_app_1_r in Hs.
  - intros x. split.
    + intros Hx.
      assert (Hxt : x ∈ table) by (by eapply rest_among).
      assert (Hlt : pk < x).
      { revert Hx. unfold rows_after. simpl.
        destruct (Z.eqb_spec pk 0); [done|]. simpl.
        rewrite elem_of_ordered. by intros [? _]%list_elem_of_filter. }
      pose proof (rest_upward last_pk pk x Hin Hxt Hlt) as Hx'.
      rewrite <- (take_drop n (rest last_pk)) in Hx'.
      apply elem_of_app in Hx' as [Hx'|]; [|done].
      apply StronglySorted_app_1_l in Hs.
      pose proof (ascending_last _ _ Hs Hpk) as Hle.
      rewrite Forall_forall in Hle. specialize (Hle x Hx'). lia.
    + intros Hx.
      assert (Hlt : pk < x).
      { eapply (StronglySorted_app_1_elem_of Z.lt); [done| |done].
        by apply last_Some_elem_of. }
      assert (Hxt : x ∈ table).
      { eapply (rest_among last_pk). rewrite <- (take_drop n (rest last_pk)).
        apply elem_of_app. by right. }
      unfold rows_after. simpl. destruct (Z.eqb_spec pk 0); [done|]. simpl.
      rewrite elem_of_ordered. apply list_elem_of_filter.
      split; [done|]. by apply elem_of_elements.
Qed.

(** A loop that ends without an error has fetched everything its first
    query ranges over. *)
Lemma passes_cover total fuel last_pk counter r r' evs :
  0 < query_batch_size opts -> 0 ∉ table ->
  passes SEARCH_TYPES conns opts total fuel last_pk counter r (Ok tt) r' evs ->
  concat (pages evs) = rest last_pk.
Proof.
  intros Hsize Hzero H. remember (Ok tt) as o eqn:Ho.
  induction H as [| ? ? ? ? ? ? Hpass | ? ? ? ? ? ? ? Hpass
                  | ? last_pk ? ? ? ? ? ? ? ? ? Hpass Hrest IH]; try done.
  - apply pass_break_inv in Hpass as (Hfetch & _ & ->). simpl.
    apply fetch_rest in Hfetch as [_ Hnil].
    destruct (rest last_pk) as [|x l]; [done|].
    destruct (Z.to_nat (query_batch_size opts)) eqn:Hn; [lia|done].
  - apply pass_continue_inv in Hpass
      as (rows & csvfile & pk & processed & Hfetch & Hne & _ & Hpk & _ & _
          & -> & -> & _ & ->).
    rewrite pages_app. simpl. rewrite (IH Ho).
    rewrite (rest_next _ _ _ Hzero Hfetch Hpk).
    apply fetch_rest in Hfetch as [_ ->]. apply take_drop.
Qed.

End Coverage.

(** X5: a run that ends without an error has fetched, page after page
    and in ascending order, every matching row once: all rows of the
    table when no [last_pk] was stored, the rows with a key greater than
    the stored one otherwise.  The batch size is at least 1 and no row
    has the key 0, which the loop would read as no key. *)
Theorem finished_run_exports_the_rest SEARCH_TYPES conns fuel opts r r' evs :
  0 < query_batch_size opts ->
  0 ∉ matching (connection_of conns (use_replica opts)) (record_type opts) ->
  handle SEARCH_TYPES conns fuel opts r = (Ok tt, r', evs) ->
  (Redis.hget r (import_status SEARCH_TYPES (record_type opts)) "last_pk" = None ->
   concat (pages evs)
   = ordered (elements (matching (connection_of conns (use_replica opts))
                          (record_type opts)))) /\
  (forall stored after,
     Redis.hget r (import_status SEARCH_TYPES (record_type opts)) "last_pk"
     = Some stored ->
     int_of_str stored = Ok after ->
     concat (pages evs)
     = ordered (filter (fun i => after < i)
                  (elements (matching (connection_of conns (use_replica opts))
                               (record_type opts))))).
Proof.
  intros Hsize Hzero Hrun. apply handle_run in Hrun.
  assert (Hpages : concat (pages evs)
    = rows_after (connection_of conns (use_replica opts)) (record_type opts)
        (of_hget (Redis.hget r (import_status SEARCH_TYPES (record_type opts))
                    "last_pk"))).
  { inversion Hrun as [| | total r1 evs0 counter r2 evs2 Hpre Hn Hloop
                       | total r1 evs0 counter o2 r2 evs2 Hpre Hn Hloop Ho];
      subst; [|done].
    apply prelude_pages in Hpre as [Hp _].
    rewrite !pages_app, Hp. simpl. rewrite app_nil_r.
    by eapply passes_cover. }
  split.
  - intros Hnone. by rewrite Hpages, Hnone.
  - intros stored after Hstored Hafter. rewrite Hpages, Hstored.
    unfold rows_after. simpl.
    by rewrite (int_of_str_nonempty _ _ Hafter), Hafter.
Qed.

Lemma finished_run_exports_the_rest_witness :
  pages (handle Sample.codes Sample.conns 5 Sample.opts Sample.resumed).2
  = [[5; 9]; []] /\
  concat (pages (handle Sample.codes Sample.conns 5 Sample.opts Sample.resumed).2)
  = ordered (filter (fun i => 3 < i) (elements (matching Sample.opinions OPINION))).
Proof.
  split; [vm_compute; reflexivity|].
  eapply (finished_run_exports_the_rest Sample.codes Sample.conns 5 Sample.opts
            Sample.resumed).
  - simpl. lia.
  - apply sample_opinions_no_zero.
  - apply outcome_eta. vm_compute. reflexivity.
  - vm_compute. reflexivity.
  - vm_compute. reflexivity.
Defined.

(** ** A run from scratch *)


Section Finish.

Variable SEARCH_TYPES : search_type -> string.
Variable conns : connections.
Variable opts : options.

Abbreviation name := (import_status SEARCH_TYPES (record_type opts)).
Abbreviation table :=
  (matching (connection_of conns (use_replica opts)) (record_type opts)).
Abbreviation rest :=
  (rows_after (connection_of conns (use_replica opts)) (record_type opts)).

Lemma hget_checkpoint_counter r pk counter processed :
  Redis.hget (Redis.hset_mapping r name (checkpoint pk counter processed))
    name "next_iteration_counter" = Some (str counter).
Proof.
  unfold Redis.hset_mapping, checkpoint. simpl.
  rewrite !hget_hset_ne by done. apply hget_hset.
Qed.

Lemma hget_checkpoint_processed r pk counter processed :
  Redis.hget (Redis.hset_mapping r name (checkpoint pk counter processed))
    name "records_processed" = Some (str processed).
Proof. unfold Redis.hset_mapping, checkpoint. simpl. apply hget_hset. Qed.

Lemma hget_checkpoint_total r pk counter processed :
  Redis.hget (Redis.hset_mapping r name (checkpoint pk counter processed))
    name "total_records" = Redis.hget r name "total_records".
Proof.
  unfold Redis.hset_mapping, checkpoint. simpl. by rewrite !hget_hset_ne.
Qed.



End Finish.



(** ** The checkpoint at the head of the loop *)

Section Account.

Variable SEARCH_TYPES : search_type -> string.
Variable conns : connections.
Variable opts : options.

Abbreviation name := (import_status SEARCH_TYPES (record_type opts)).

Lemma passes_cut_quiet total fuel last_pk counter r r' evs :
  passes SEARCH_TYPES conns opts total fuel last_pk counter r Timeout r' evs ->
  pages evs = [] -> r' = r /\ evs = [].
Proof.
  inversion 1 as [| | | ? ? ? ? ? ? ? evs1 ? ? evs2 Hpass Hrest]; subst; [done|].
  intros Hp. rewrite pages_app in Hp.
  apply pass_continue_inv in Hpass as (? & ? & ? & ? & _ & _ & _ & _ & _ & _
                                        & _ & _ & _ & ->).
  done.
Qed.

(** After the passes of a loop that is stopped at its head, the
    checkpoint holds the last key fetched, the counter of the next
    manifest and the number of rows fetched so far. *)
Lemma passes_account total fuel last_pk counter r r' evs :
  passes SEARCH_TYPES conns opts total fuel last_pk counter r Timeout r' evs ->
  pages evs ≠ [] ->
  exists p0 pk,
    int_or_0 (Redis.hget r name "records_processed") = Ok p0 /\
    last (concat (pages evs)) = Some pk /\
    Redis.hget r' name "last_pk" = Some (str pk) /\
    Redis.hget r' name "next_iteration_counter"
    = Some (str (counter + len (pages evs))) /\
    Redis.hget r' name "records_processed"
    = Some (str (p0 + len (concat (pages evs)))) /\
    length (uploads evs) = length (pages evs) /\
    Forall (fun rows => rows ≠ []) (pages evs).
Proof.
  intros H. remember Timeout as o eqn:Ho.
  induction H as [| ? ? ? ? ? ? Hpass | ? ? ? ? ? ? ? Hpass
                  | ? last_pk counter r last_pk' counter' r1 evs1 o r2 evs2
                      Hpass Hrest IH]; try done.
  intros _. subst o.
  apply pass_continue_inv in Hpass
    as (rows & csvfile & pk & processed & Hfetch & Hne & _ & Hpk & Hproc & _
        & -> & -> & -> & ->).
  exists processed.
  destruct (decide (pages evs2 = [])) as [Hnil|Hsome].
  - destruct (passes_cut_quiet _ _ _ _ _ _ _ Hrest Hnil) as [-> ->].
    exists pk.
    rewrite hget_checkpoint, hget_checkpoint_counter, hget_checkpoint_processed.
    simpl. rewrite app_nil_r.
    split_and!; try done. by repeat constructor.
  - destruct (IH eq_refl Hsome) as (p0 & pk' & Hp0 & Hlast & Hl & Hc & Hp & Hu & Hall).
    rewrite hget_checkpoint_processed, int_or_0_str in Hp0. simplify_eq.
    exists pk'. rewrite pages_app, uploads_app. simpl.
    split_and!; try done.
    + destruct (concat (pages evs2)) as [|x l] eqn:Hc2; [done|].
      by rewrite last_app, Hlast.
    + rewrite Hc. do 2 f_equal. unfold len. simpl. lia.
    + rewrite Hp. do 2 f_equal. unfold len. rewrite length_app. lia.
    + by rewrite Hu.
    + by constructor.
Qed.

End Account.

(** X8: when the loop is stopped at its head after one pass or more, the
    checkpoint accounts for what was done: [last_pk] is the last key
    fetched, [next_iteration_counter] is the stored counter plus the
    number of pages, [records_processed] is the stored count plus the
    number of rows fetched, and every page had rows and was put to S3. *)
Theorem checkpoint_accounts_for_the_pages SEARCH_TYPES conns fuel opts r r' evs :
  handle SEARCH_TYPES conns fuel opts r = (Timeout, r', evs) ->
  pages evs ≠ [] ->
  exists c0 p0 pk,
    int_or_0 (Redis.hget r (import_status SEARCH_TYPES (record_type opts))
                "next_iteration_counter") = Ok c0 /\
    int_or_0 (Redis.hget r (import_status SEARCH_TYPES (record_type opts))
                "records_processed") = Ok p0 /\
    last (concat (pages evs)) = Some pk /\
    Redis.hget r' (import_status SEARCH_TYPES (record_type opts)) "last_pk"
    = Some (str pk) /\
    Redis.hget r' (import_status SEARCH_TYPES (record_type opts))
      "next_iteration_counter"
    = Some (str (c0 + len (pages evs))) /\
    Redis.hget r' (import_status SEARCH_TYPES (record_type opts))
      "records_processed"
    = Some (str (p0 + len (concat (pages evs)))) /\
    length (uploads evs) = length (pages evs) /\
    Forall (fun rows => rows ≠ []) (pages evs).
Proof.
  intros Hrun Hpages. apply handle_run in Hrun.
  inversion Hrun as [| | | total r1 evs0 counter o r2 evs2 Hpre Hn Hloop Ho]; subst.
  pose proof (prelude_pages _ _ _ _ _ _ _ Hpre) as [Hp Hu].
  rewrite pages_app, uploads_app, Hp, Hu in *. simpl in *.
  destruct (passes_account _ _ _ _ _ _ _ _ _ _ Hloop Hpages)
    as (p0 & pk & Hp0 & Hlast & Hl & Hc & Hproc & Hups & Hall).
  rewrite (prelude_hget _ _ _ _ _ _ _ _ Hpre) in Hn by done.
  rewrite (prelude_hget _ _ _ _ _ _ _ _ Hpre) in Hp0 by done.
  by exists counter, p0, pk.
Qed.

Lemma checkpoint_accounts_for_the_pages_witness :
  pages (handle Sample.codes Sample.conns 1 Sample.opts Sample.resumed).2
  = [[5; 9]] /\
  exists c0 p0 pk,
    int_or_0 (Redis.hget Sample.resumed "o_import_status"
                "next_iteration_counter") = Ok c0 /\
    int_or_0 (Redis.hget Sample.resumed "o_import_status"
                "records_processed") = Ok p0 /\
    last (concat (pages (handle Sample.codes Sample.conns 1 Sample.opts
                           Sample.resumed).2)) = Some pk /\
    Redis.hget (handle Sample.codes Sample.conns 1 Sample.opts Sample.resumed).1.2
      "o_import_status" "last_pk" = Some (str pk) /\
    Redis.hget (handle Sample.codes Sample.conns 1 Sample.opts Sample.resumed).1.2
      "o_import_status" "next_iteration_counter"
    = Some (str (c0 + len (pages (handle Sample.codes Sample.conns 1 Sample.opts
                                    Sample.resumed).2))) /\
    Redis.hget (handle Sample.codes Sample.conns 1 Sample.opts Sample.resumed).1.2
      "o_import_status" "records_processed"
    = Some (str (p0 + len (concat (pages (handle Sample.codes Sample.conns 1
                                            Sample.opts Sample.resumed).2)))) /\
    length (uploads (handle Sample.codes Sample.conns 1 Sample.opts
                       Sample.resumed).2)
    = length (pages (handle Sample.codes Sample.conns 1 Sample.opts
                       Sample.resumed).2) /\
    Forall (fun rows => rows ≠ [])
      (pages (handle Sample.codes Sample.conns 1 Sample.opts Sample.resumed).2).
Proof.
  split; [vm_compute; reflexivity|].
  eapply (checkpoint_accounts_for_the_pages Sample.codes Sample.conns 1
            Sample.opts Sample.resumed).
  - apply outcome_eta. vm_compute. reflexivity.
  - vm_compute. discriminate.
Defined.

(** ** A run that is stopped and started again *)

Lemma hset_same (r : gmap string (gmap string string)) (n key value : string) :
  Redis.hget r n key = Some value -> Redis.hset r n key value = r.
Proof.
  unfold Redis.hget, Redis.hset. intros H.
  destruct (r !! n) as [h|] eqn:Hn; [|done]. simpl in *.
  rewrite (insert_id h) by done. by apply insert_id.
Qed.

Section Resume.

Variable SEARCH_TYPES : search_type -> string.
Variable conns : connections.
Variable opts : options.

Abbreviation name := (import_status SEARCH_TYPES (record_type opts)).
Abbreviation table :=
  (matching (connection_of conns (use_replica opts)) (record_type opts)).

(** The key of a row selects the same rows as an integer and as the text
    that Redis hands back. *)
Lemma fetch_key (pk : Z) :
  pk ≠ 0 -> fetch conns opts (PyStr (str pk)) = fetch conns opts (PyInt pk).
Proof.
  intros Hne. unfold fetch, params_of, query_of, get_custom_query. simpl.
  rewrite (int_of_str_nonempty _ pk) by apply int_of_str_str.
  destruct (Z.eqb_spec pk 0); [done|]. simpl.
  unfold execute. simpl. by rewrite int_of_str_str.
Qed.

Lemma pass_key total (pk : Z) counter r o r' evs :
  pk ≠ 0 ->
  pass SEARCH_TYPES conns opts total (PyStr (str pk)) counter r o r' evs ->
  exists evs',
    pass SEARCH_TYPES conns opts total (PyInt pk) counter r o r' evs' /\
    pages evs' = pages evs /\ uploads evs' = uploads evs.
Proof.
  intros Hne H.
  inversion H as [e He | He | rows e He Hne' Hm | rows csvfile e He Hne' Hm Hp
                 | rows csvfile pk' processed o' He Hne' Hm Hpk Hp Ho]; subst;
    rewrite fetch_key in He by done; eexists.
  - split; [by apply pass_query_raises | done].
  - split; [by apply pass_break | done].
  - split; [by eapply pass_manifest_raises | done].
  - split; [by eapply pass_processed_raises | done].
  - split; [by eapply pass_commit | done].
Qed.

Lemma passes_key total fuel (pk : Z) counter r o r' evs :
  pk ≠ 0 ->
  passes SEARCH_TYPES conns opts total fuel (PyStr (str pk)) counter r o r' evs ->
  exists evs',
    passes SEARCH_TYPES conns opts total fuel (PyInt pk) counter r o r' evs' /\
    pages evs' = pages evs /\ uploads evs' = uploads evs.
Proof.
  intros Hne H.
  inversion H as [| ? ? ? ? ? ? Hpass | ? ? ? ? ? ? ? Hpass
                  | ? ? ? ? last_pk' counter' r1 evs1 ? ? evs2 Hpass Hrest]; subst.
  - exists []. split; [constructor | done].
  - destruct (pass_key _ _ _ _ _ _ _ Hne Hpass) as (evs' & Hpass' & Hp & Hu).
    exists evs'. split; [by apply passes_break | done].
  - destruct (pass_key _ _ _ _ _ _ _ Hne Hpass) as (evs' & Hpass' & Hp & Hu).
    exists evs'. split; [by apply passes_raise | done].
  - destruct (pass_key _ _ _ _ _ _ _ Hne Hpass) as (evs' & Hpass' & Hp & Hu).
    exists (evs' ++ evs2). split; [by eapply passes_continue|].
    by rewrite !pages_app, !uploads_app, Hp, Hu.
Qed.

(** Where a loop that is stopped at its head stands: the passes that
    follow from there carry on the run, and the checkpoint holds the key
    and the counter that the loop holds. *)
Lemma passes_cut total fuel1 last_pk counter r rT evsT :
  passes SEARCH_TYPES conns opts total fuel1 last_pk counter r Timeout rT evsT ->
  exists lpT cT,
    (forall fuel2 o r2 evs2,
       passes SEARCH_TYPES conns opts total fuel2 lpT cT rT o r2 evs2 ->
       passes SEARCH_TYPES conns opts total (fuel1 + fuel2) last_pk counter r
         o r2 (evsT ++ evs2)) /\
    ((lpT = last_pk /\ cT = counter /\ rT = r /\ evsT = []) \/
     (exists pk, lpT = PyInt pk /\ pk ∈ table /\
        Redis.hget rT name "last_pk" = Some (str pk) /\
        Redis.hget rT name "next_iteration_counter" = Some (str cT))) /\
    Redis.hget rT name "total_records" = Redis.hget r name "total_records".
Proof.
  intros H. remember Timeout as o eqn:Ho.
  induction H as [| ? ? ? ? ? ? Hpass | ? ? ? ? ? ? ? Hpass
                  | fuel last_pk counter r last_pk' counter' r1 evs1 o rT evs2
                      Hpass Hrest IH]; try done.
  - exists last_pk, counter. split; [by intros|]. split; [by left | done].
  - subst o. destruct (IH eq_refl) as (lpT & cT & Hcomp & Hstate & Htotal).
    exists lpT, cT. split; [|split].
    + intros fuel2 o r2 evs3 Hnext. rewrite <- app_assoc. simpl.
      eapply passes_continue; [done|]. by apply Hcomp.
    + right.
      apply pass_continue_inv in Hpass
        as (rows & csvfile & pk & processed & Hfetch & Hne & _ & Hpk & _ & _
            & -> & -> & -> & _).
      destruct Hstate as [(-> & -> & -> & _)|Hstate]; [|done].
      exists pk. split; [done|]. split.
      * apply last_Some_elem_of in Hpk.
        pose proof (fetch_among _ _ _ _ Hfetch) as Hall.
        rewrite Forall_forall in Hall. by apply Hall.
      * by rewrite hget_checkpoint, hget_checkpoint_counter.
    + rewrite Htotal.
      apply pass_continue_inv in Hpass
        as (rows & csvfile & pk & processed & _ & _ & _ & _ & _ & _
            & _ & _ & -> & _).
      apply hget_checkpoint_total.
Qed.

(** The code before the loop, run again on the store of a run that was
    stopped, fixes the same total and leaves the store as it is. *)
Lemma prelude_again r total rp evs0 rT total' rT' evs0' :
  prelude SEARCH_TYPES conns opts r total rp evs0 ->
  Redis.hget rT name "total_records" = Redis.hget rp name "total_records" ->
  prelude SEARCH_TYPES conns opts rT total' rT' evs0' ->
  total' = total /\ rT' = rT.
Proof.
  intros Hpre Htotal Hpre'.
  assert (Hstored : int_or_0 (Redis.hget rT name "total_records") = Ok total /\
                    (total = 0 ->
                     Redis.hget rT name "total_records" = Some (str total))).
  { rewrite Htotal. destruct Hpre as [Hc|total Hc Hne]; [|done].
    unfold Redis.hset_mapping. simpl. rewrite hget_hset.
    split; [apply int_or_0_str | done]. }
  destruct Hstored as [Hc Hzero].
  destruct Hpre' as [Hc'|total' Hc' Hne'].
  - rewrite Hc in Hc'. injection Hc' as Hc'.
    assert (Heq : count_rows (connection_of conns (use_replica opts))
                    (record_type opts) = total).
    { destruct Hpre as [|]; [done|congruence]. }
    split; [done|]. rewrite Heq.
    unfold Redis.hset_mapping. simpl. apply hset_same. by apply Hzero.
  - split; [congruence | done].
Qed.

Lemma prelude_parses r total rp evs0 :
  prelude SEARCH_TYPES conns opts r total rp evs0 ->
  exists n, int_or_0 (Redis.hget rp name "total_records") = Ok n.
Proof.
  destruct 1 as [Hc|total Hc Hne]; [|by exists total].
  unfold Redis.hset_mapping. simpl. rewrite hget_hset.
  eexists. apply int_or_0_str.
Qed.

End Resume.

(** X9: a run whose loop is stopped at its head and which is started
    again on the store it leaves goes on where it stopped: the second run
    ends as one run with the passes of both would, with the same store,
    and the pages fetched and the objects put to S3 by the two runs, one
    after the other, are those of that one run.  No row has the key 0,
    which the loop would read as no key. *)
Theorem stopped_run_resumes SEARCH_TYPES conns fuel1 fuel2 opts r r1 evs1 o r2 evs2 :
  0 ∉ matching (connection_of conns (use_replica opts)) (record_type opts) ->
  handle SEARCH_TYPES conns fuel1 opts r = (Timeout, r1, evs1) ->
  handle SEARCH_TYPES conns fuel2 opts r1 = (o, r2, evs2) ->
  exists evs,
    handle SEARCH_TYPES conns (fuel1 + fuel2) opts r = (o, r2, evs) /\
    pages evs = pages evs1 ++ pages evs2 /\
    uploads evs = uploads evs1 ++ uploads evs2.
Proof.
  intros Hzero Hrun1 Hrun2. apply handle_run in Hrun1, Hrun2.
  inversion Hrun1 as [| | | total rp evs0 counter o1 rT evsT Hpre Hn Hloop Ho];
    subst.
  destruct (passes_cut _ _ _ _ _ _ _ _ _ _ Hloop)
    as (lpT & cT & Hcomp & Hstate & Htotal).
  pose proof (prelude_pages _ _ _ _ _ _ _ Hpre) as [Hp0 Hu0].
  assert (Hcounter :
    int_or_0 (Redis.hget r1 (import_status SEARCH_TYPES (record_type opts))
                "next_iteration_counter") = Ok cT).
  { destruct Hstate as [(_ & -> & -> & _)|(pk & _ & _ & _ & ->)];
      [done | apply int_or_0_str]. }
  assert (Hgo : forall o' r2' evs2',
    passes SEARCH_TYPES conns opts total fuel2
      (of_hget (Redis.hget r1 (import_status SEARCH_TYPES (record_type opts))
                  "last_pk")) cT r1 o' r2' evs2' ->
    exists evs',
      passes SEARCH_TYPES conns opts total (fuel1 + fuel2)
        (of_hget (Redis.hget r (import_status SEARCH_TYPES (record_type opts))
                    "last_pk")) counter rp o' r2' (evsT ++ evs') /\
      pages evs' = pages evs2' /\ uploads evs' = uploads evs2').
  { intros o' r2' evs2' Hnext.
    destruct Hstate as [(-> & _ & -> & _)|(pk & -> & Hin & Hl & _)].
    - rewrite (prelude_hget _ _ _ _ _ _ _ _ Hpre) in Hnext by done.
      exists evs2'. split; [by apply Hcomp | done].
    - rewrite Hl in Hnext. simpl in Hnext.
      assert (Hne : pk ≠ 0) by (by intros ->).
      destruct (passes_key _ _ _ _ _ _ _ _ _ _ _ Hne Hnext)
        as (evs' & Hnext' & Hp & Hu).
      exists evs'. split; [by apply Hcomp | done]. }
  inversion Hrun2 as [e He | total' r1' evs0' e Hpre' Hn'
                     | total' r1' evs0' counter' r2' evs2' Hpre' Hn' Hloop'
                     | total' r1' evs0' counter' o' r2' evs2' Hpre' Hn' Hloop' Ho'];
    subst.
  - destruct (prelude_parses _ _ _ _ _ _ _ Hpre) as (n & Hparse).
    rewrite <- Htotal in Hparse. congruence.
  - destruct (prelude_again _ _ _ _ _ _ _ _ _ _ _ Hpre Htotal Hpre') as [-> ->].
    congruence.
  - destruct (prelude_again _ _ _ _ _ _ _ _ _ _ _ Hpre Htotal Hpre') as [-> ->].
    rewrite Hcounter in Hn'. injection Hn' as <-.
    destruct (Hgo _ _ _ Hloop') as (evs' & Hall & Hp & Hu).
    eexists. split; [apply run_handle; by eapply run_finished|].
    pose proof (prelude_pages _ _ _ _ _ _ _ Hpre') as [Hp0' Hu0'].
    rewrite !pages_app, !uploads_app, Hp, Hu, Hp0', Hu0'. simpl.
    by rewrite !app_nil_r, !app_assoc.
  - destruct (prelude_again _ _ _ _ _ _ _ _ _ _ _ Hpre Htotal Hpre') as [-> ->].
    rewrite Hcounter in Hn'. injection Hn' as <-.
    destruct (Hgo _ _ _ Hloop') as (evs' & Hall & Hp & Hu).
    eexists. split; [apply run_handle; by eapply run_stopped|].
    pose proof (prelude_pages _ _ _ _ _ _ _ Hpre') as [Hp0' Hu0'].
    rewrite !pages_app, !uploads_app, Hp, Hu, Hp0', Hu0'. simpl.
    by rewrite !app_assoc.
Qed.

Lemma stopped_run_resumes_witness :
  pages (handle Sample.codes Sample.conns 1 Sample.opts ∅).2 = [[1; 2; 3]] /\
  pages (handle Sample.codes Sample.conns 4 Sample.opts
           (handle Sample.codes Sample.conns 1 Sample.opts ∅).1.2).2
  = [[5; 9]; []] /\
  exists evs,
    handle Sample.codes Sample.conns (1 + 4) Sample.opts ∅
    = ((handle Sample.codes Sample.conns 4 Sample.opts
          (handle Sample.codes Sample.conns 1 Sample.opts ∅).1.2).1.1,
       (handle Sample.codes Sample.conns 4 Sample.opts
          (handle Sample.codes Sample.conns 1 Sample.opts ∅).1.2).1.2,
       evs) /\
    pages evs
    = pages (handle Sample.codes Sample.conns 1 Sample.opts ∅).2 ++
      pages (handle Sample.codes Sample.conns 4 Sample.opts
               (handle Sample.codes Sample.conns 1 Sample.opts ∅).1.2).2 /\
    uploads evs
    = uploads (handle Sample.codes Sample.conns 1 Sample.opts ∅).2 ++
      uploads (handle Sample.codes Sample.conns 4 Sample.opts
                 (handle Sample.codes Sample.conns 1 Sample.opts ∅).1.2).2.
Proof.
  split; [vm_compute; reflexivity|]. split; [vm_compute; reflexivity|].
  eapply (stopped_run_resumes Sample.codes Sample.conns 1 4 Sample.opts ∅).
  - apply sample_opinions_no_zero.
  - apply outcome_eta. vm_compute. reflexivity.
  - apply triple_eta.
Defined.

(** ** The checkpoint of a page *)

Section Checkpoints.

Variable SEARCH_TYPES : search_type -> string.
Variable conns : connections.
Variable opts : options.

Abbreviation name := (import_status SEARCH_TYPES (record_type opts)).
Abbreviation table :=
  (matching (connection_of conns (use_replica opts)) (record_type opts)).





End Checkpoints.




(** ** The text of the statements *)

(** X10: the statement that [get_custom_query] builds has one [%s] more
    than it returns parameters, the one of [LIMIT], to which the command
    adds the batch size; it holds [id > %s] exactly when a key is passed
    on, which is then the one parameter; and the count query has no
    [%s] and is run without parameters. *)
Theorem placeholders_match_parameters (type : search_type) (last_pk : value) :
  count (Sql.get_custom_query type last_pk).1 "%s"
  = len (Sql.get_custom_query type last_pk).2 + 1 /\
  (Sql.get_custom_query type last_pk).2 = (get_custom_query type last_pk).2 /\
  count (Sql.get_custom_query type last_pk).1 "id > %s"
  = (if id_greater (get_custom_query type last_pk).1 then 1 else 0) /\
  count (Sql.count_query type) "%s" = 0.
Proof.
  unfold Sql.get_custom_query, get_custom_query.
  destruct type, (truthy last_pk); vm_compute; done.
Qed.

(** X11: the three statements of a record type, the count query, the id
    query without a key and the id query after a key, read from the same
    table under the same conditions, white space apart; the id queries
    are ordered by id. *)
Theorem statements_share_conditions (type : search_type) (last_pk : value) :
  Sql.squeeze (Sql.count_query type)
  = "SELECTcount(" +:+ Sql.star +:+ ")ASexact_countFROM" +:+ Sql.table_name type
    +:+ "WHERE" +:+ Sql.conditions type /\
  Sql.squeeze (Sql.get_custom_query type last_pk).1
  = "SELECTidfrom" +:+ Sql.table_name type +:+ "WHERE"
    +:+ (if truthy last_pk then "id>%sAND" else "")
    +:+ Sql.conditions type +:+ "ORDERBYidLIMIT%s".
Proof.
  unfold Sql.get_custom_query.
  destruct type, (truthy last_pk); vm_compute; done.
Qed.

(** ** The index of an opinion and the order of equal indexes *)

Lemma find_from_place (sub s : string) (i j : Z) :
  find_from sub s i = j -> j ≠ -1 -> 0 <= i ->
  i <= j /\
  substring (Z.to_nat (j - i)) (String.length sub) s = sub /\
  forall p, (p < Z.to_nat (j - i))%nat -> substring p (String.length sub) s ≠ sub.
Proof.
  revert i j. induction s as [|c s IH]; intros i j.
  - change (find_from sub "" i) with (if String.prefix sub "" then i else -1).
    destruct (String.prefix sub "") eqn:Hp; [|by intros <-].
    intros <- _ _. split; [lia|]. rewrite Z.sub_diag.
    change (Z.to_nat 0) with 0%nat.
    split; [by apply prefix_correct | lia].
  - change (find_from sub (String c s) i)
      with (if String.prefix sub (String c s) then i
            else find_from sub s (i + 1)).
    destruct (String.prefix sub (String c s)) eqn:Hp.
    + intros <- _ _. split; [lia|]. rewrite Z.sub_diag.
      change (Z.to_nat 0) with 0%nat.
      split; [by apply prefix_correct | lia].
    + intros Hj Hne Hi. destruct (IH (i + 1) j Hj Hne) as (Hle & Hsub & Hfirst);
        [lia|].
      split; [lia|].
      replace (Z.to_nat (j - i)) with (S (Z.to_nat (j - (i + 1)))) by lia.
      split; [exact Hsub|].
      intros [|p] Hlt.
      * intros Heq%prefix_correct. congruence.
      * apply (Hfirst p). lia.
Qed.

Lemma sorted_stable {A} (key : A -> Z) (k : Z) (l : list A) :
  filter (fun x => key x = k) (Py.sorted key l) = filter (fun x => key x = k) l.
Proof.
  assert (Hins : forall x l,
    filter (fun y => key y = k) (insert_by key x l)
    = filter (fun y => key y = k) (x :: l)).
  { intros x l'. induction l' as [|y l' IH]; [done|]. simpl.
    destruct (Z.leb_spec (key x) (key y)) as [Hle|Hgt]; [done|].
    rewrite (filter_cons _ y), IH, !(filter_cons _ x), (filter_cons _ y).
    destruct (decide (key y = k)), (decide (key x = k)); try done. lia. }
  induction l as [|x l IH]; [done|]. simpl.
  by rewrite Hins, !filter_cons, IH.
Qed.

Lemma check_ngrams_first (text : string) (ngrams : list (list string)) (d : Z) :
  ((forall g, g ∈ ngrams -> count text (join " " g) ≠ 1) /\
   check_ngrams text ngrams d = d) \/
  (exists k g,
     ngrams !! k = Some g /\ count text (join " " g) = 1 /\
     (forall j g', (j < k)%nat -> ngrams !! j = Some g' ->
                   count text (join " " g') ≠ 1) /\
     check_ngrams text ngrams d = find text (join " " g)).
Proof.
  induction ngrams as [|g ngrams IH].
  - left. split; [by intros g ?%elem_of_nil | done].
  - simpl. destruct (Z.eqb_spec (count text (join " " g)) 1) as [Heq|Hne].
    + right. exists 0%nat, g. split_and!; try done. intros j g' Hj. lia.
    + destruct IH as [[Hall ->]|(k & g0 & Hk & Hc & Hfirst & ->)].
      * left. split; [|done]. intros g' [->|Hg']%elem_of_cons; [done | by apply Hall].
      * right. exists (S k), g0. split_and!; try done.
        intros [|j] g' Hj Hg'; [by simplify_eq/=|].
        apply (Hfirst j); [lia | done].
Qed.

(** X21: the index that [match_text] gives an opinion is the place of
    the first n-gram of the opinion, in the order of [generate_ngrams],
    that the reference text holds once: the text holds the phrase at
    that index and not before it.  An opinion without such an n-gram
    has the length of the text as index. *)
Theorem match_index_is_the_place words_of (columbia_words : string) (op : opinion) :
  ((forall g, g ∈ generate_ngrams (words_of (html_columbia op)) ->
              count columbia_words (join " " g) ≠ 1) /\
   match_index_of words_of columbia_words op
   = Z.of_nat (String.length columbia_words)) \/
  (exists k g,
     generate_ngrams (words_of (html_columbia op)) !! k = Some g /\
     count columbia_words (join " " g) = 1 /\
     (forall j g', (j < k)%nat ->
                   generate_ngrams (words_of (html_columbia op)) !! j = Some g' ->
                   count columbia_words (join " " g') ≠ 1) /\
     0 <= match_index_of words_of columbia_words op /\
     substring (Z.to_nat (match_index_of words_of columbia_words op))
       (String.length (join " " g)) columbia_words
     = join " " g /\
     forall p, (p < Z.to_nat (match_index_of words_of columbia_words op))%nat ->
               substring p (String.length (join " " g)) columbia_words
               ≠ join " " g).
Proof.
  unfold match_index_of.
  set (ngrams := generate_ngrams (words_of (html_columbia op))).
  destruct (check_ngrams_first columbia_words ngrams
              (Z.of_nat (String.length columbia_words)))
    as [?|(k & g & Hk & Hc & Hfirst & ->)]; [by left|].
  right. exists k, g. split_and!; try done.
  - assert (Hfound : find columbia_words (join " " g) ≠ -1).
    { unfold find. unfold count in Hc.
      destruct (String.eqb_spec (join " " g) "") as [->|Hne].
      - by destruct columbia_words.
      - apply (count_from_found _ _ 0%nat); [lia|]. by rewrite Hc. }
    destruct (find_from_place _ _ 0 _ eq_refl Hfound) as (? & _); [lia|].
    unfold find. lia.
  - assert (Hfound : find columbia_words (join " " g) ≠ -1).
    { unfold find. unfold count in Hc.
      destruct (String.eqb_spec (join " " g) "") as [->|Hne].
      - by destruct columbia_words.
      - apply (count_from_found _ _ 0%nat); [lia|]. by rewrite Hc. }
    destruct (find_from_place _ _ 0 _ eq_refl Hfound) as (_ & Hsub & _); [lia|].
    by rewrite Z.sub_0_r in Hsub.
  - assert (Hfound : find columbia_words (join " " g) ≠ -1).
    { unfold find. unfold count in Hc.
      destruct (String.eqb_spec (join " " g) "") as [->|Hne].
      - by destruct columbia_words.
      - apply (count_from_found _ _ 0%nat); [lia|]. by rewrite Hc. }
    destruct (find_from_place _ _ 0 _ eq_refl Hfound) as (_ & _ & Hno); [lia|].
    by rewrite Z.sub_0_r in Hno.
Qed.

(** X22: the order in which [match_text] returns the opinions: in
    ascending order of their index, and those with the same index, two
    opinions without a located n-gram for example, in the order in which
    they were passed in.  The index is taken in the cleaned text of the
    file of the first opinion. *)
Theorem equal_indexes_keep_their_order get_xml words_of opinions xml_dir ordered :
  match_text get_xml words_of opinions xml_dir = Ok ordered ->
  exists first columbia_words,
    head opinions = Some first /\
    get_xml (replace (local_path first) "/home/mlissner/columbia/opinions"
               xml_dir) = Ok columbia_words /\
    StronglySorted (fun a b : Z * string * Z => a.2 <= b.2) ordered /\
    forall index : Z,
      filter (fun entry => entry.2 = index) ordered
      = filter (fun entry => entry.2 = index)
          ((fun op => (id op, type op,
                       match_index_of words_of columbia_words op)) <$> opinions).
Proof.
  unfold match_text.
  destruct opinions as [|first opinions]; [done|].
  cbn [first_item and_then].
  destruct (get_xml _) as [columbia_words| |] eqn:Hxml; [|done..].
  cbn [and_then]. intros [= <-]. exists first, columbia_words.
  split_and!; [done..| |].
  - exact (sorted_ascending (fun x : Z * string * Z => x.2)
             ((fun op => (id op, type op,
                          match_index_of words_of columbia_words op))
              <$> first :: opinions)).
  - intros index.
    exact (sorted_stable (fun x : Z * string * Z => x.2) index
             ((fun op => (id op, type op,
                          match_index_of words_of columbia_words op))
              <$> first :: opinions)).
Qed.

Lemma equal_indexes_keep_their_order_witness :
  match_text Cluster.get_xml Cluster.words_of
    [ {| id := 3; type := "040dissent"; html_columbia := "zzz";
         local_path := "/home/mlissner/columbia/opinions/a.xml" |};
      {| id := 2; type := "020lead"; html_columbia := "court";
         local_path := "/home/mlissner/columbia/opinions/a.xml" |};
      {| id := 1; type := "040dissent"; html_columbia := "qqq";
         local_path := "/home/mlissner/columbia/opinions/a.xml" |} ]
    Cluster.xml_dir
  = Ok [(2, "020lead", 4); (3, "040dissent", 14); (1, "040dissent", 14)] /\
  filter (fun entry : Z * string * Z => entry.2 = 14)
    [(2, "020lead", 4); (3, "040dissent", 14); (1, "040dissent", 14)]
  = [(3, "040dissent", 14); (1, "040dissent", 14)].
Proof.
  split; [vm_compute; reflexivity|].
  destruct (equal_indexes_keep_their_order Cluster.get_xml Cluster.words_of
              [ {| id := 3; type := "040dissent"; html_columbia := "zzz";
                   local_path := "/home/mlissner/columbia/opinions/a.xml" |};
                {| id := 2; type := "020lead"; html_columbia := "court";
                   local_path := "/home/mlissner/columbia/opinions/a.xml" |};
                {| id := 1; type := "040dissent"; html_columbia := "qqq";
                   local_path := "/home/mlissner/columbia/opinions/a.xml" |} ]
              Cluster.xml_dir
              [(2, "020lead", 4); (3, "040dissent", 14); (1, "040dissent", 14)])
    as (first & columbia_words & _ & Hxml & _ & Hsame).
  - vm_compute. reflexivity.
  - injection Hxml as <-. rewrite Hsame. vm_compute. reflexivity.
Defined.

(** ** The reference text *)

Lemma alnum_not_space (c : ascii) : Xml.alnum c = true -> Xml.isspace c = false.
Proof. by destruct c as [[] [] [] [] [] [] [] []]. Qed.

(** The second substitution after the first one, on text that part of
    which was read already: [before] tells what the character before
    was, a character kept, one of the first class or white space. *)
Lemma clean_runs_from (inside1 inside2 : bool) (text : string) :
  (inside1 = true -> inside2 = true) ->
  Xml.sub_runs Xml.isspace " " inside2
    (Xml.sub_runs (fun c => negb (Xml.alnum c || Xml.isspace c)) " " inside1 text)
  = Xml.sub_runs (fun c => negb (Xml.alnum c)) " " inside2 text.
Proof.
  revert inside1 inside2. induction text as [|c text IH]; intros i1 i2 Hi; [done|].
  simpl. destruct (Xml.alnum c) eqn:Ha; simpl.
  - rewrite (alnum_not_space c Ha). f_equal. by apply IH.
  - destruct (Xml.isspace c) eqn:Hs; simpl.
    + rewrite Hs. by rewrite IH.
    + destruct i1.
      * rewrite (Hi eq_refl). by apply IH.
      * change (" " +:+ ?s) with (String " " s). simpl.
        by rewrite IH.
Qed.

Lemma runs_spaced (inside : bool) (text : string) :
  Xml.spaced inside (Xml.sub_runs (fun c => negb (Xml.alnum c)) " " inside text)
  = true.
Proof.
  revert inside. induction text as [|c text IH]; intros inside; [done|].
  simpl. destruct (Xml.alnum c) eqn:Ha; simpl.
  - destruct (Ascii.eqb_spec c " "%char) as [->|_]; [done|]. by rewrite Ha, IH.
  - destruct inside; [apply IH|].
    change (" " +:+ ?s) with (String " " s). simpl. apply IH.
Qed.

(** Text of letters, digits and single spaces has no run to replace. *)
Lemma spaced_runs (inside : bool) (s : string) :
  Xml.spaced inside s = true ->
  Xml.sub_runs (fun c => negb (Xml.alnum c)) " " inside s = s.
Proof.
  revert inside. induction s as [|c s IH]; intros inside; [done|].
  simpl. destruct (Ascii.eqb_spec c " "%char) as [->|Hne].
  - simpl. destruct inside; [done|]. simpl. intros H.
    change (" " +:+ ?s) with (String " " s). f_equal. by apply IH.
  - intros [Ha Hs]%andb_true_iff. rewrite Ha. simpl. f_equal. by apply IH.
Qed.

(** X12: the text that [get_xml] returns is the text of the file with
    every maximal run of characters other than ASCII letters and digits
    replaced by one space: it is made of letters, digits and single
    spaces. *)
Theorem get_xml_text_is_spaced read soup_text (filepath content : string) :
  read filepath = Ok content ->
  Xml.get_xml read soup_text filepath
  = Ok (Xml.re_sub (fun c => negb (Xml.alnum c)) " " (soup_text content)) /\
  exists text,
    Xml.get_xml read soup_text filepath = Ok text /\ Xml.spaced false text = true.
Proof.
  intros Hread. unfold Xml.get_xml. rewrite Hread. cbn [and_then].
  assert (Hclean : Xml.clean (soup_text content)
                   = Xml.re_sub (fun c => negb (Xml.alnum c)) " "
                       (soup_text content)).
  { unfold Xml.clean, Xml.re_sub. by apply clean_runs_from. }
  rewrite Hclean. split; [done|]. eexists. split; [done|].
  apply runs_spaced.
Qed.

Lemma get_xml_text_is_spaced_witness :
  Xml.get_xml (fun _ => Ok "<p>Smith v. Jones,   12 U.S. 3</p>")
    (fun _ => "Smith v. Jones,   12 U.S. 3") "a.xml"
  = Ok "Smith v Jones 12 U S 3".
Proof.
  destruct (get_xml_text_is_spaced
              (fun _ => Ok "<p>Smith v. Jones,   12 U.S. 3</p>")
              (fun _ => "Smith v. Jones,   12 U.S. 3") "a.xml" _ eq_refl)
    as [-> _].
  vm_compute. reflexivity.
Defined.

(** X13: cleaning text that [get_xml] cleaned changes nothing. *)
Theorem clean_idempotent (text : string) :
  Xml.clean (Xml.clean text) = Xml.clean text.
Proof.
  assert (Hclean : forall t,
    Xml.clean t = Xml.sub_runs (fun c => negb (Xml.alnum c)) " " false t).
  { intros t. unfold Xml.clean, Xml.re_sub. by apply clean_runs_from. }
  rewrite !Hclean. apply spaced_runs, runs_spaced.
Qed.

(** ** Words that the reference text cannot hold *)

Lemma spaced_only (after_space : bool) (s : string) :
  Xml.spaced after_space s = true -> Xml.only Xml.kept s = true.
Proof.
  revert after_space. induction s as [|c s IH]; intros b; [done|].
  simpl. unfold Xml.kept at 1.
  destruct (Ascii.eqb_spec c " "%char) as [->|_].
  - intros [_ Hs]%andb_true_iff. simpl. by eapply IH.
  - intros [-> Hs]%andb_true_iff. simpl. by eapply IH.
Qed.

Lemma only_app (class : ascii -> bool) (s t : string) :
  Xml.only class (s +:+ t) = Xml.only class s && Xml.only class t.
Proof.
  induction s as [|c s IH]; [done|].
  change (String c s +:+ t) with (String c (s +:+ t)). simpl.
  by rewrite IH, andb_assoc.
Qed.

Lemma only_substring (class : ascii -> bool) (n m : nat) (s : string) :
  Xml.only class s = true -> Xml.only class (substring n m s) = true.
Proof.
  revert n m. induction s as [|c s IH]; intros n m; [by destruct n, m|].
  simpl. intros [Hc Hs]%andb_true_iff.
  destruct n as [|n]; [|by apply IH].
  destruct m as [|m]; [done|]. simpl. rewrite Hc. by apply IH.
Qed.

Lemma only_join (class : ascii -> bool) (sep : string) (l : list string)
    (w : string) :
  w ∈ l -> Xml.only class w = false -> Xml.only class (join sep l) = false.
Proof.
  unfold join. induction l as [|x l IH]; [by intros ?%elem_of_nil|].
  intros Hin Hw. simpl. destruct l as [|y l].
  - apply list_elem_of_singleton in Hin as ->. done.
  - rewrite !only_app. apply elem_of_cons in Hin as [->|Hin].
    + by rewrite Hw.
    + rewrite (IH Hin Hw). by rewrite !andb_false_r.
Qed.

(** A phrase that the text holds is made of characters of the text. *)
Lemma count_only (class : ascii -> bool) (text phrase : string) :
  Xml.only class text = true -> Xml.only class phrase = false ->
  count text phrase = 0.
Proof.
  intros Htext Hphrase. unfold count.
  destruct (String.eqb_spec phrase "") as [->|Hne]; [done|].
  destruct (Z.eq_dec (count_from phrase 0 text) 0) as [|Hcount]; [done|].
  exfalso.
  pose proof (count_from_found phrase text 0 0 ltac:(lia) Hcount) as Hfound.
  destruct (find_from_place _ _ 0 _ eq_refl Hfound) as (_ & Hsub & _); [lia|].
  apply (only_substring class (Z.to_nat (find_from phrase text 0 - 0))
           (String.length phrase)) in Htext.
  rewrite Hsub in Htext. congruence.
Qed.

(** X23: an n-gram with a word that holds a character other than an
    ASCII letter or digit, an underscore or an accented letter, does not
    occur in the text that [get_xml] returns, which holds letters, digits
    and spaces; an opinion all of whose words are such gets the length of
    the text as index. *)
Theorem words_with_other_characters_never_match read soup_text words_of
    (filepath columbia_words : string) (op : opinion) :
  Xml.get_xml read soup_text filepath = Ok columbia_words ->
  (forall word_group word,
     word ∈ word_group -> Xml.only Xml.kept word = false ->
     count columbia_words (join " " word_group) = 0) /\
  ((forall word, word ∈ words_of (html_columbia op) ->
                 Xml.only Xml.kept word = false) ->
   match_index_of words_of columbia_words op
   = Z.of_nat (String.length columbia_words)).
Proof.
  intros Hxml.
  assert (Htext : Xml.only Xml.kept columbia_words = true).
  { unfold Xml.get_xml in Hxml.
    destruct (read filepath) as [content| |]; [|done..].
    cbn [and_then] in Hxml. injection Hxml as <-.
    apply (spaced_only false). unfold Xml.clean, Xml.re_sub.
    rewrite clean_runs_from by done. apply runs_spaced. }
  assert (Hgroup : forall word_group word,
    word ∈ word_group -> Xml.only Xml.kept word = false ->
    count columbia_words (join " " word_group) = 0).
  { intros word_group word Hin Hword. apply (count_only Xml.kept); [done|].
    by eapply only_join. }
  split; [done|]. intros Hwords. unfold match_index_of.
  apply check_ngrams_default. intros g Hg.
  apply generate_ngrams_elem in Hg as [Hne Hsub].
  destruct g as [|w g]; [done|].
  rewrite (Hgroup (w :: g) w); [done|left|]. apply Hwords, Hsub. left.
Qed.

Lemma words_with_other_characters_never_match_witness :
  Xml.get_xml (fun _ => Ok "the_court held") (fun content => content) "a.xml"
  = Ok "the court held" /\
  count "the court held" (join " " ["the_court"; "held"]) = 0.
Proof.
  split; [vm_compute; reflexivity|].
  apply (proj1 (words_with_other_characters_never_match
                  (fun _ => Ok "the_court held") (fun content => content)
                  (fun html => [html]) "a.xml" "the court held"
                  {| id := 1; type := "020lead"; html_columbia := "the_court";
                     local_path := "a.xml" |} eq_refl)
           ["the_court"; "held"] "the_court").
  - left.
  - vm_compute. reflexivity.
Defined.

(** ** The ordering keys *)

Lemma filter_fmap {A B} (P : B -> Prop) `{!forall x, Decision (P x)}
    (f : A -> B) (l : list A) :
  filter P (f <$> l) = f <$> filter (fun x => P (f x)) l.
Proof.
  induction l as [|x l IH]; [done|].
  rewrite fmap_cons, !filter_cons, IH. by destruct (decide (P (f x))).
Qed.

Lemma filter_ext_in {A} (P Q : A -> Prop) `{!forall x, Decision (P x)}
    `{!forall x, Decision (Q x)} (l : list A) :
  (forall x, x ∈ l -> P x <-> Q x) -> filter P l = filter Q l.
Proof.
  induction l as [|x l IH]; intros Hiff; [done|].
  rewrite !filter_cons, IH by (intros y Hy; apply Hiff; by right).
  destruct (decide (P x)) as [HP|HP], (decide (Q x)) as [HQ|HQ]; try done.
  - exfalso. apply HQ, Hiff; [left | done].
  - exfalso. apply HP, Hiff; [left | done].
Qed.

Lemma sorted_strictly {A} (key : A -> Z) (l : list A) :
  NoDup (key <$> l) ->
  StronglySorted (fun a b => key a < key b) (Py.sorted key l).
Proof.
  intros Hnd.
  assert (Hnd' : NoDup (key <$> Py.sorted key l)).
  { by rewrite sorted_Permutation. }
  pose proof (sorted_ascending key l) as Hs.
  induction Hs as [|x l' Hl IH Hx]; [constructor|].
  rewrite fmap_cons in Hnd'. apply NoDup_cons in Hnd' as [Hnotin Hnd'].
  constructor; [by apply IH|].
  rewrite Forall_forall in Hx |- *. intros y Hy. specialize (Hx y Hy).
  assert (key x ≠ key y); [|lia].
  intros Heq. apply Hnotin. rewrite Heq. by apply list_elem_of_fmap_2.
Qed.

Import OrderingKey.

Lemma length_fmap_len {A B} (f : A -> B) (l : list A) : len (f <$> l) = len l.
Proof. unfold len. by rewrite length_fmap. Qed.

Section Harvard.

Variable COMBINED COLUMBIA_ARCHIVE : string.
Variable sleep : SpecFloat.spec_float -> outcome unit.

Abbreviation plain := (fun op : Opinion => type op ≠ COMBINED).

(** The number of opinions before the id [i], the combined ones apart. *)
Abbreviation before ops i :=
  (len (filter (fun op' : Opinion => type op' ≠ COMBINED /\ id op' < i) ops)).

Lemma save_rows db op_id key :
  search_opinion (save db op_id key)
  = (fun op => if decide (id op = op_id) then with_key op (Some key) else op)
    <$> search_opinion db.
Proof. done. Qed.

Lemma before_cons (o : Opinion) (ops : list Opinion) (i : Z) :
  before (o :: ops) i
  = (if decide (type o ≠ COMBINED /\ id o < i) then 1 else 0) + before ops i.
Proof.
  rewrite filter_cons. unfold len.
  destruct (decide (type o ≠ COMBINED /\ id o < i)); simpl; lia.
Qed.

Lemma before_none (ops : list Opinion) (i : Z) :
  Forall (fun b => i < id b) ops -> before ops i = 0.
Proof.
  induction 1 as [|o ops Ho _ IH]; [done|].
  rewrite before_cons, IH.
  destruct (decide (type o ≠ COMBINED /\ id o < i)) as [[_ ?]|_]; [lia|done].
Qed.

Lemma order_sub_opinions_rows (ops : list Opinion) (n : Z) (any : bool)
    (db : database) :
  StronglySorted (fun a b => id a < id b) ops ->
  search_opinion (order_sub_opinions COMBINED ops n any db).2
  = (fun op => if decide (id op ∈ id <$> filter plain ops)
               then with_key op (Some (n + before ops (id op)))
               else op) <$> search_opinion db /\
  search_opinioncluster (order_sub_opinions COMBINED ops n any db).2
  = search_opinioncluster db /\
  (order_sub_opinions COMBINED ops n any db).1
  = any || bool_decide (filter plain ops ≠ []).
Proof.
  intros Hs. revert n any db.
  induction Hs as [|o ops Hs IH Ho]; intros n any db.
  { simpl. split_and!; [|done|by rewrite orb_false_r].
    rewrite <- (list_fmap_id (search_opinion db)) at 1.
    apply list_fmap_ext. by intros _ op _. }
  simpl. rewrite !filter_cons.
  destruct (decide (type o = COMBINED)) as [Hc|Hc].
  - destruct (decide (plain o)) as [?|_]; [done|].
    destruct (IH n any db) as (-> & -> & ->). split_and!; try done.
    apply list_fmap_ext. intros _ op _. simpl.
    rewrite before_cons.
    by destruct (decide (type o ≠ COMBINED /\ id o < id op)) as [[? _]|_].
  - destruct (decide (plain o)) as [_|?]; [|done].
    destruct (IH (n + 1) true (save db (id o) n)) as (-> & -> & ->).
    split_and!; [|done|by rewrite orb_true_r].
    rewrite save_rows, <- list_fmap_compose.
    apply list_fmap_ext. intros _ op _. simpl.
    assert (Hrest : forall i, i ∈ id <$> filter plain ops -> id o < i).
    { intros i (o' & -> & Ho')%list_elem_of_fmap.
      apply list_elem_of_filter in Ho' as [_ Ho'].
      rewrite Forall_forall in Ho. by apply Ho. }
    rewrite before_cons.
    destruct (decide (id op = id o)) as [Heq|Hne].
    + simpl. rewrite Heq.
      destruct (decide (id o ∈ id <$> filter plain ops)) as [Hin|_];
        [apply Hrest in Hin; lia|].
      rewrite decide_True by left.
      destruct (decide (type o ≠ COMBINED /\ id o < id o)) as [[_ ?]|_]; [lia|].
      rewrite before_none by done. unfold with_key. simpl. do 2 f_equal. lia.
    + destruct (decide (id op ∈ id <$> filter plain ops)) as [Hin|Hnotin].
      * rewrite decide_True by (by right).
        rewrite decide_True by (split; [done | by apply Hrest]).
        f_equal. f_equal. lia.
      * rewrite decide_False; [done|].
        intros [?|?]%elem_of_cons; done.
Qed.

Lemma unique_by_id (rows : list Opinion) (a b : Opinion) :
  NoDup (id <$> rows) -> a ∈ rows -> b ∈ rows -> id a = id b -> a = b.
Proof.
  intros Hnd (i & Hi)%list_elem_of_lookup_1 (j & Hj)%list_elem_of_lookup_1 Heq.
  assert (i = j) as ->; [|congruence].
  eapply NoDup_lookup; [done| |].
  - by rewrite list_lookup_fmap, Hi.
  - by rewrite list_lookup_fmap, Hj, Heq.
Qed.

Lemma ranked_ids done db :
  id <$> ranked COMBINED done db = id <$> search_opinion db.
Proof.
  unfold ranked. rewrite <- list_fmap_compose. apply list_fmap_ext.
  intros _ op _. simpl. by case_decide.
Qed.

(** The rank of an opinion looks at the ids, the clusters and the types
    of the rows only. *)
Lemma rank_ranked done db db' (op : Opinion) :
  search_opinion db' = ranked COMBINED done db ->
  rank COMBINED db' op = rank COMBINED db op.
Proof.
  intros Hrows. unfold rank. rewrite Hrows. unfold ranked.
  rewrite filter_fmap, length_fmap_len. do 2 f_equal.
  apply filter_ext_in. intros o _. simpl. by case_decide.
Qed.

(** One cluster: its opinions that are not combined get their ranks. *)
Lemma order_cluster_rows done db dbc (c : Z) :
  NoDup (id <$> search_opinion db) ->
  search_opinion dbc = ranked COMBINED done db ->
  search_opinion
    (order_sub_opinions COMBINED (Py.sorted id (sub_opinions dbc c)) 1 false dbc).2
  = ranked COMBINED (c :: done) db /\
  (order_sub_opinions COMBINED (Py.sorted id (sub_opinions dbc c)) 1 false dbc).1
  = bool_decide (Exists (fun op => cluster_id op = c /\ type op ≠ COMBINED)
                   (search_opinion db)).
Proof.
  intros Hnd Hrows.
  assert (Hndc : NoDup (id <$> search_opinion dbc)).
  { by rewrite Hrows, ranked_ids. }
  assert (Hsub : NoDup (id <$> sub_opinions dbc c)).
  { unfold sub_opinions.
    apply (sublist_NoDup _ (id <$> search_opinion dbc)); [done|].
    apply fmap_sublist, sublist_filter. }
  destruct (order_sub_opinions_rows (Py.sorted id (sub_opinions dbc c)) 1 false dbc
              (sorted_strictly id _ Hsub)) as (Hr & _ & Hany).
  assert (Hplain : forall op, op ∈ search_opinion dbc ->
    id op ∈ id <$> filter plain (Py.sorted id (sub_opinions dbc c))
    <-> type op ≠ COMBINED /\ cluster_id op = c).
  { intros op Hop. split.
    - intros (o & Hid & Ho)%list_elem_of_fmap.
      apply list_elem_of_filter in Ho as [Hp Ho].
      rewrite sorted_Permutation in Ho.
      apply list_elem_of_filter in Ho as [Hc Ho].
      by rewrite (unique_by_id _ op o Hndc Hop Ho Hid).
    - intros [Hp Hc]. apply list_elem_of_fmap_2, list_elem_of_filter.
      split; [done|]. rewrite sorted_Permutation.
      by apply list_elem_of_filter. }
  split.
  - rewrite Hr.
    match goal with |- ?f <$> search_opinion dbc = _ => set (F := f) end.
    rewrite Hrows. unfold ranked. rewrite <- list_fmap_compose.
    apply Forall_fmap_ext_1, Forall_forall.
    intros op Hop. unfold F. clear F. simpl.
    set (op1 := if decide (type op ≠ COMBINED /\ cluster_id op ∈ done)
                then with_key op (Some (rank COMBINED db op)) else op).
    assert (Hsame : id op1 = id op /\ cluster_id op1 = cluster_id op /\
                    type op1 = type op /\
                    with_key op1 (Some (rank COMBINED db op))
                    = with_key op (Some (rank COMBINED db op))).
    { unfold op1. by case_decide. }
    destruct Hsame as (Hid & Hcl & Hty & Hwk).
    assert (Hop1 : op1 ∈ search_opinion dbc).
    { rewrite Hrows. unfold ranked.
      eapply list_elem_of_fmap_2'; [exact Hop | done]. }
    destruct (decide (id op1 ∈ id <$> filter plain
                                    (Py.sorted id (sub_opinions dbc c))))
      as [Hin|Hnotin].
    + apply (Hplain op1 Hop1) in Hin as [Hp Hc]. rewrite Hty in Hp.
      rewrite Hcl in Hc.
      rewrite decide_True by (split; [done | rewrite Hc; left]).
      rewrite <- Hwk. f_equal. f_equal.
      rewrite <- (rank_ranked done db dbc op Hrows). unfold rank. f_equal.
      unfold len. f_equal.
      rewrite (filter_Permutation _ _ _ (sorted_Permutation id _)).
      unfold sub_opinions. rewrite list_filter_filter.
      f_equal. apply filter_ext_in. intros o _. rewrite Hid, Hc. tauto.
    + assert (Hno : ~ (type op ≠ COMBINED /\ cluster_id op = c)).
      { intros [Hp Hc]. apply Hnotin, (Hplain op1 Hop1).
        rewrite Hty, Hcl. done. }
      unfold op1.
      destruct (decide (type op ≠ COMBINED /\ cluster_id op ∈ done))
        as [[Hp Hd]|Hnd'].
      * rewrite decide_True by (split; [done | by right]). done.
      * rewrite decide_False; [done|].
        intros [Hp [Hc|Hd]%elem_of_cons]; [by apply Hno | by apply Hnd'].
  - rewrite Hany. simpl. apply bool_decide_ext.
    rewrite Exists_exists. split.
    + intros Hne. destruct (filter plain (Py.sorted id (sub_opinions dbc c)))
        as [|o l] eqn:Hf; [done|].
      assert (Ho : o ∈ filter plain (Py.sorted id (sub_opinions dbc c))).
      { rewrite Hf. left. }
      apply list_elem_of_filter in Ho as [Hp Ho].
      rewrite sorted_Permutation in Ho.
      apply list_elem_of_filter in Ho as [Hc Ho].
      rewrite Hrows in Ho. unfold ranked in Ho.
      apply list_elem_of_fmap in Ho as (o' & -> & Ho').
      exists o'. split; [done|]. by case_decide.
    + intros (o & Ho & Hc & Hp) Hnil.
      assert (Hin : (if decide (type o ≠ COMBINED /\ cluster_id o ∈ done)
                     then with_key o (Some (rank COMBINED db o)) else o)
                    ∈ filter plain (Py.sorted id (sub_opinions dbc c))).
      { apply list_elem_of_filter. split; [by case_decide|].
        rewrite sorted_Permutation. apply list_elem_of_filter.
        split; [by case_decide|]. rewrite Hrows. unfold ranked.
        eapply list_elem_of_fmap_2'; [exact Ho | done]. }
      rewrite Hnil in Hin. by apply elem_of_nil in Hin.
Qed.

Lemma ranked_ext done1 done2 db :
  (forall c, c ∈ done1 <-> c ∈ done2) ->
  ranked COMBINED done1 db = ranked COMBINED done2 db.
Proof.
  intros Hsame. unfold ranked. apply list_fmap_ext. intros _ op _. simpl.
  destruct (decide (type op ≠ COMBINED /\ cluster_id op ∈ done1)) as [[? Hin]|Hno].
  - rewrite decide_True; [done|]. split; [done | by apply Hsame].
  - rewrite decide_False; [done|]. intros [? Hin]. apply Hno.
    split; [done | by apply Hsame].
Qed.

Lemma ranked_nil db : ranked COMBINED [] db = search_opinion db.
Proof.
  unfold ranked. rewrite <- (list_fmap_id (search_opinion db)) at 2.
  apply list_fmap_ext. intros _ op _. simpl.
  rewrite decide_False; [done|]. intros [_ Hin]. by apply elem_of_nil in Hin.
Qed.

(** The clusters that hold an opinion that is not combined. *)
Abbreviation updated db :=
  (fun c : OpinionCluster =>
     Exists (fun op => cluster_id op = pk c /\ type op ≠ COMBINED)
       (search_opinion db)).

Lemma order_sub_opinions_updated (ops : list Opinion) (n : Z) (db : database) :
  (order_sub_opinions COMBINED ops n true db).1 = true.
Proof.
  revert n db. induction ops as [|o ops IH]; intros n db; [done|].
  simpl. by destruct (decide (type o = COMBINED)).
Qed.

(** A cluster without an update is left as it is. *)
Lemma order_sub_opinions_same (ops : list Opinion) (n : Z) (db db' : database) :
  order_sub_opinions COMBINED ops n false db = (false, db') -> db' = db.
Proof.
  revert n db. induction ops as [|o ops IH]; intros n db; [by intros [= <-]|].
  simpl. destruct (decide (type o = COMBINED)); [apply IH|].
  intros Hrun.
  pose proof (order_sub_opinions_updated ops (n + 1) (save db (id o) n)) as Hu.
  by rewrite Hrun in Hu.
Qed.

(** One step of the loop over the clusters. *)
Lemma order_cluster_step done db dbc (c : OpinionCluster) :
  NoDup (id <$> search_opinion db) ->
  search_opinion dbc = ranked COMBINED done db ->
  search_opinioncluster dbc = search_opinioncluster db ->
  exists any_update db1,
    order_sub_opinions COMBINED (Py.sorted id (sub_opinions dbc (pk c))) 1 false dbc
    = (any_update, db1) /\
    search_opinion db1 = ranked COMBINED (pk c :: done) db /\
    search_opinioncluster db1 = search_opinioncluster db /\
    (if any_update then updated db c else ~ updated db c).
Proof.
  intros Hnd Hrows Hcl.
  destruct (order_cluster_rows done db dbc (pk c) Hnd Hrows) as [Hr Hany].
  destruct (order_sub_opinions_rows (Py.sorted id (sub_opinions dbc (pk c))) 1
              false dbc) as (_ & Hcl' & _).
  { apply sorted_strictly. unfold sub_opinions.
    apply (sublist_NoDup _ (id <$> search_opinion dbc)).
    - by rewrite Hrows, ranked_ids.
    - apply fmap_sublist, sublist_filter. }
  destruct (order_sub_opinions COMBINED (Py.sorted id (sub_opinions dbc (pk c))) 1
              false dbc) as [any_update db1] eqn:Hstep.
  simpl in Hr, Hany, Hcl'. rewrite Hcl in Hcl'.
  exists any_update, db1. split_and!; [done..|].
  symmetry in Hany. destruct any_update.
  - by apply bool_decide_eq_true in Hany.
  - by apply bool_decide_eq_false in Hany.
Qed.

(** A loop that ends without an exception: every cluster has got its
    ranks, and the command has slept, unless no cluster had an opinion
    to update. *)
Lemma order_harvard_clusters_rows options (clusters : list OpinionCluster) done
    (completed : Z) db dbc (completed' : Z) db' :
  NoDup (id <$> search_opinion db) ->
  search_opinion dbc = ranked COMBINED done db ->
  search_opinioncluster dbc = search_opinioncluster db ->
  order_harvard_clusters COMBINED sleep options clusters completed dbc
  = (Ok completed', db') ->
  search_opinion db' = ranked COMBINED ((pk <$> clusters) ++ done) db /\
  search_opinioncluster db' = search_opinioncluster db /\
  completed' = completed + len (filter (updated db) clusters) /\
  (sleep (delay options) = Ok tt \/ Forall (fun c => ~ updated db c) clusters).
Proof.
  intros Hnd. revert done completed dbc.
  induction clusters as [|c clusters IH]; intros done completed dbc Hrows Hcl Hrun.
  { simpl in Hrun. injection Hrun as <- <-. split_and!; [done..| |by right].
    unfold len. simpl. lia. }
  simpl in Hrun.
  destruct (order_cluster_step done db dbc c Hnd Hrows Hcl)
    as (any_update & db1 & Hstep & Hr & Hcl' & Hany).
  rewrite Hstep in Hrun. rewrite filter_cons.
  assert (Hlist : forall x, x ∈ (pk <$> clusters) ++ pk c :: done
                            <-> x ∈ (pk c :: (pk <$> clusters)) ++ done).
  { intros x. rewrite ?elem_of_app, ?elem_of_cons, ?elem_of_app. tauto. }
  destruct any_update; simpl in Hrun.
  - destruct (sleep (delay options)) as [[]| |] eqn:Hsleep; [|done..].
    destruct (IH (pk c :: done) (completed + 1) db1 Hr Hcl' Hrun)
      as (-> & -> & -> & _).
    rewrite decide_True by done.
    split_and!; [by apply ranked_ext|done| |by left].
    unfold len. simpl. lia.
  - destruct (IH (pk c :: done) completed db1 Hr Hcl' Hrun)
      as (-> & -> & -> & Hall).
    rewrite decide_False by done.
    split_and!; [by apply ranked_ext|done..|].
    destruct Hall as [?|Hall]; [by left|right]. by constructor.
Qed.

(** The loop ends without an exception when the command can sleep, or
    has no cluster to sleep after. *)
Lemma order_harvard_clusters_ok options (clusters : list OpinionCluster) done
    (completed : Z) db dbc :
  NoDup (id <$> search_opinion db) ->
  search_opinion dbc = ranked COMBINED done db ->
  search_opinioncluster dbc = search_opinioncluster db ->
  sleep (delay options) = Ok tt \/ Forall (fun c => ~ updated db c) clusters ->
  exists completed' db',
    order_harvard_clusters COMBINED sleep options clusters completed dbc
    = (Ok completed', db').
Proof.
  intros Hnd. revert done completed dbc.
  induction clusters as [|c clusters IH]; intros done completed dbc Hrows Hcl Hcan.
  { by eexists _, _. }
  simpl.
  destruct (order_cluster_step done db dbc c Hnd Hrows Hcl)
    as (any_update & db1 & Hstep & Hr & Hcl' & Hany).
  rewrite Hstep.
  assert (Hcan' : sleep (delay options) = Ok tt \/
                  Forall (fun c => ~ updated db c) clusters).
  { destruct Hcan as [?|Hall]; [by left|right]. by inversion Hall. }
  destruct any_update; simpl.
  - destruct Hcan as [Hsleep|Hall].
    + rewrite Hsleep. by apply (IH (pk c :: done)).
    + by inversion Hall.
  - by apply (IH (pk c :: done)).
Qed.

Lemma ranked_filter_cluster done db (c : Z) :
  filter (fun op => cluster_id op = c) (ranked COMBINED done db)
  = (fun op => if decide (type op ≠ COMBINED /\ cluster_id op ∈ done)
               then with_key op (Some (rank COMBINED db op)) else op)
    <$> filter (fun op => cluster_id op = c) (search_opinion db).
Proof.
  unfold ranked. rewrite filter_fmap. f_equal.
  apply filter_ext_in. intros op _. by case_decide.
Qed.

Lemma harvard_clusters_ranked options done db db' :
  search_opinion db' = ranked COMBINED done db ->
  search_opinioncluster db' = search_opinioncluster db ->
  harvard_clusters COLUMBIA_ARCHIVE options db'
  = harvard_clusters COLUMBIA_ARCHIVE options db.
Proof.
  intros Hrows Hcl. unfold harvard_clusters. rewrite Hcl.
  assert (Hlen : forall c, len (sub_opinions db' c) = len (sub_opinions db c)).
  { intros c. unfold sub_opinions. rewrite Hrows, ranked_filter_cluster.
    apply length_fmap_len. }
  by rewrite (filter_ext_in (fun c => 1 < len (sub_opinions db' (pk c)))
                (fun c => 1 < len (sub_opinions db (pk c))))
    by (intros c _; by rewrite Hlen).
Qed.

Lemma updated_ranked done db db' (c : OpinionCluster) :
  search_opinion db' = ranked COMBINED done db ->
  updated db' c <-> updated db c.
Proof.
  intros Hrows. rewrite !Exists_exists, Hrows. unfold ranked. split.
  - intros (op' & (op & -> & Hop)%list_elem_of_fmap & H).
    exists op. split; [done|]. revert H. by case_decide.
  - intros (op & Hop & H). eexists. split.
    + eapply list_elem_of_fmap_2'; [exact Hop | done].
    + simpl. by case_decide.
Qed.

Lemma ranked_ranked done db db' :
  search_opinion db' = ranked COMBINED done db ->
  ranked COMBINED done db' = ranked COMBINED done db.
Proof.
  intros Hrows. unfold ranked at 1. rewrite Hrows. unfold ranked.
  rewrite <- list_fmap_compose. apply list_fmap_ext. intros _ op _. simpl.
  destruct (decide (type op ≠ COMBINED /\ cluster_id op ∈ done)) as [Hyes|Hno].
  - simpl. rewrite decide_True by done.
    rewrite (rank_ranked done db db' _ Hrows). done.
  - by rewrite decide_False.
Qed.

(** With a delay that [time.sleep] refuses nothing is saved. *)
Lemma order_harvard_clusters_refused options (clusters : list OpinionCluster)
    (completed : Z) db (e : exn) :
  sleep (delay options) = Raise e ->
  (order_harvard_clusters COMBINED sleep options clusters completed db).2 = db /\
  forall completed',
    (order_harvard_clusters COMBINED sleep options clusters completed db).1
    = Ok completed' ->
    completed' = completed.
Proof.
  intros Hsleep. revert completed db.
  induction clusters as [|c clusters IH]; intros completed db.
  { simpl. split; [done|]. by intros ? [= <-]. }
  simpl.
  destruct (order_sub_opinions _ _ _ _ _) as [any_update db1] eqn:Hstep.
  destruct any_update; simpl.
  - rewrite Hsleep. simpl. by split.
  - apply order_sub_opinions_same in Hstep as ->. apply IH.
Qed.

(** What [sort_harvard_opinions] returns. *)
Lemma sort_harvard_rows options db completed db' :
  NoDup (id <$> search_opinion db) ->
  sort_harvard_opinions COMBINED COLUMBIA_ARCHIVE sleep options db
  = (Ok completed, db') ->
  exists clusters,
    harvard_clusters COLUMBIA_ARCHIVE options db = Ok clusters /\
    search_opinioncluster db' = search_opinioncluster db /\
    search_opinion db' = ranked COMBINED (pk <$> clusters) db /\
    completed = len (filter (updated db) clusters) /\
    (sleep (delay options) = Ok tt \/ Forall (fun c => ~ updated db c) clusters).
Proof.
  intros Hnd. unfold sort_harvard_opinions.
  destruct (harvard_clusters COLUMBIA_ARCHIVE options db) as [clusters| |];
    [|done..].
  intros Hrun. exists clusters. split; [done|].
  destruct (order_harvard_clusters_rows options clusters [] 0 db db completed db'
              Hnd) as (Hr & Hc & Hn & Hcan); [by rewrite ranked_nil|done..|].
  rewrite app_nil_r in Hr. split_and!; [done..| |done]. rewrite Hn. lia.
Qed.

End Harvard.

(** X14: [sort_harvard_opinions], when it ends without an exception,
    has given every opinion of a selected cluster that is not of the
    type [COMBINED] its rank by id among such opinions of its cluster as
    [ordering_key], 1 for the least id, and has changed nothing else; it
    counts the selected clusters that hold such an opinion.  The ids of
    the opinions are unique. *)
Theorem harvard_keys_are_ranks COMBINED COLUMBIA_ARCHIVE sleep options db
    completed db' :
  NoDup (id <$> search_opinion db) ->
  sort_harvard_opinions COMBINED COLUMBIA_ARCHIVE sleep options db
  = (Ok completed, db') ->
  exists clusters,
    harvard_clusters COLUMBIA_ARCHIVE options db = Ok clusters /\
    search_opinioncluster db' = search_opinioncluster db /\
    search_opinion db' = ranked COMBINED (pk <$> clusters) db /\
    completed
    = len (filter (fun c => Exists (fun op => cluster_id op = pk c /\
                                              type op ≠ COMBINED)
                              (search_opinion db)) clusters).
Proof.
  intros Hnd Hrun.
  destruct (sort_harvard_rows _ _ _ _ _ _ _ Hnd Hrun)
    as (clusters & ? & ? & ? & ? & _).
  by exists clusters.
Qed.

Lemma harvard_keys_are_ranks_witness :
  sort_harvard_opinions Sample.COMBINED Sample.COLUMBIA_ARCHIVE Sample.sleep
    Sample.options Sample.db
  = (Ok 1, {| search_opinioncluster := search_opinioncluster Sample.db;
              search_opinion :=
                [ with_key (Sample.opinion 7 1 "040dissent" "") (Some 2);
                  Sample.opinion 5 1 "010combined" "";
                  with_key (Sample.opinion 3 1 "020lead" "") (Some 1);
                  Sample.opinion 8 2 "020lead" "b.xml";
                  Sample.opinion 9 2 "010combined" "b.xml" ] |}) /\
  exists clusters,
    harvard_clusters Sample.COLUMBIA_ARCHIVE Sample.options Sample.db
    = Ok clusters /\
    search_opinion
      {| search_opinioncluster := search_opinioncluster Sample.db;
         search_opinion :=
           [ with_key (Sample.opinion 7 1 "040dissent" "") (Some 2);
             Sample.opinion 5 1 "010combined" "";
             with_key (Sample.opinion 3 1 "020lead" "") (Some 1);
             Sample.opinion 8 2 "020lead" "b.xml";
             Sample.opinion 9 2 "010combined" "b.xml" ] |}
    = ranked Sample.COMBINED (pk <$> clusters) Sample.db.
Proof.
  split; [vm_compute; reflexivity|].
  destruct (harvard_keys_are_ranks Sample.COMBINED Sample.COLUMBIA_ARCHIVE
              Sample.sleep Sample.options Sample.db 1
              {| search_opinioncluster := search_opinioncluster Sample.db;
                 search_opinion :=
                   [ with_key (Sample.opinion 7 1 "040dissent" "") (Some 2);
                     Sample.opinion 5 1 "010combined" "";
                     with_key (Sample.opinion 3 1 "020lead" "") (Some 1);
                     Sample.opinion 8 2 "020lead" "b.xml";
                     Sample.opinion 9 2 "010combined" "b.xml" ] |})
    as (clusters & Hc & _ & Hr & _).
  - apply (bool_decide_unpack _). by vm_compute.
  - vm_compute. reflexivity.
  - by exists clusters.
Defined.

(** X15: [sort_harvard_opinions] run again on the database it leaves
    ends without an exception too, changes nothing and counts the same
    clusters. *)
Theorem sort_harvard_twice COMBINED COLUMBIA_ARCHIVE sleep options db
    completed db' :
  NoDup (id <$> search_opinion db) ->
  sort_harvard_opinions COMBINED COLUMBIA_ARCHIVE sleep options db
  = (Ok completed, db') ->
  sort_harvard_opinions COMBINED COLUMBIA_ARCHIVE sleep options db'
  = (Ok completed, db').
Proof.
  intros Hnd Hrun.
  destruct (sort_harvard_rows _ _ _ _ _ _ _ Hnd Hrun)
    as (clusters & Hclusters & Hcl & Hrows & Hn & Hcan).
  assert (Hnd' : NoDup (id <$> search_opinion db')).
  { by rewrite Hrows, ranked_ids. }
  assert (Hupd : forall c : OpinionCluster,
    Exists (fun op => cluster_id op = pk c /\ type op ≠ COMBINED)
      (search_opinion db')
    <-> Exists (fun op => cluster_id op = pk c /\ type op ≠ COMBINED)
          (search_opinion db)).
  { intros c. by apply updated_ranked with (done := pk <$> clusters). }
  unfold sort_harvard_opinions.
  rewrite (harvard_clusters_ranked _ _ _ _ _ _ Hrows Hcl), Hclusters.
  destruct (order_harvard_clusters_ok COMBINED sleep options clusters [] 0 db' db'
              Hnd') as (completed2 & db2 & Hrun2); [by rewrite ranked_nil|done| |].
  { destruct Hcan as [?|Hall]; [by left|right].
    eapply Forall_impl; [exact Hall|]. intros c Hc ?. by apply Hc, Hupd. }
  rewrite Hrun2.
  destruct (order_harvard_clusters_rows COMBINED sleep options clusters [] 0 db' db'
              completed2 db2 Hnd') as (Hr2 & Hc2 & Hn2 & _);
    [by rewrite ranked_nil|done..|].
  rewrite app_nil_r, (ranked_ranked _ _ _ _ Hrows), <- Hrows in Hr2.
  f_equal.
  - f_equal. rewrite Hn, Hn2, Z.add_0_l. f_equal. apply filter_ext_in.
    intros c _. apply Hupd.
  - destruct db2, db'. simpl in *. congruence.
Qed.

Lemma sort_harvard_twice_witness :
  (sort_harvard_opinions Sample.COMBINED Sample.COLUMBIA_ARCHIVE Sample.sleep
     Sample.options Sample.db).1 = Ok 1 /\
  sort_harvard_opinions Sample.COMBINED Sample.COLUMBIA_ARCHIVE Sample.sleep
    Sample.options
    (sort_harvard_opinions Sample.COMBINED Sample.COLUMBIA_ARCHIVE Sample.sleep
       Sample.options Sample.db).2
  = (Ok 1,
     (sort_harvard_opinions Sample.COMBINED Sample.COLUMBIA_ARCHIVE Sample.sleep
        Sample.options Sample.db).2).
Proof.
  split; [vm_compute; reflexivity|].
  apply (sort_harvard_twice Sample.COMBINED Sample.COLUMBIA_ARCHIVE Sample.sleep
           Sample.options Sample.db).
  - apply (bool_decide_unpack _). by vm_compute.
  - vm_compute. reflexivity.
Defined.

(** X24: what [sort_harvard_opinions] does with options that are
    refused.  A negative [limit] is refused with a [ValueError] when the
    query set is sliced, before any cluster is looked at.  With a delay
    that [time.sleep] refuses, a negative one for example, no
    [ordering_key] is ever saved: the command sleeps inside the
    transaction of a cluster, which is rolled back, so that the database
    stays as it was and the command cannot end with a cluster counted. *)
Theorem harvard_refused_options_save_nothing COMBINED COLUMBIA_ARCHIVE sleep
    options db :
  ((exists n, limit options = Some n /\ n < 0) ->
   sort_harvard_opinions COMBINED COLUMBIA_ARCHIVE sleep options db
   = (Raise ValueError, db)) /\
  ((exists e, sleep (delay options) = Raise e) ->
   (sort_harvard_opinions COMBINED COLUMBIA_ARCHIVE sleep options db).2 = db /\
   forall completed,
     (sort_harvard_opinions COMBINED COLUMBIA_ARCHIVE sleep options db).1
     = Ok completed ->
     completed = 0).
Proof.
  split.
  - intros (n & Hn & Hneg). unfold sort_harvard_opinions, harvard_clusters.
    rewrite Hn. simpl.
    destruct (Z.eqb_spec n 0); [lia|]. simpl.
    by destruct (Z.ltb_spec n 0); [|lia].
  - intros (e & Hsleep). unfold sort_harvard_opinions.
    destruct (harvard_clusters COLUMBIA_ARCHIVE options db) as [clusters| |];
      [|done..].
    apply (order_harvard_clusters_refused COMBINED sleep options clusters 0 db e
             Hsleep).
Qed.

Lemma harvard_refused_options_save_nothing_witness :
  sort_harvard_opinions Sample.COMBINED Sample.COLUMBIA_ARCHIVE Sample.sleep
    Sample.hurried Sample.db
  = (Raise ValueError, Sample.db) /\
  (sort_harvard_opinions Sample.COMBINED Sample.COLUMBIA_ARCHIVE Sample.sleep
     Sample.options Sample.db).1 = Ok 1 /\
  (sort_harvard_opinions Sample.COMBINED Sample.COLUMBIA_ARCHIVE Sample.sleep
     Sample.hurried Sample.db).2 = Sample.db.
Proof.
  split; [vm_compute; reflexivity|]. split; [vm_compute; reflexivity|].
  apply (proj2 (harvard_refused_options_save_nothing Sample.COMBINED
                  Sample.COLUMBIA_ARCHIVE Sample.sleep Sample.hurried Sample.db)).
  exists ValueError. vm_compute. reflexivity.
Defined.

Section Columbia.

Variable COMBINED LEAD COLUMBIA_ARCHIVE : string.
Variable sleep : SpecFloat.spec_float -> outcome unit.
Variable read : string -> outcome string.
Variable soup_text : string -> string.
Variable words_of : string -> list string.

Abbreviation ordered_of xml_dir db c :=
  (ordered_opinions LEAD read soup_text words_of xml_dir (opinions_of db c)).

Lemma insert_by_str_Permutation {A} (key : A -> string) (x : A) (l : list A) :
  insert_by_str key x l ≡ₚ x :: l.
Proof.
  induction l as [|y l IH]; [done|]. simpl.
  destruct (String.leb (key x) (key y)); [done|]. by rewrite IH, Permutation_swap.
Qed.

Lemma sorted_str_Permutation {A} (key : A -> string) (l : list A) :
  sorted_str key l ≡ₚ l.
Proof.
  induction l as [|x l IH]; [done|]. simpl.
  by rewrite insert_by_str_Permutation, IH.
Qed.

(** The order of a cluster names each of its opinions once. *)
Lemma ordered_opinions_Permutation xml_dir (opinions : list opinion)
    (ordered : list Z) :
  ordered_opinions LEAD read soup_text words_of xml_dir opinions = Ok (Some ordered) ->
  ordered ≡ₚ OpinionsOrder.id <$> opinions /\ (2 <= length opinions)%nat.
Proof.
  unfold ordered_opinions.
  destruct (Z.ltb_spec (len opinions) 2) as [|Hlen]; [done|].
  assert (2 <= length opinions)%nat by (unfold len in Hlen; lia).
  destruct (_ && _ && _).
  - intros [= <-]. split; [|done].
    rewrite sorted_str_Permutation, <- list_fmap_compose. done.
  - unfold match_text.
    destruct (first_item opinions) as [first| |]; [|done..]. cbn [and_then].
    destruct (Xml.get_xml _ _ _) as [columbia_words| |]; [|done..].
    cbn [and_then]. intros [= <-]. split; [|done].
    rewrite sorted_Permutation, <- list_fmap_compose. done.
Qed.

Lemma position_None (i : Z) (ids : list Z) : i ∉ ids -> position i ids = None.
Proof.
  induction ids as [|j ids IH]; [done|]. intros Hnotin. simpl.
  rewrite decide_False by (intros ->; apply Hnotin; left).
  rewrite IH; [done|]. intros Hin. apply Hnotin. by right.
Qed.

Lemma position_Some (i : Z) (ids : list Z) :
  i ∈ ids -> exists place, position i ids = Some place.
Proof.
  induction ids as [|j ids IH]; [by intros ?%elem_of_nil|].
  intros Hin. simpl. destruct (decide (i = j)); [by eexists|].
  apply elem_of_cons in Hin as [?|Hin]; [done|].
  destruct (IH Hin) as (place & ->). by eexists.
Qed.

(** The loop that saves the keys gives every opinion that the order
    names its place. *)
Lemma save_order_rows (ordered : list Z) (n : Z) (db : database) :
  NoDup ordered ->
  search_opinion (save_order ordered n db)
  = (fun op => match position (id op) ordered with
               | Some place => with_key op (Some (n + place))
               | None => op
               end) <$> search_opinion db /\
  search_opinioncluster (save_order ordered n db) = search_opinioncluster db.
Proof.
  intros Hnd. revert n db.
  induction Hnd as [|i ids Hnotin Hnd IH]; intros n db.
  { simpl. split; [|done]. by rewrite list_fmap_id. }
  simpl. destruct (IH (n + 1) (save db i n)) as [-> ->]. split; [|done].
  rewrite save_rows, <- list_fmap_compose. apply list_fmap_ext.
  intros _ op _. simpl. destruct (decide (id op = i)) as [Heq|Hne].
  - simpl. rewrite Heq, position_None by done.
    unfold with_key. simpl. do 2 f_equal. lia.
  - destruct (position (id op) ids) as [place|]; [|done]. simpl.
    do 2 f_equal. lia.
Qed.

Lemma opinions_of_fmap (f : Opinion -> Opinion) db db' (c : Z) :
  (forall op, id (f op) = id op /\ cluster_id (f op) = cluster_id op /\
              type (f op) = type op /\ html_columbia (f op) = html_columbia op /\
              local_path (f op) = local_path op) ->
  search_opinion db' = f <$> search_opinion db ->
  opinions_of db' c = opinions_of db c.
Proof.
  intros Hf Hrows. unfold opinions_of. rewrite Hrows, filter_fmap.
  rewrite <- list_fmap_compose.
  rewrite (filter_ext_in _ (fun op => cluster_id op = c /\ local_path op ≠ "")).
  - apply list_fmap_ext. intros _ op _. simpl.
    destruct (Hf op) as (? & _ & ? & ? & ?). by f_equal.
  - intros op _. destruct (Hf op) as (_ & Hc & _ & _ & Hl). by rewrite Hc, Hl.
Qed.

Lemma placed_same order (op : Opinion) :
  id (placed order op) = id op /\ cluster_id (placed order op) = cluster_id op /\
  type (placed order op) = type op /\
  html_columbia (placed order op) = html_columbia op /\
  local_path (placed order op) = local_path op.
Proof. unfold placed. by repeat case_match. Qed.

Lemma orders_ext xml_dir done1 done2 db (c : Z) :
  (c ∈ done1 <-> c ∈ done2) ->
  orders LEAD read soup_text words_of xml_dir done1 db c
  = orders LEAD read soup_text words_of xml_dir done2 db c.
Proof.
  intros Hsame. unfold orders.
  destruct (decide (c ∈ done1)) as [Hin|Hnotin].
  - by rewrite decide_True by (by apply Hsame).
  - by rewrite decide_False by (by rewrite <- Hsame).
Qed.

Lemma ordered_ids_of_cluster xml_dir db (c : Z) (ordered : list Z) :
  NoDup (id <$> search_opinion db) ->
  ordered_of xml_dir db c = Ok (Some ordered) ->
  NoDup ordered /\
  forall op, op ∈ search_opinion db -> id op ∈ ordered -> cluster_id op = c.
Proof.
  intros Hnd Hordered.
  apply ordered_opinions_Permutation in Hordered as [Hperm _].
  assert (Hids : OpinionsOrder.id <$> opinions_of db c
                 = id <$> filter (fun op => cluster_id op = c /\ local_path op ≠ "")
                            (search_opinion db)).
  { unfold opinions_of. by rewrite <- list_fmap_compose. }
  rewrite Hids in Hperm. split.
  - rewrite Hperm. apply (sublist_NoDup _ (id <$> search_opinion db)); [done|].
    apply fmap_sublist, sublist_filter.
  - intros op Hop Hin. rewrite Hperm in Hin.
    apply list_elem_of_fmap in Hin as (op' & Hid & Hop').
    apply list_elem_of_filter in Hop' as [[Hc _] Hop'].
    by rewrite (unique_by_id _ op op' Hnd Hop Hop' Hid).
Qed.

Abbreviation processed xml_dir db clusters :=
  (fun c : Z =>
     is_Some (orders LEAD read soup_text words_of xml_dir clusters db c)).

Lemma order_columbia_clusters_rows options xml_dir (clusters : list Z) done
    (completed : Z) db dbc completed' db' :
  NoDup (id <$> search_opinion db) ->
  search_opinion dbc
  = placed (orders LEAD read soup_text words_of xml_dir done db)
    <$> search_opinion db ->
  search_opinioncluster dbc = search_opinioncluster db ->
  order_columbia_clusters LEAD sleep read soup_text words_of options xml_dir
    clusters completed dbc
  = (Ok completed', db') ->
  search_opinion db'
  = placed (orders LEAD read soup_text words_of xml_dir (clusters ++ done) db)
    <$> search_opinion db /\
  search_opinioncluster db' = search_opinioncluster db /\
  completed' = completed + len (filter (processed xml_dir db clusters) clusters).
Proof.
  intros Hnd. revert done completed dbc.
  induction clusters as [|c clusters IH]; intros done completed dbc Hrows Hcl Hrun.
  { simpl in Hrun. injection Hrun as <- <-. split_and!; [done..|].
    unfold len. simpl. lia. }
  simpl in Hrun.
  rewrite (opinions_of_fmap _ db dbc c (placed_same _) Hrows) in Hrun.
  assert (Hcount : forall n,
    n + len (filter (processed xml_dir db clusters) clusters)
    = n + len (filter (processed xml_dir db (c :: clusters)) clusters) /\
    (processed xml_dir db (c :: clusters) c
     <-> exists ordered, ordered_of xml_dir db c = Ok (Some ordered))).
  { intros n. split.
    - do 2 f_equal. apply filter_ext_in. intros x Hx. unfold orders.
      rewrite !decide_True by (done || by right). done.
    - unfold orders. rewrite decide_True by left.
      destruct (ordered_of xml_dir db c) as [[ordered|]| |].
      + split; [by eexists | by intros _].
      + split; [by intros [? ?] | by intros [? ?]].
      + split; [by intros [? ?] | by intros [? ?]].
      + split; [by intros [? ?] | by intros [? ?]]. }
  assert (Hlist : forall x, x ∈ clusters ++ c :: done <-> x ∈ (c :: clusters) ++ done).
  { intros x. rewrite ?elem_of_app, ?elem_of_cons, ?elem_of_app. tauto. }
  destruct (ordered_of xml_dir db c) as [[ordered|]| |] eqn:Hordered; [| |done..].
  - destruct (sleep (delay options)) as [[]| |]; [|done..].
    destruct (ordered_ids_of_cluster _ _ _ _ Hnd Hordered) as [Hndo Hcluster].
    destruct (save_order_rows ordered 1 dbc Hndo) as [Hr1 Hc1].
    destruct (IH (c :: done) (completed + 1) (save_order ordered 1 dbc))
      as (Hr & Hc & Hn); [| |done|].
    + rewrite Hr1, Hrows, <- list_fmap_compose.
      apply Forall_fmap_ext_1, Forall_forall. intros op Hop. simpl.
      destruct (placed_same (orders LEAD read soup_text words_of xml_dir done db) op)
        as (Hid & _).
      rewrite Hid.
      destruct (decide (cluster_id op = c)) as [Heq|Hne].
      * assert (H1 : orders LEAD read soup_text words_of xml_dir (c :: done) db
                       (cluster_id op) = Some ordered).
        { unfold orders. rewrite Heq, decide_True by left. by rewrite Hordered. }
        assert (H2 : orders LEAD read soup_text words_of xml_dir done db
                       (cluster_id op) = Some ordered \/
                     orders LEAD read soup_text words_of xml_dir done db
                       (cluster_id op) = None).
        { unfold orders. rewrite Heq.
          case_decide; [left; by rewrite Hordered | by right]. }
        unfold placed. rewrite H1.
        destruct H2 as [-> | ->]; by destruct (position (id op) ordered).
      * rewrite position_None.
        -- unfold placed. rewrite (orders_ext _ done (c :: done)); [done|].
           rewrite elem_of_cons. split; [by right | by intros [?|?]].
        -- intros Hin. by apply Hne, Hcluster.
    + by rewrite Hc1.
    + split_and!; [|done|].
      * rewrite Hr. apply list_fmap_ext. intros _ op _.
        unfold placed. by rewrite (orders_ext _ _ _ _ _ (Hlist _)).
      * rewrite Hn, filter_cons.
        destruct (Hcount (completed + 1)) as [Heq Hproc]. rewrite Heq.
        rewrite decide_True by (apply Hproc; by eexists).
        unfold len. simpl. lia.
  - destruct (IH (c :: done) completed dbc) as (Hr & Hc & Hn); [| |done|].
    + rewrite Hrows. apply list_fmap_ext. intros _ op _.
      unfold placed.
      destruct (decide (cluster_id op = c)) as [Heq|Hne].
      * unfold orders. rewrite Heq, Hordered. by repeat case_decide.
      * rewrite (orders_ext _ done (c :: done)); [done|].
        rewrite elem_of_cons. split; [by right | by intros [?|?]].
    + done.
    + split_and!; [|done|].
      * rewrite Hr. apply list_fmap_ext. intros _ op _.
        unfold placed. by rewrite (orders_ext _ _ _ _ _ (Hlist _)).
      * rewrite Hn, filter_cons.
        destruct (Hcount completed) as [Heq Hproc]. rewrite Heq.
        rewrite decide_False; [done|].
        intros (ordered & ?)%Hproc. done.
Qed.

Lemma positions_of_all (ordered : list Z) :
  NoDup ordered ->
  (fun i => position i ordered) <$> ordered
  = (fun k => Some (Z.of_nat k)) <$> seq 0 (length ordered).
Proof.
  induction 1 as [|i ids Hnotin Hnd IH]; [done|].
  simpl. rewrite decide_True by done. f_equal.
  rewrite <- fmap_S_seq, <- list_fmap_compose.
  transitivity (fmap Z.succ <$> ((fun i => position i ids) <$> ids)).
  - rewrite <- list_fmap_compose. apply Forall_fmap_ext_1, Forall_forall.
    intros j Hj. simpl. rewrite decide_False; [done|]. by intros ->.
  - rewrite IH, <- list_fmap_compose. apply list_fmap_ext.
    intros _ k _. simpl. f_equal. lia.
Qed.

(** The keys of the opinions of a cluster that has an order. *)
Lemma placed_keys xml_dir done db (c : Z) (ordered : list Z) :
  NoDup (id <$> search_opinion db) ->
  c ∈ done ->
  ordered_of xml_dir db c = Ok (Some ordered) ->
  ordering_key
  <$> filter (fun op => cluster_id op = c /\ local_path op ≠ "")
        (placed (orders LEAD read soup_text words_of xml_dir done db)
         <$> search_opinion db)
  ≡ₚ (fun k => Some (Z.of_nat k)) <$> seq 1 (length ordered).
Proof.
  intros Hnd Hc Hordered.
  destruct (ordered_ids_of_cluster _ _ _ _ Hnd Hordered) as [Hndo _].
  apply ordered_opinions_Permutation in Hordered as Hperm.
  destruct Hperm as [Hperm _].
  assert (Hids : OpinionsOrder.id <$> opinions_of db c
                 = id <$> filter (fun op => cluster_id op = c /\ local_path op ≠ "")
                            (search_opinion db)).
  { unfold opinions_of. by rewrite <- list_fmap_compose. }
  rewrite Hids in Hperm.
  rewrite filter_fmap.
  rewrite (filter_ext_in _ (fun op => cluster_id op = c /\ local_path op ≠ ""));
    last first.
  { intros op _. destruct (placed_same
      (orders LEAD read soup_text words_of xml_dir done db) op)
      as (_ & -> & _ & _ & ->). done. }
  rewrite <- list_fmap_compose.
  transitivity (fmap (Z.add 1) <$> ((fun i => position i ordered)
    <$> (id <$> filter (fun op => cluster_id op = c /\ local_path op ≠ "")
                  (search_opinion db)))).
  - rewrite <- !list_fmap_compose.
    apply eq_subrelation; [apply _|].
    apply Forall_fmap_ext_1, Forall_forall. intros op Hop. simpl.
    apply list_elem_of_filter in Hop as Hop'. destruct Hop' as [[Hcl _] _].
    unfold placed, orders. rewrite Hcl, decide_True by done. rewrite Hordered.
    destruct (position_Some (id op) ordered) as (place & ->); [|done].
    rewrite Hperm. by apply list_elem_of_fmap_2.
  - rewrite <- Hperm, positions_of_all by done.
    rewrite <- fmap_S_seq, <- !list_fmap_compose.
    apply eq_subrelation; [apply _|]. apply list_fmap_ext.
    intros _ k _. simpl. f_equal. lia.
Qed.

End Columbia.

(** X16: [sort_columbia_opinions], when it ends without an exception,
    has given every opinion that the order of its cluster names its
    place in that order as [ordering_key], counted from 1, and has
    changed nothing else.  A cluster has an order when it is selected
    and holds two opinions or more with a [local_path]; the order names
    each of these opinions once, so that they get the keys 1 to n, each
    once.  The ids of the opinions are unique. *)
Theorem columbia_keys_are_places LEAD COLUMBIA_ARCHIVE sleep read soup_text
    words_of options db completed db' :
  NoDup (id <$> search_opinion db) ->
  sort_columbia_opinions LEAD COLUMBIA_ARCHIVE sleep read soup_text words_of
    options db
  = (Ok completed, db') ->
  search_opinioncluster db' = search_opinioncluster db /\
  search_opinion db'
  = placed (orders LEAD read soup_text words_of (xml_dir options)
              (columbia_clusters COLUMBIA_ARCHIVE options db) db)
    <$> search_opinion db /\
  completed
  = len (filter (fun c => is_Some (orders LEAD read soup_text words_of
                                     (xml_dir options)
                                     (columbia_clusters COLUMBIA_ARCHIVE options db)
                                     db c))
           (columbia_clusters COLUMBIA_ARCHIVE options db)) /\
  forall c ordered,
    c ∈ columbia_clusters COLUMBIA_ARCHIVE options db ->
    ordered_opinions LEAD read soup_text words_of (xml_dir options)
      (opinions_of db c) = Ok (Some ordered) ->
    (2 <= length ordered)%nat /\
    ordered ≡ₚ id <$> filter (fun op => cluster_id op = c /\ local_path op ≠ "")
                        (search_opinion db) /\
    ordering_key
    <$> filter (fun op => cluster_id op = c /\ local_path op ≠ "")
          (search_opinion db')
    ≡ₚ (fun k => Some (Z.of_nat k)) <$> seq 1 (length ordered).
Proof.
  intros Hnd Hrun. unfold sort_columbia_opinions in Hrun.
  destruct (order_columbia_clusters_rows LEAD sleep read soup_text words_of
              options
              (xml_dir options) (columbia_clusters COLUMBIA_ARCHIVE options db)
              [] 0 db db completed db' Hnd) as (Hr & Hc & Hn); [|done..|].
  { rewrite <- (list_fmap_id (search_opinion db)) at 1.
    apply list_fmap_ext. by intros _ op _. }
  rewrite app_nil_r in Hr. split_and!; [done..|lia|].
  intros c ordered Hin Hordered.
  apply ordered_opinions_Permutation in Hordered as Hperm.
  destruct Hperm as [Hperm Hlen]. split_and!.
  - by rewrite Hperm, length_fmap.
  - rewrite Hperm. unfold opinions_of. by rewrite <- list_fmap_compose.
  - rewrite Hr. by eapply placed_keys.
Qed.

Lemma StronglySorted_filter {A} (R : relation A) (P : A -> Prop)
    `{!forall x, Decision (P x)} (l : list A) :
  StronglySorted R l -> StronglySorted R (filter P l).
Proof.
  induction 1 as [|x l Hs IH Hx]; [constructor|].
  rewrite filter_cons. destruct (decide (P x)); [|done].
  constructor; [done|]. rewrite Forall_forall in Hx |- *.
  intros y [_ Hy]%list_elem_of_filter. by apply Hx.
Qed.

Lemma StronglySorted_take {A} (R : relation A) (n : nat) (l : list A) :
  StronglySorted R l -> StronglySorted R (take n l).
Proof.
  intros Hs. rewrite <- (take_drop n l) in Hs. by apply StronglySorted_app_1_l in Hs.
Qed.

Lemma StronglySorted_sublist {A} (R : relation A) (l1 l2 : list A) :
  l1 `sublist_of` l2 -> StronglySorted R l2 -> StronglySorted R l1.
Proof.
  induction 1 as [|c l1 l2 Hl IH|c l1 l2 Hl IH]; intros Hsorted; [constructor| |].
  - apply StronglySorted_inv in Hsorted as [Hs Hc].
    constructor; [by apply IH|].
    apply Forall_forall. intros x Hx. rewrite Forall_forall in Hc.
    apply Hc. by eapply elem_of_sublist.
  - apply StronglySorted_inv in Hsorted as [Hs _]. by apply IH.
Qed.

(** X17: the clusters that the two actions select.  [sort-harvard]
    selects the clusters of Harvard that have more than one opinion and
    are not merged with Columbia, from the cluster [skip_until] on, that
    cluster included, and all of them when [skip_until] is 0 or not
    given; it takes them in ascending order of their primary keys, the
    first [limit] of them when a [limit] other than 0 is given.
    [sort-columbia] selects the clusters merged with Columbia after the
    cluster [skip_until], that cluster excluded, in ascending order.  No
    cluster is selected by both, whatever their options.  The primary
    keys of the clusters are unique. *)
Theorem clusters_of_the_actions COLUMBIA_ARCHIVE options options' db clusters :
  NoDup (pk <$> search_opinioncluster db) ->
  harvard_clusters COLUMBIA_ARCHIVE options db = Ok clusters ->
  (exists selected,
     clusters = match limit options with
                | Some n => if n =? 0 then selected
                            else take (Z.to_nat n) selected
                | None => selected
                end /\
     StronglySorted (fun a b => pk a < pk b) selected /\
     forall c,
       c ∈ selected <->
       c ∈ search_opinioncluster db /\ filepath_json_harvard c ≠ "" /\
       1 < len (sub_opinions db (pk c)) /\
       ~ contains (source c) COLUMBIA_ARCHIVE /\
       forall skip, skip_until options = Some skip -> skip ≠ 0 -> skip <= pk c) /\
  StronglySorted (fun a b => pk a < pk b) clusters /\
  StronglySorted Z.lt (columbia_clusters COLUMBIA_ARCHIVE options' db) /\
  (forall i,
     i ∈ columbia_clusters COLUMBIA_ARCHIVE options' db <->
     (exists c, c ∈ search_opinioncluster db /\ pk c = i /\
                contains (source c) COLUMBIA_ARCHIVE) /\
     forall skip, skip_until options' = Some skip -> skip < i) /\
  (forall c, c ∈ clusters ->
             pk c ∉ columbia_clusters COLUMBIA_ARCHIVE options' db).
Proof.
  intros Hnd Hclusters.
  set (chosen := filter (fun c => ~ contains (source c) COLUMBIA_ARCHIVE)
                   (filter (fun c => 1 < len (sub_opinions db (pk c)))
                      (filter (fun c => filepath_json_harvard c ≠ "")
                         (search_opinioncluster db)))).
  set (skipped := match skip_until options with
                  | Some skip =>
                      if given (Some skip)
                      then filter (fun c => skip <= pk c) (Py.sorted pk chosen)
                      else Py.sorted pk chosen
                  | None => Py.sorted pk chosen
                  end).
  assert (Hsub : forall (P : OpinionCluster -> Prop) `{!forall x, Decision (P x)},
    NoDup (pk <$> filter P (search_opinioncluster db))).
  { intros P ?. apply (sublist_NoDup _ (pk <$> search_opinioncluster db)); [done|].
    apply fmap_sublist, sublist_filter. }
  assert (Hchosen : NoDup (pk <$> chosen)).
  { unfold chosen. rewrite !list_filter_filter. apply Hsub. }
  assert (Hsorted : StronglySorted (fun a b => pk a < pk b) skipped).
  { unfold skipped. repeat case_match;
      try apply StronglySorted_filter; by apply sorted_strictly. }
  assert (Hin_chosen : forall c,
    c ∈ chosen <->
    c ∈ search_opinioncluster db /\ filepath_json_harvard c ≠ "" /\
    1 < len (sub_opinions db (pk c)) /\ ~ contains (source c) COLUMBIA_ARCHIVE).
  { intros c. unfold chosen. rewrite !list_elem_of_filter. tauto. }
  assert (Hamong : forall c,
    c ∈ skipped <->
    c ∈ search_opinioncluster db /\ filepath_json_harvard c ≠ "" /\
    1 < len (sub_opinions db (pk c)) /\
    ~ contains (source c) COLUMBIA_ARCHIVE /\
    forall skip, skip_until options = Some skip -> skip ≠ 0 -> skip <= pk c).
  { intros c. unfold skipped.
    destruct (skip_until options) as [skip|] eqn:Hskip.
    - simpl. destruct (Z.eqb_spec skip 0) as [->|Hne]; simpl.
      + rewrite sorted_Permutation, Hin_chosen. split.
        * intros (? & ? & ? & ?). split_and!; try done. by intros ? [= <-].
        * intros (? & ? & ? & ? & _). done.
      + rewrite list_elem_of_filter, sorted_Permutation, Hin_chosen. split.
        * intros (? & ? & ? & ? & ?). split_and!; try done. by intros ? [= <-].
        * intros (? & ? & ? & ? & Hle). split_and!; try done. by apply Hle.
    - rewrite sorted_Permutation, Hin_chosen. split.
      + intros (? & ? & ? & ?). split_and!; done.
      + intros (? & ? & ? & ? & _). done. }
  assert (Hlimited : clusters = match limit options with
                                | Some n => if n =? 0 then skipped
                                            else take (Z.to_nat n) skipped
                                | None => skipped
                                end).
  { unfold harvard_clusters in Hclusters. fold chosen in Hclusters.
    fold skipped in Hclusters.
    destruct (limit options) as [n|]; [|by injection Hclusters].
    simpl in Hclusters. destruct (Z.eqb_spec n 0); simpl in Hclusters;
      [by injection Hclusters|].
    destruct (Z.ltb_spec n 0); [done | by injection Hclusters]. }
  assert (Hlimit : clusters `sublist_of` skipped).
  { rewrite Hlimited. repeat case_match; try done; apply sublist_take. }
  assert (Hcolumbia : forall i,
    i ∈ columbia_clusters COLUMBIA_ARCHIVE options' db <->
    (exists c, c ∈ search_opinioncluster db /\ pk c = i /\
               contains (source c) COLUMBIA_ARCHIVE) /\
    forall skip, skip_until options' = Some skip -> skip < i).
  { intros i. unfold columbia_clusters.
    assert (Hin : i ∈ pk <$> Py.sorted pk
                    (filter (fun c => contains (source c) COLUMBIA_ARCHIVE)
                       (search_opinioncluster db))
                  <-> exists c, c ∈ search_opinioncluster db /\ pk c = i /\
                                contains (source c) COLUMBIA_ARCHIVE).
    { rewrite list_elem_of_fmap. split.
      - intros (c & -> & Hc). rewrite sorted_Permutation in Hc.
        apply list_elem_of_filter in Hc as [Hyes Hc]. by exists c.
      - intros (c & Hc & <- & Hyes). exists c. split; [done|].
        rewrite sorted_Permutation. by apply list_elem_of_filter. }
    destruct (skip_until options') as [skip|].
    - rewrite list_elem_of_filter, Hin. split.
      + intros [Hlt Hc]. split; [done|]. by intros ? [= <-].
      + intros [Hc Hlt]. split; [by apply Hlt | done].
    - rewrite Hin. split; [by intros ? | by intros [? _]]. }
  split_and!.
  - by exists skipped.
  - by eapply StronglySorted_sublist.
  - unfold columbia_clusters.
    assert (Hs : StronglySorted Z.lt
                   (pk <$> Py.sorted pk
                      (filter (fun c => contains (source c) COLUMBIA_ARCHIVE)
                         (search_opinioncluster db)))).
    { eapply StronglySorted_fmap; [|apply sorted_strictly, Hsub].
      by intros x y. }
    destruct (skip_until options'); [by apply StronglySorted_filter | done].
  - done.
  - intros c Hc Hin.
    destruct (proj1 (Hamong c)) as (Hc1 & _ & _ & Hno & _);
      [by eapply elem_of_sublist|].
    destruct (proj1 (Hcolumbia _) Hin) as [(c' & Hc' & Hpk & Hyes) _].
    assert (c' = c) as ->; [|done].
    apply list_elem_of_lookup_1 in Hc1 as (i & Hi).
    apply list_elem_of_lookup_1 in Hc' as (j & Hj).
    assert (j = i) as ->; [|congruence].
    eapply NoDup_lookup; [exact Hnd| |].
    + by rewrite list_lookup_fmap, Hj.
    + by rewrite list_lookup_fmap, Hi, Hpk.
Qed.

Lemma clusters_of_the_actions_witness :
  harvard_clusters Sample.COLUMBIA_ARCHIVE (Sample.from_cluster 1) Sample.db
  = Ok [ {| pk := 1; filepath_json_harvard := "a.json"; source := "U" |} ] /\
  harvard_clusters Sample.COLUMBIA_ARCHIVE (Sample.from_cluster 2) Sample.db
  = Ok [] /\
  columbia_clusters Sample.COLUMBIA_ARCHIVE (Sample.from_cluster 1) Sample.db
  = [2] /\
  columbia_clusters Sample.COLUMBIA_ARCHIVE (Sample.from_cluster 2) Sample.db
  = [] /\
  (forall i,
     i ∈ columbia_clusters Sample.COLUMBIA_ARCHIVE (Sample.from_cluster 2)
           Sample.db <->
     (exists c, c ∈ search_opinioncluster Sample.db /\ pk c = i /\
                contains (source c) Sample.COLUMBIA_ARCHIVE) /\
     forall skip, skip_until (Sample.from_cluster 2) = Some skip -> skip < i).
Proof.
  do 4 (split; [vm_compute; reflexivity|]).
  eapply (clusters_of_the_actions Sample.COLUMBIA_ARCHIVE (Sample.from_cluster 1)
            (Sample.from_cluster 2) Sample.db).
  - apply (bool_decide_unpack _). by vm_compute.
  - vm_compute. reflexivity.
Defined.

(** X18: a cluster with two opinions of different types, one of them
    the lead opinion, is ordered by the text of the types: the opinion
    whose type comes first gets the key 1, be it the lead opinion or not;
    two opinions of one type, or none of them the lead opinion, are
    ordered by [match_text]. *)
Theorem lead_pair_is_ordered_by_type LEAD read soup_text words_of xml_dir
    (a b : opinion) :
  (OpinionsOrder.type a ≠ OpinionsOrder.type b ->
   LEAD = OpinionsOrder.type a \/ LEAD = OpinionsOrder.type b ->
   ordered_opinions LEAD read soup_text words_of xml_dir [a; b]
   = Ok (Some (if String.leb (OpinionsOrder.type a) (OpinionsOrder.type b)
               then [OpinionsOrder.id a; OpinionsOrder.id b]
               else [OpinionsOrder.id b; OpinionsOrder.id a]))) /\
  (OpinionsOrder.type a = OpinionsOrder.type b \/
   (LEAD ≠ OpinionsOrder.type a /\ LEAD ≠ OpinionsOrder.type b) ->
   ordered_opinions LEAD read soup_text words_of xml_dir [a; b]
   = let? ordered :=
       match_text (Xml.get_xml read soup_text) words_of [a; b] xml_dir in
     Ok (Some ((fun op => op.1.1) <$> ordered))).
Proof.
  unfold ordered_opinions. simpl.
  destruct (decide_rel elem_of (OpinionsOrder.type a) [OpinionsOrder.type b])
    as [Hin|Hnotin].
  - apply list_elem_of_singleton in Hin.
    split; [done|]. intros _. simpl. by rewrite andb_false_r.
  - assert (Hne : OpinionsOrder.type a ≠ OpinionsOrder.type b).
    { intros Heq. apply Hnotin. rewrite Heq. left. }
    simpl. rewrite andb_true_r. split.
    + intros _ Hlead.
      rewrite bool_decide_eq_true_2; last first.
      { destruct Hlead as [-> | ->]; [left | right; left]. }
      by destruct (String.leb _ _).
    + intros [?|[Ha Hb]]; [done|].
      rewrite bool_decide_eq_false_2; [done|].
      intros [?|[?|[]%elem_of_nil]%elem_of_cons]%elem_of_cons; done.
Qed.

Lemma lead_pair_is_ordered_by_type_witness :
  ordered_opinions Sample.LEAD Sample.read Sample.soup_text Sample.words_of "/tmp"
    (opinions_of Sample.db 2)
  = Ok (Some [9; 8]).
Proof.
  apply (proj1 (lead_pair_is_ordered_by_type Sample.LEAD Sample.read
                  Sample.soup_text Sample.words_of "/tmp"
                  {| OpinionsOrder.id := 8; OpinionsOrder.type := "020lead";
                     OpinionsOrder.html_columbia := "020lead";
                     OpinionsOrder.local_path := "b.xml" |}
                  {| OpinionsOrder.id := 9; OpinionsOrder.type := "010combined";
                     OpinionsOrder.html_columbia := "010combined";
                     OpinionsOrder.local_path := "b.xml" |})).
  - done.
  - by left.
Defined.

Section Failure.

Variable LEAD : string.
Variable sleep : SpecFloat.spec_float -> outcome unit.
Variable read : string -> outcome string.
Variable soup_text : string -> string.
Variable words_of : string -> list string.

Lemma opinions_of_save db (op_id key c : Z) :
  opinions_of (save db op_id key) c = opinions_of db c.
Proof.
  apply (opinions_of_fmap
           (fun op => if decide (id op = op_id) then with_key op (Some key) else op));
    [|done].
  intros op. by case_decide.
Qed.

Lemma opinions_of_save_order (ordered : list Z) (n : Z) db (c : Z) :
  opinions_of (save_order ordered n db) c = opinions_of db c.
Proof.
  revert n db. induction ordered as [|i ordered IH]; intros n db; [done|].
  simpl. by rewrite IH, opinions_of_save.
Qed.

(** The one exception of [ordered_opinions] is that of reading the file
    of the first opinion. *)
Lemma ordered_opinions_raise xml_dir (opinions : list opinion) (e : exn) :
  ordered_opinions LEAD read soup_text words_of xml_dir opinions = Raise e ->
  exists first,
    head opinions = Some first /\
    read (replace (OpinionsOrder.local_path first)
            "/home/mlissner/columbia/opinions" xml_dir) = Raise e.
Proof.
  unfold ordered_opinions.
  destruct (Z.ltb_spec (len opinions) 2) as [|Hlen]; [done|].
  destruct (_ && _ && _); [done|].
  unfold match_text.
  destruct opinions as [|first opinions]; [unfold len in Hlen; simpl in Hlen; lia|].
  cbn [first_item and_then]. unfold Xml.get_xml.
  destruct (read _) as [content| |] eqn:Hread; [done| |done].
  cbn [and_then]. intros [= <-]. by exists first.
Qed.

(** The loop over [before ++ rest] is the loop over [before] followed,
    when that ends without an exception, by the loop over [rest]. *)
Lemma order_columbia_clusters_app options xml_dir (before rest : list Z)
    (completed : Z) db (completed' : Z) saved :
  order_columbia_clusters LEAD sleep read soup_text words_of options xml_dir
    before completed db
  = (Ok completed', saved) ->
  order_columbia_clusters LEAD sleep read soup_text words_of options xml_dir
    (before ++ rest) completed db
  = order_columbia_clusters LEAD sleep read soup_text words_of options xml_dir
      rest completed' saved.
Proof.
  revert completed db.
  induction before as [|c before IH]; intros completed db Hrun.
  { simpl in Hrun. by injection Hrun as <- <-. }
  simpl in Hrun |- *.
  destruct (ordered_opinions LEAD read soup_text words_of xml_dir
              (opinions_of db c)) as [[ordered|]| |]; [| |done..].
  - destruct (sleep (delay options)); [|done..]. by apply IH.
  - by apply IH.
Qed.

(** The loop leaves the rows that [values_list] returns as they are. *)
Lemma order_columbia_clusters_opinions options xml_dir (clusters : list Z)
    (completed : Z) db (c : Z) :
  opinions_of
    (order_columbia_clusters LEAD sleep read soup_text words_of options xml_dir
       clusters completed db).2 c
  = opinions_of db c.
Proof.
  revert completed db.
  induction clusters as [|c' clusters IH]; intros completed db; [done|].
  simpl.
  destruct (ordered_opinions LEAD read soup_text words_of xml_dir
              (opinions_of db c')) as [[ordered|]| |]; [| |done..].
  - destruct (sleep (delay options)); simpl.
    + by rewrite IH, opinions_of_save_order.
    + by rewrite opinions_of_save_order.
    + by rewrite opinions_of_save_order.
  - apply IH.
Qed.

End Failure.

(** X19: a file that cannot be read stops [sort_columbia_opinions] and
    keeps the clusters before it.  When the clusters before the cluster
    [c] have been ordered and saved, and [c] is a cluster that
    [match_text] orders whose first opinion has a file that cannot be
    read, the command ends in the exception of reading that file.  The
    database is then the one that the clusters before [c] leave: their
    opinions have their keys, and no opinion of [c] or of a later cluster
    is touched.  The ids of the opinions are unique. *)
Theorem columbia_failure_keeps_earlier_clusters LEAD COLUMBIA_ARCHIVE sleep read
    soup_text words_of options db (before : list Z) (c : Z) (after : list Z)
    (completed : Z) saved (e : exn) :
  NoDup (id <$> search_opinion db) ->
  columbia_clusters COLUMBIA_ARCHIVE options db = before ++ c :: after ->
  order_columbia_clusters LEAD sleep read soup_text words_of options
    (xml_dir options) before 0 db = (Ok completed, saved) ->
  ordered_opinions LEAD read soup_text words_of (xml_dir options)
    (opinions_of db c) = Raise e ->
  sort_columbia_opinions LEAD COLUMBIA_ARCHIVE sleep read soup_text words_of
    options db
  = (Raise e, saved) /\
  search_opinioncluster saved = search_opinioncluster db /\
  search_opinion saved
  = placed (orders LEAD read soup_text words_of (xml_dir options) before db)
    <$> search_opinion db /\
  exists first,
    head (opinions_of db c) = Some first /\
    read (replace (OpinionsOrder.local_path first)
            "/home/mlissner/columbia/opinions" (xml_dir options)) = Raise e.
Proof.
  intros Hnd Hclusters Hbefore Hraise.
  split_and!.
  - unfold sort_columbia_opinions. cbv zeta. rewrite Hclusters.
    rewrite (order_columbia_clusters_app _ _ _ _ _ _ _ _ _ _ _ _ _ Hbefore).
    simpl.
    pose proof (order_columbia_clusters_opinions LEAD sleep read soup_text
                  words_of options (xml_dir options) before 0 db c) as Hsame.
    rewrite Hbefore in Hsame. simpl in Hsame. by rewrite Hsame, Hraise.
  - by destruct (order_columbia_clusters_rows LEAD sleep read soup_text words_of
                   options (xml_dir options) before [] 0 db db completed saved
                   Hnd) as (_ & ? & _);
      [rewrite <- (list_fmap_id (search_opinion db)) at 1;
       apply list_fmap_ext; by intros _ op _|done..|].
  - destruct (order_columbia_clusters_rows LEAD sleep read soup_text words_of
                options (xml_dir options) before [] 0 db db completed saved
                Hnd) as (Hrows & _).
    + rewrite <- (list_fmap_id (search_opinion db)) at 1.
      apply list_fmap_ext. by intros _ op _.
    + done.
    + done.
    + by rewrite app_nil_r in Hrows.
  - by apply (ordered_opinions_raise LEAD read soup_text words_of).
Qed.

Lemma columbia_failure_keeps_earlier_clusters_witness :
  columbia_clusters Sample.COLUMBIA_ARCHIVE Sample.options Sample.later = [2; 3] /\
  sort_columbia_opinions Sample.LEAD Sample.COLUMBIA_ARCHIVE Sample.sleep
    Sample.read Sample.soup_text Sample.words_of Sample.options Sample.later
  = (Raise ValueError,
     {| search_opinioncluster := search_opinioncluster Sample.later;
        search_opinion :=
          [ Sample.opinion 7 1 "040dissent" "";
            Sample.opinion 5 1 "010combined" "";
            Sample.opinion 3 1 "020lead" "";
            with_key (Sample.opinion 8 2 "020lead" "b.xml") (Some 2);
            with_key (Sample.opinion 9 2 "010combined" "b.xml") (Some 1);
            Sample.opinion 10 3 "040dissent" "c.xml";
            Sample.opinion 11 3 "040dissent" "c.xml" ] |}).
Proof.
  split; [vm_compute; reflexivity|].
  apply (columbia_failure_keeps_earlier_clusters Sample.LEAD
           Sample.COLUMBIA_ARCHIVE Sample.sleep Sample.read Sample.soup_text
           Sample.words_of Sample.options Sample.later [2] 3 [] 1).
  - apply (bool_decide_unpack _). by vm_compute.
  - vm_compute. reflexivity.
  - vm_compute. reflexivity.
  - vm_compute. reflexivity.
Defined.

Lemma columbia_keys_are_places_witness :
  sort_columbia_opinions Sample.LEAD Sample.COLUMBIA_ARCHIVE Sample.sleep
    Sample.read Sample.soup_text Sample.words_of Sample.options Sample.db
  = (Ok 1,
     {| search_opinioncluster := search_opinioncluster Sample.db;
        search_opinion :=
          [ Sample.opinion 7 1 "040dissent" "";
            Sample.opinion 5 1 "010combined" "";
            Sample.opinion 3 1 "020lead" "";
            with_key (Sample.opinion 8 2 "020lead" "b.xml") (Some 2);
            with_key (Sample.opinion 9 2 "010combined" "b.xml") (Some 1) ] |}) /\
  ordering_key
  <$> filter (fun op => cluster_id op = 2 /\ local_path op ≠ "")
        [ Sample.opinion 7 1 "040dissent" "";
          Sample.opinion 5 1 "010combined" "";
          Sample.opinion 3 1 "020lead" "";
          with_key (Sample.opinion 8 2 "020lead" "b.xml") (Some 2);
          with_key (Sample.opinion 9 2 "010combined" "b.xml") (Some 1) ]
  ≡ₚ [Some 1; Some 2].
Proof.
  split; [vm_compute; reflexivity|].
  destruct (columbia_keys_are_places Sample.LEAD Sample.COLUMBIA_ARCHIVE
              Sample.sleep Sample.read Sample.soup_text Sample.words_of Sample.options
              Sample.db 1
              {| search_opinioncluster := search_opinioncluster Sample.db;
                 search_opinion :=
                   [ Sample.opinion 7 1 "040dissent" "";
                     Sample.opinion 5 1 "010combined" "";
                     Sample.opinion 3 1 "020lead" "";
                     with_key (Sample.opinion 8 2 "020lead" "b.xml") (Some 2);
                     with_key (Sample.opinion 9 2 "010combined" "b.xml") (Some 1) ]
              |})
    as (_ & _ & _ & Hkeys).
  - apply (bool_decide_unpack _). by vm_compute.
  - vm_compute. reflexivity.
  - destruct (Hkeys 2 [9; 8]) as (_ & _ & Hperm).
    + vm_compute. left.
    + vm_compute. reflexivity.
    + exact Hperm.
Defined.

(** X20: [valid_actions] returns an action for its two names as they
    are written, and for nothing else; a name written with a capital
    letter passes the test on [s.lower()] and then fails in the look-up
    of [s] with a [KeyError]; any other text is refused with an
    [ArgumentTypeError]. *)
Theorem valid_actions_cases (s : string) :
  (valid_actions s = Parsed sort_harvard <-> s = "sort-harvard") /\
  (valid_actions s = Parsed sort_columbia <-> s = "sort-columbia") /\
  (valid_actions s = KeyError s <->
   (lower s = "sort-harvard" \/ lower s = "sort-columbia") /\ s ≠ lower s) /\
  (valid_actions s
   = ArgumentTypeError
       "Unable to parse action. Valid actions are: sort-harvard, sort-columbia" <->
   lower s ≠ "sort-harvard" /\ lower s ≠ "sort-columbia").
Proof.
  unfold valid_actions.
  change (join ", " (VALID_ACTIONS.*1)) with "sort-harvard, sort-columbia".
  change ("Unable to parse action. Valid actions are: "
          +:+ "sort-harvard, sort-columbia")
    with "Unable to parse action. Valid actions are: sort-harvard, sort-columbia".
  change (VALID_ACTIONS.*1) with ["sort-harvard"; "sort-columbia"].
  destruct (bool_decide (lower s ∈ ["sort-harvard"; "sort-columbia"])) eqn:Hin;
    simpl.
  - apply bool_decide_eq_true in Hin.
    assert (Hlow : lower s = "sort-harvard" \/ lower s = "sort-columbia").
    { by apply elem_of_cons in Hin as [?|?%list_elem_of_singleton]; [left|right]. }
    destruct (String.eqb_spec s "sort-harvard") as [->|Hh].
    { split_and!; split; try done; intros [? ?]; done. }
    destruct (String.eqb_spec s "sort-columbia") as [->|Hc].
    { split_and!; split; try done; intros [? ?]; done. }
    split_and!; split; try done.
    + intros _. split; [done|]. intros Heq. rewrite <- Heq in Hlow.
      by destruct Hlow.
    + intros [? ?]. by destruct Hlow.
  - apply bool_decide_eq_false in Hin.
    assert (Hlow : lower s ≠ "sort-harvard" /\ lower s ≠ "sort-columbia").
    { split; intros Heq; apply Hin; rewrite Heq; [left | right; left]. }
    split_and!; split; try done.
    + intros ->. by destruct Hlow.
    + intros ->. by destruct Hlow.
    + intros [[?|?] _]; by destruct Hlow.
Qed.

Section Again.

Variable LEAD COLUMBIA_ARCHIVE : string.
Variable sleep : SpecFloat.spec_float -> outcome unit.
Variable read : string -> outcome string.
Variable soup_text : string -> string.
Variable words_of : string -> list string.

(** How the loop ends depends on the opinions of the clusters as
    [values_list] returns them, which have no [ordering_key]. *)
Lemma order_columbia_clusters_outcome options xml_dir (clusters : list Z)
    (completed : Z) db1 db2 :
  (forall c, opinions_of db1 c = opinions_of db2 c) ->
  (order_columbia_clusters LEAD sleep read soup_text words_of options xml_dir
     clusters completed db1).1
  = (order_columbia_clusters LEAD sleep read soup_text words_of options xml_dir
       clusters completed db2).1.
Proof.
  revert completed db1 db2.
  induction clusters as [|c clusters IH]; intros completed db1 db2 Hsame; [done|].
  simpl. rewrite Hsame.
  destruct (ordered_opinions LEAD read soup_text words_of xml_dir
              (opinions_of db2 c)) as [[ordered|]| |]; [| |done..].
  - destruct (sleep (delay options)) as [u| |]; [|done..].
    apply IH. intros c'. by rewrite !opinions_of_save_order.
  - by apply IH.
Qed.

Lemma placed_placed order (op : Opinion) :
  placed order (placed order op) = placed order op.
Proof.
  unfold placed at 1.
  destruct (placed_same order op) as (-> & -> & _).
  unfold placed.
  destruct (order (cluster_id op)) as [ordered|]; [|done].
  by destruct (position (id op) ordered).
Qed.

End Again.

(** X25: [sort_columbia_opinions] run again on the database it leaves
    ends without an exception too, changes nothing and counts the same
    clusters.  The ids of the opinions are unique. *)
Theorem sort_columbia_twice LEAD COLUMBIA_ARCHIVE sleep read soup_text words_of
    options db completed db' :
  NoDup (id <$> search_opinion db) ->
  sort_columbia_opinions LEAD COLUMBIA_ARCHIVE sleep read soup_text words_of
    options db
  = (Ok completed, db') ->
  sort_columbia_opinions LEAD COLUMBIA_ARCHIVE sleep read soup_text words_of
    options db'
  = (Ok completed, db').
Proof.
  intros Hnd Hrun. unfold sort_columbia_opinions in *. cbv zeta in *.
  set (order := orders LEAD read soup_text words_of (xml_dir options)
                  (columbia_clusters COLUMBIA_ARCHIVE options db) db).
  destruct (order_columbia_clusters_rows LEAD sleep read soup_text words_of
              options (xml_dir options)
              (columbia_clusters COLUMBIA_ARCHIVE options db)
              [] 0 db db completed db' Hnd) as (Hr & Hc & Hn); [|done..|].
  { rewrite <- (list_fmap_id (search_opinion db)) at 1.
    apply list_fmap_ext. by intros _ op _. }
  rewrite app_nil_r in Hr. fold order in Hr.
  assert (Hsame : forall c, opinions_of db' c = opinions_of db c).
  { intros c. apply (opinions_of_fmap (placed order)); [apply placed_same|done]. }
  assert (Hclusters : columbia_clusters COLUMBIA_ARCHIVE options db'
                      = columbia_clusters COLUMBIA_ARCHIVE options db).
  { unfold columbia_clusters. by rewrite Hc. }
  assert (Hnd' : NoDup (id <$> search_opinion db')).
  { rewrite Hr, <- list_fmap_compose.
    rewrite (list_fmap_ext _ id (search_opinion db)); [done|].
    intros _ op _. apply placed_same. }
  rewrite Hclusters.
  pose proof (order_columbia_clusters_outcome LEAD sleep read soup_text words_of
                options (xml_dir options)
                (columbia_clusters COLUMBIA_ARCHIVE options db) 0 db' db Hsame)
    as Hout.
  rewrite Hrun in Hout. simpl in Hout.
  destruct (order_columbia_clusters LEAD sleep read soup_text words_of options
              (xml_dir options) (columbia_clusters COLUMBIA_ARCHIVE options db)
              0 db') as [o db2] eqn:Hrun2.
  simpl in Hout. subst o. f_equal.
  destruct (order_columbia_clusters_rows LEAD sleep read soup_text words_of
              options (xml_dir options)
              (columbia_clusters COLUMBIA_ARCHIVE options db)
              [] 0 db' db' completed db2 Hnd') as (Hr2 & Hc2 & _); [|done..|].
  { rewrite <- (list_fmap_id (search_opinion db')) at 1.
    apply list_fmap_ext. by intros _ op _. }
  rewrite app_nil_r in Hr2.
  assert (Hrows : search_opinion db2 = search_opinion db').
  { rewrite Hr2, Hr, <- list_fmap_compose. apply list_fmap_ext.
    intros _ op _. simpl.
    rewrite <- (placed_placed order op) at 2.
    unfold placed at 1 3.
    unfold orders, order. by rewrite Hsame. }
  destruct db2, db'. simpl in *. congruence.
Qed.

Lemma sort_columbia_twice_witness :
  (sort_columbia_opinions Sample.LEAD Sample.COLUMBIA_ARCHIVE Sample.sleep
     Sample.read Sample.soup_text Sample.words_of Sample.options Sample.db).1
  = Ok 1 /\
  sort_columbia_opinions Sample.LEAD Sample.COLUMBIA_ARCHIVE Sample.sleep
    Sample.read Sample.soup_text Sample.words_of Sample.options
    (sort_columbia_opinions Sample.LEAD Sample.COLUMBIA_ARCHIVE Sample.sleep
       Sample.read Sample.soup_text Sample.words_of Sample.options Sample.db).2
  = (Ok 1,
     (sort_columbia_opinions Sample.LEAD Sample.COLUMBIA_ARCHIVE Sample.sleep
        Sample.read Sample.soup_text Sample.words_of Sample.options Sample.db).2).
Proof.
  split; [vm_compute; reflexivity|].
  apply (sort_columbia_twice Sample.LEAD Sample.COLUMBIA_ARCHIVE Sample.sleep
           Sample.read Sample.soup_text Sample.words_of Sample.options Sample.db).
  - apply (bool_decide_unpack _). by vm_compute.
  - vm_compute. reflexivity.
Defined.

Section Keys.

Variable COMBINED LEAD COLUMBIA_ARCHIVE : string.
Variable sleep : SpecFloat.spec_float -> outcome unit.
Variable read : string -> outcome string.
Variable soup_text : string -> string.
Variable words_of : string -> list string.

(** Two databases that differ in the keys of the opinions at most. *)
Abbreviation same_but_keys db db' :=
  (search_opinioncluster db' = search_opinioncluster db /\
   (fun op => with_key op None) <$> search_opinion db'
   = (fun op => with_key op None) <$> search_opinion db).

Lemma save_keys db (op_id key : Z) : same_but_keys db (save db op_id key).
Proof.
  split; [done|]. unfold save. simpl. rewrite <- list_fmap_compose.
  apply list_fmap_ext. intros _ op _. simpl. by case_decide.
Qed.

Lemma order_sub_opinions_keys (ops : list Opinion) (n : Z) (any : bool) db :
  same_but_keys db (order_sub_opinions COMBINED ops n any db).2.
Proof.
  revert n any db. induction ops as [|o ops IH]; intros n any db; [done|].
  simpl. destruct (decide (type o = COMBINED)); [apply IH|].
  destruct (IH (n + 1) true (save db (id o) n)) as [-> ->]. apply save_keys.
Qed.

Lemma order_harvard_clusters_keys options (clusters : list OpinionCluster)
    (completed : Z) db :
  same_but_keys db
    (order_harvard_clusters COMBINED sleep options clusters completed db).2.
Proof.
  revert completed db.
  induction clusters as [|c clusters IH]; intros completed db; [done|].
  simpl.
  pose proof (order_sub_opinions_keys (Py.sorted id (sub_opinions db (pk c))) 1
                false db) as Hstep.
  destruct (order_sub_opinions _ _ _ _ _) as [any_update db1].
  simpl in Hstep. destruct Hstep as [Hc Hr].
  destruct any_update; simpl.
  - destruct (sleep (delay options)); [|done..].
    destruct (IH (completed + 1) db1) as [-> ->]. done.
  - destruct (IH completed db1) as [-> ->]. done.
Qed.

Lemma save_order_keys (ordered : list Z) (n : Z) db :
  same_but_keys db (save_order ordered n db).
Proof.
  revert n db. induction ordered as [|i ordered IH]; intros n db; [done|].
  simpl. destruct (IH (n + 1) (save db i n)) as [-> ->]. apply save_keys.
Qed.

Lemma order_columbia_clusters_keys options xml_dir (clusters : list Z)
    (completed : Z) db :
  same_but_keys db
    (order_columbia_clusters LEAD sleep read soup_text words_of options xml_dir
       clusters completed db).2.
Proof.
  revert completed db.
  induction clusters as [|c clusters IH]; intros completed db; [done|].
  simpl.
  destruct (ordered_opinions LEAD read soup_text words_of xml_dir
              (opinions_of db c)) as [[ordered|]| |]; [| |done..].
  - destruct (sleep (delay options)); simpl; [|apply save_order_keys..].
    destruct (IH (completed + 1) (save_order ordered 1 db)) as [-> ->].
    apply save_order_keys.
  - apply IH.
Qed.

End Keys.

(** X26: whatever the action and however it ends, the command changes
    no cluster and adds, removes and moves no opinion: the two tables
    are after the command what they were before it, the [ordering_key]
    of the opinions apart. *)
Theorem command_changes_keys_only COMBINED LEAD COLUMBIA_ARCHIVE sleep read
    soup_text words_of (a : action) options db :
  search_opinioncluster
    (handle COMBINED LEAD COLUMBIA_ARCHIVE sleep read soup_text words_of a
       options db).2
  = search_opinioncluster db /\
  (fun op => with_key op None)
  <$> search_opinion
        (handle COMBINED LEAD COLUMBIA_ARCHIVE sleep read soup_text words_of a
           options db).2
  = (fun op => with_key op None) <$> search_opinion db.
Proof.
  destruct a; simpl.
  - unfold sort_harvard_opinions.
    destruct (harvard_clusters COLUMBIA_ARCHIVE options db); [|done..].
    apply order_harvard_clusters_keys.
  - apply order_columbia_clusters_keys.
Qed.
